(** * Conditional consistency models on LLVIP: the training script

    A shallow embedding of [llvip/script.py]: the paired dataset and its
    loader, the conditioned U-Net with its checkpoint format, and the
    Lightning module that drives training, EMA shadowing and monitoring.

    Python values are modelled as the script uses them: integers as [Z],
    sequences with Python's indexing and slicing, exceptions as an error
    result, printing and random draws as explicit state.  Operations that
    belong to PyTorch, torchvision, PIL and Lightning are interfaces (type
    classes) or documented library models. *)

From Stdlib Require Import ZArith QArith Qminmax Ascii String List Sorted Lia.
From stdpp Require Import base tactics option list strings gmap pretty.

Local Open Scope string_scope.
Local Open Scope Z_scope.

#[global] Set Warnings "-register-all".

(** ** Python runtime: exceptions, results, sequences *)

Module Py.

Inductive exn : Type :=
| IndexError
| TypeError
| ValueError
| ZeroDivisionError
| FileNotFoundError
| AttributeError
| RuntimeError.

Inductive result (A : Type) : Type :=
| Ok (a : A)
| Raise (e : exn).
Arguments Ok {A} a.
Arguments Raise {A} e.

Definition rbind {A B} (r : result A) (k : A → result B) : result B :=
  match r with
  | Ok a => k a
  | Raise e => Raise e
  end.

Definition is_ok {A} (r : result A) : bool :=
  match r with Ok _ => true | Raise _ => false end.

(** [l[i]]: negative indices count from the end; out of range raises. *)
Definition index {A} (l : list A) (i : Z) : result A :=
  let n := Z.of_nat (length l) in
  let j := if i <? 0 then i + n else i in
  if (0 <=? j) && (j <? n)
  then match l !! Z.to_nat j with
       | Some x => Ok x
       | None => Raise IndexError
       end
  else Raise IndexError.

(** [l[:n]] with Python's clamping of the bound (never raises). *)
Definition slice_to {A} (l : list A) (n : Z) : list A :=
  let len := Z.of_nat (length l) in
  let stop := if n <? 0 then Z.max 0 (n + len) else Z.min n len in
  take (Z.to_nat stop) l.

(** [l[n:]]. *)
Definition slice_from {A} (l : list A) (n : Z) : list A :=
  let len := Z.of_nat (length l) in
  let start := if n <? 0 then Z.max 0 (n + len) else Z.min n len in
  drop (Z.to_nat start) l.

(** [posixpath.join(a, b)]. *)
Definition starts_with_sep (s : string) : bool :=
  match s with
  | String c _ => if Ascii.eqb c "/"%char then true else false
  | EmptyString => false
  end.

Fixpoint ends_with_sep (s : string) : bool :=
  match s with
  | EmptyString => false
  | String c EmptyString => Ascii.eqb c "/"%char
  | String _ rest => ends_with_sep rest
  end.

Definition path_join (a b : string) : string :=
  if starts_with_sep b then b
  else if String.eqb a "" || ends_with_sep a then a ++ b
  else a ++ "/" ++ b.

(** [sorted] on strings: ascending in the code-point order. *)
Fixpoint insert_sorted (x : string) (l : list string) : list string :=
  match l with
  | [] => [x]
  | y :: rest => if String.leb x y then x :: l else y :: insert_sorted x rest
  end.

Definition sorted (l : list string) : list string :=
  foldr insert_sorted [] l.

End Py.

Import Py.

Global Instance result_ret : MRet result := @Ok.
Global Instance result_bind : MBind result := λ A B k r, rbind r k.
Global Instance result_fmap : FMap result :=
  λ A B f r, match r with Ok a => Ok (f a) | Raise e => Raise e end.

(** ** Tensors

    A tensor is its shape and its elements in row-major order.  Rationals
    stand where the script has floating-point numbers; only operations
    whose result does not depend on rounding are defined on the elements,
    the numerical kernels of PyTorch stay behind interfaces. *)

Record Tensor : Type := mkTensor { shape : list Z; data : list Q }.

Definition numel_of (sh : list Z) : Z := foldr Z.mul 1 sh.

(** Elements per entry of the leading axis. *)
Definition row_size (t : Tensor) : Z := numel_of (tail (shape t)).

(** [t.shape[0]]. *)
Definition shape0 (t : Tensor) : result Z := Py.index (shape t) 0.

(** [t[:n]] on the leading axis. *)
Definition tensor_slice_to (t : Tensor) (n : Z) : result Tensor :=
  match shape t with
  | [] => Raise IndexError
  | b :: rest =>
      let stop := if n <? 0 then Z.max 0 (n + b) else Z.min n b in
      Ok {| shape := stop :: rest;
            data := take (Z.to_nat (stop * numel_of rest)) (data t) |}
  end.

Definition tensor_map (f : Q → Q) (t : Tensor) : Tensor :=
  {| shape := shape t; data := map f (data t) |}.

(** [torch.stack(ts)] along a new leading axis. *)
Definition stack (ts : list Tensor) : result Tensor :=
  match ts with
  | [] => Raise RuntimeError
  | t :: rest =>
      if forallb (λ u, bool_decide (shape u = shape t)) rest
      then Ok {| shape := Z.of_nat (length ts) :: shape t;
                 data := concat (map data ts) |}
      else Raise RuntimeError
  end.

(** ** The imaging and file-system collaborators of the dataset *)

Class Imaging : Type := {
  Rng : Type;
  Image : Type;
  (** [os.listdir] *)
  listdir : string → result (list string);
  (** [Image.open(path).convert("RGB")] *)
  image_open : string → result Image;
  (** [image.size], as (width, height) *)
  image_size : Image → Z * Z;
  (** [torch.rand(1).item()] *)
  torch_rand : Rng → Q * Rng;
  (** [torch.randint(low, high, size=(1,)).item()] *)
  torch_randint : Z → Z → Rng → Z * Rng;
  hflip : Image → Image;
  crop : Image → Z → Z → Z → Z → Image;
  resize : Image → Z * Z → Image;
  (** [T.ToTensor()] *)
  to_tensor : Image → Tensor;
}.

(** ** Effects of the data pipeline: printed lines and random draws *)

Section Effects.
Context `{Imaging}.

Record World : Type := mkWorld { stdout : list string; rng : Rng }.

Definition M (A : Type) : Type := World → result A * World.

Definition ret {A} (a : A) : M A := λ w, (Ok a, w).
Definition bind {A B} (m : M A) (k : A → M B) : M B :=
  λ w, match m w with
       | (Ok a, w') => k a w'
       | (Raise e, w') => (Raise e, w')
       end.
Definition lift {A} (r : result A) : M A := λ w, (r, w).
Definition print (line : string) : M unit :=
  λ w, (Ok tt, {| stdout := stdout w ++ [line]; rng := rng w |}).
Definition draw {A} (f : Rng → A * Rng) : M A :=
  λ w, let '(a, g) := f (rng w) in (Ok a, {| stdout := stdout w; rng := g |}).

Global Instance M_ret : MRet M := @ret.
Global Instance M_bind : MBind M := λ A B k m, bind m k.

End Effects.

(** ** PairedDataset *)

Section Dataset.
Context `{Imaging}.

(** What [__getitem__] hands out for one image: the PIL image when the
    dataset has no transform, whatever the transform returns otherwise. *)
Inductive pyobj : Type :=
| PImage (i : Image)
| PTensor (t : Tensor).

Record PairedDataset : Type := {
  visible_dir : string;
  infrared_dir : string;
  visible_images : list string;
  infrared_images : list string;
  transform : option (Image → pyobj);
  crop_size : Z * Z;
  resize_size : Z * Z;
}.

Definition PairedDataset_init (visible_dir infrared_dir : string)
    (transform : option (Image → pyobj)) (crop_size resize_size : Z * Z)
  : result PairedDataset :=
  vis ← listdir visible_dir;
  ir ← listdir infrared_dir;
  Ok {| visible_dir := visible_dir;
        infrared_dir := infrared_dir;
        visible_images := sorted vis;
        infrared_images := sorted ir;
        transform := transform;
        crop_size := crop_size;
        resize_size := resize_size |}.


(** The first two statements of [__getitem__]. *)
Definition item_paths (ds : PairedDataset) (index : Z) : result (string * string) :=
  v ← Py.index (visible_images ds) index;
  let visible_path := path_join (visible_dir ds) v in
  r ← Py.index (infrared_images ds) index;
  let infrared_path := path_join (infrared_dir ds) r in
  Ok (visible_path, infrared_path).

(** [T.RandomCrop.get_params(img, output_size)] of torchvision. *)
Definition get_params (img : Image) (output_size : Z * Z) : M (Z * Z * Z * Z) :=
  let '(w, h) := image_size img in
  let '(th, tw) := output_size in
  if (h <? th) || (w <? tw) then lift (Raise ValueError)
  else if (w =? tw) && (h =? th) then ret (0, 0, h, w)
  else
    i ← draw (torch_randint 0 (h - th + 1));
    j ← draw (torch_randint 0 (w - tw + 1));
    ret (i, j, th, tw).

Definition skip_message (index : Z) : string :=
  "Skipping image pair at index " ++ pretty index ++ " due to mismatched sizes".

Definition PairedDataset_getitem (ds : PairedDataset) (index : Z)
  : M (option (pyobj * pyobj)) :=
  '(visible_path, infrared_path) ← lift (item_paths ds index);
  visible_image ← lift (image_open visible_path);
  infrared_image ← lift (image_open infrared_path);
  if bool_decide (image_size visible_image ≠ image_size infrared_image) then
    _ ← print (skip_message index);
    ret None
  else
    r ← draw torch_rand;
    let flip := negb (Qle_bool r (1 # 2)) in
    let visible_image := if flip then hflip visible_image else visible_image in
    let infrared_image := if flip then hflip infrared_image else infrared_image in
    '(i, j, h, w) ← get_params visible_image (crop_size ds);
    let visible_image := crop visible_image i j h w in
    let infrared_image := crop infrared_image i j h w in
    let visible_image := resize visible_image (resize_size ds) in
    let infrared_image := resize infrared_image (resize_size ds) in
    match transform ds with
    | Some t => ret (Some (t visible_image, t infrared_image))
    | None => ret (Some (PImage visible_image, PImage infrared_image))
    end.

End Dataset.

(** ** LLVIPDataModule and the DataLoader it builds *)

Record ImageDataModuleConfig : Type := {
  data_dir : string;
  image_size_crop : Z * Z;
  image_size_resize : Z * Z;
  batch_size : Z;
  num_workers : Z;
  pin_memory : bool;
  persistent_workers : bool;
}.

Definition ImageDataModuleConfig_default : ImageDataModuleConfig :=
  {| data_dir := "dataset/LLVIP";
     image_size_crop := (512, 512);
     image_size_resize := (128, 128);
     batch_size := 4;
     num_workers := 8;
     pin_memory := true;
     persistent_workers := true |}.

Section DataModule.
Context `{Imaging}.

Definition item : Type := option (pyobj * pyobj).

(** [torch.utils.data.DataLoader]: the arguments the script passes;
    [collate_fn] is [None] unless given. *)
Record DataLoader : Type := {
  dl_dataset : PairedDataset;
  dl_batch_size : Z;
  dl_shuffle : bool;
  dl_num_workers : Z;
  dl_pin_memory : bool;
  dl_persistent_workers : bool;
  dl_collate_fn : option (list item → result (list Tensor));
}.

(** The transform of [setup]: [ToTensor] then [x * 2 - 1]. *)
Definition setup_transform (img : Image) : pyobj :=
  PTensor (tensor_map (λ x, (x * 2 - 1)%Q) (to_tensor img)).

Definition LLVIPDataModule_setup (config : ImageDataModuleConfig)
  : result PairedDataset :=
  PairedDataset_init "datasets/LLVIP/visible/train"
                     "datasets/LLVIP/infrared/train"
                     (Some setup_transform)
                     (image_size_crop config)
                     (image_size_resize config).

Definition train_dataloader (config : ImageDataModuleConfig)
    (dataset : PairedDataset) : DataLoader :=
  {| dl_dataset := dataset;
     dl_batch_size := batch_size config;
     dl_shuffle := true;
     dl_num_workers := num_workers config;
     dl_pin_memory := pin_memory config;
     dl_persistent_workers := persistent_workers config;
     dl_collate_fn := None |}.

(** PyTorch's [default_collate] on a batch of dataset items: a batch of
    tensor pairs becomes the list of the two stacked tensors; an entry that
    is [None] (or holds anything but tensors) is a [TypeError]. *)
Definition as_tensor_pair (it : item) : result (Tensor * Tensor) :=
  match it with
  | Some (PTensor a, PTensor b) => Ok (a, b)
  | _ => Raise TypeError
  end.

Definition default_collate (batch : list item) : result (list Tensor) :=
  match batch with
  | [] => Raise IndexError
  | _ =>
      pairs ← mapM as_tensor_pair batch;
      a ← stack (pairs.*1);
      b ← stack (pairs.*2);
      Ok [a; b]
  end.

(** One batch of the loader: the fetcher reads the items of the sampled
    indices in order and collates them. *)
Definition DataLoader_fetch (dl : DataLoader) (indices : list Z)
  : M (list Tensor) :=
  batch ← mapM (PairedDataset_getitem (dl_dataset dl)) indices;
  lift (match dl_collate_fn dl with
        | Some f => f batch
        | None => default_collate batch
        end).

End DataModule.

(** ** PyTorch modules

    An [nn.Module] is what PyTorch keeps for it: its own parameters and its
    child modules, each under the attribute name (or list position) it was
    registered with, in registration order.  The kind records the class
    and its hyperparameters.  A parameter name is the path of attribute
    names that leads to it; PyTorch joins the path with dots. *)

Module Nn.

Inductive kind : Type :=
| KConv2d (in_channels out_channels kernel_size : Z)
| KGroupNorm (num_groups num_channels : Z)
| KLinear (in_features out_features : Z)
| KSiLU
| KDropout1d (p : Q)
| KDropout2d (p : Q)
| KRearrange (pattern : string) (axes : list (string * Z))
| KUpsampleNearest (scale_factor : Z)
| KSequential
| KModuleList
| KSelfAttention (dropout : Q)
| KUNetBlock
| KUNetBlockWithSelfAttention
| KDownsample
| KUpsample
| KNoiseLevelEmbedding
| KUNet.

Inductive Module (P : Type) : Type :=
| Node (k : kind) (params : list (string * P))
       (children : list (string * Module P)).
Arguments Node {P} k params children.

Definition mkind {P} (m : Module P) : kind :=
  match m with Node k _ _ => k end.
Definition mparams {P} (m : Module P) : list (string * P) :=
  match m with Node _ ps _ => ps end.
Definition mchildren {P} (m : Module P) : list (string * Module P) :=
  match m with Node _ _ cs => cs end.

Abbreviation name := (list string).

Definition extend (prefix : name) (attr : string) : name :=
  (prefix ++ [attr])%list.
Infix "+::" := extend (at level 60, right associativity).

(** [".".join(path)] *)
Definition dotted (n : name) : string := String.concat "." n.

(** First entry under a key, as attribute access and dict lookup do. *)
Fixpoint assoc {K V} `{EqDecision K} (key : K) (l : list (K * V)) : option V :=
  match l with
  | [] => None
  | (k, v) :: rest => if decide (k = key) then Some v else assoc key rest
  end.

(** [module.named_parameters(prefix)]: own parameters first, then the
    children's, depth first in registration order. *)
Fixpoint named_parameters_from {P} (prefix : name) (m : Module P)
  : list (name * P) :=
  match m with
  | Node _ ps cs =>
      (map (λ np, (prefix +:: np.1, np.2)) ps ++
      (fix go (cs : list (string * Module P)) : list (name * P) :=
         match cs with
         | [] => []
         | (c, child) :: rest =>
             (named_parameters_from (prefix +:: c) child ++ go rest)%list
         end) cs)%list
  end.

Definition named_parameters {P} (m : Module P) : list (name * P) :=
  named_parameters_from [] m.

(** Rebuild a module with every parameter slot recomputed from its name
    and old content. *)
Fixpoint mapn {P R} (f : name → P → R) (prefix : name) (m : Module P)
  : Module R :=
  match m with
  | Node k ps cs =>
      Node k
        (map (λ np, (np.1, f (prefix +:: np.1) np.2)) ps)
        ((fix go (cs : list (string * Module P)) : list (string * Module R) :=
            match cs with
            | [] => []
            | (c, child) :: rest =>
                (c, mapn f (prefix +:: c) child) :: go rest
            end) cs)
  end.

(** Registration helpers. *)
Definition sequential {P} (layers : list (Module P)) : Module P :=
  Node KSequential [] (imap (λ i l, (pretty i, l)) layers).

Definition module_list {P} (blocks : list (Module P)) : Module P :=
  Node KModuleList [] (imap (λ i l, (pretty i, l)) blocks).

(** [self.<attr>] on a module, for a child module. *)
Definition child {P} (m : Module P) (attr : string) : result (Module P) :=
  match assoc attr (mchildren m) with
  | Some c => Ok c
  | None => Raise AttributeError
  end.

(** [self.<attr>] for a parameter. *)
Definition param {P} (m : Module P) (attr : string) : result P :=
  match assoc attr (mparams m) with
  | Some p => Ok p
  | None => Raise AttributeError
  end.

(** A parameter at construction: its shape and its [requires_grad]. *)
Record pspec : Type := mkPspec { p_shape : list Z; p_requires_grad : bool }.

(** How a layer fills a parameter it has allocated: [kaiming_uniform_] and
    [uniform_] (the weights and biases of [nn.Conv2d] and [nn.Linear]),
    [torch.randn(...) * scale], [ones_] and [zeros_] ([nn.GroupNorm]), or
    not at all: the bias of a convolution whose fan-in is zero stays as
    [torch.empty] returned it. *)
Inductive init : Type :=
| Uniform
| Normal (scale : Q)
| Constant (q : Q)
| Uninitialized.

(** What a constructor needs of its surroundings: the outcome of a step
    that has no effect, and the allocation of a parameter, which PyTorch
    fills at once.  [F] is the effect of construction and [P] what a
    parameter slot holds. *)
Class Builder (F : Type → Type) (P : Type) : Type := {
  of_result : ∀ {A}, result A → F A;
  new_param : init → list Z → bool → F P;
}.

(** Construction for the architecture alone: a parameter is its shape and
    its [requires_grad]; allocating it refuses a negative dimension. *)
Global Instance architecture : Builder result pspec := {|
  of_result := λ A r, r;
  new_param := λ _ sh requires_grad,
    if forallb (λ d, 0 <=? d) sh
    then Ok {| p_shape := sh; p_requires_grad := requires_grad |}
    else Raise RuntimeError;
|}.

Section Layers.
Context {F : Type → Type} {P : Type} `{!MRet F, !MBind F, !Builder F P}.

(** [nn.Conv2d]: [reset_parameters] leaves the bias alone when the
    fan-in of the weight is zero. *)
Definition Conv2d (in_channels out_channels kernel_size : Z) (bias : bool)
  : F (Module P) :=
  w ← new_param Uniform
                [out_channels; in_channels; kernel_size; kernel_size] true;
  if bias then
    b ← new_param (if in_channels * (kernel_size * kernel_size) =? 0
                   then Uninitialized else Uniform)
                  [out_channels] true;
    mret (Node (KConv2d in_channels out_channels kernel_size)
               [("weight", w); ("bias", b)] [])
  else
    mret (Node (KConv2d in_channels out_channels kernel_size)
               [("weight", w)] []).

Definition Linear (in_features out_features : Z) (bias : bool)
  : F (Module P) :=
  w ← new_param Uniform [out_features; in_features] true;
  if bias then
    b ← new_param Uniform [out_features] true;
    mret (Node (KLinear in_features out_features)
               [("weight", w); ("bias", b)] [])
  else
    mret (Node (KLinear in_features out_features) [("weight", w)] []).

(** [nn.GroupNorm(num_groups, num_channels)]: the channels must divide
    into the groups. *)
Definition nn_GroupNorm (num_groups num_channels : Z) : F (Module P) :=
  if num_groups =? 0 then of_result (Raise ZeroDivisionError)
  else if negb (num_channels `mod` num_groups =? 0)
  then of_result (Raise ValueError)
  else
    w ← new_param (Constant 1) [num_channels] true;
    b ← new_param (Constant 0) [num_channels] true;
    mret (Node (KGroupNorm num_groups num_channels)
               [("weight", w); ("bias", b)] []).

Definition valid_probability (p : Q) : bool :=
  Qle_bool 0 p && Qle_bool p 1.

Definition Dropout1d (p : Q) : F (Module P) :=
  if valid_probability p then mret (Node (KDropout1d p) [] [])
  else of_result (Raise ValueError).

Definition Dropout2d (p : Q) : F (Module P) :=
  if valid_probability p then mret (Node (KDropout2d p) [] [])
  else of_result (Raise ValueError).

Definition SiLU : Module P := Node KSiLU [] [].

Definition Rearrange (pattern : string) (axes : list (string * Z))
  : Module P :=
  Node (KRearrange pattern axes) [] [].

Definition nn_Upsample (scale_factor : Z) : Module P :=
  Node (KUpsampleNearest scale_factor) [] [].

End Layers.

End Nn.

Import Nn.

(** ** Configuration sequences: tuples and lists

    The configuration fields are tuples in the script and lists after a
    trip through JSON; [+] refuses to mix the two. *)

Inductive seq_kind : Type := Tuple | List.

Global Instance seq_kind_eq_dec : EqDecision seq_kind.
Proof. solve_decision. Defined.

Record pyseq (A : Type) : Type := mkSeq { skind : seq_kind; items : list A }.
Arguments mkSeq {A} skind items.
Arguments skind {A} p.
Arguments items {A} p.

Definition tuple {A} (l : list A) : pyseq A := mkSeq Tuple l.

Definition seq_len {A} (s : pyseq A) : Z := Z.of_nat (length (items s)).
Definition seq_index {A} (s : pyseq A) (i : Z) : result A := Py.index (items s) i.
(** [s[:n]], [s[n:]], [s[::-1]] keep the kind of [s]. *)
Definition seq_slice_to {A} (s : pyseq A) (n : Z) : pyseq A :=
  mkSeq (skind s) (Py.slice_to (items s) n).
Definition seq_slice_from {A} (s : pyseq A) (n : Z) : pyseq A :=
  mkSeq (skind s) (Py.slice_from (items s) n).
Definition seq_reversed {A} (s : pyseq A) : pyseq A :=
  mkSeq (skind s) (reverse (items s)).
(** [a + b] *)
Definition seq_add {A} (a b : pyseq A) : result (pyseq A) :=
  if decide (skind a = skind b)
  then Ok (mkSeq (skind a) (items a ++ items b)%list)
  else Raise TypeError.

(** ** UNetConfig *)

Record UNetConfig : Type := {
  channels : Z;
  noise_level_channels : Z;
  noise_level_scale : Q;
  n_heads : Z;
  top_blocks_channels : pyseq Z;
  top_blocks_n_blocks_per_resolution : pyseq Z;
  top_blocks_has_resampling : pyseq bool;
  top_blocks_dropout : pyseq Q;
  mid_blocks_channels : pyseq Z;
  mid_blocks_n_blocks_per_resolution : pyseq Z;
  mid_blocks_has_resampling : pyseq bool;
  mid_blocks_dropout : pyseq Q;
}.

Definition UNetConfig_default : UNetConfig :=
  {| channels := 3;
     noise_level_channels := 256;
     noise_level_scale := 2 # 100;
     n_heads := 8;
     top_blocks_channels := tuple [128; 128];
     top_blocks_n_blocks_per_resolution := tuple [2; 2];
     top_blocks_has_resampling := tuple [true; true];
     top_blocks_dropout := tuple [0%Q; 0%Q];
     mid_blocks_channels := tuple [256; 512];
     mid_blocks_n_blocks_per_resolution := tuple [4; 4];
     mid_blocks_has_resampling := tuple [true; false];
     mid_blocks_dropout := tuple [0%Q; (3 # 10)%Q] |}.

(** ** The building blocks of the U-Net

    Each constructor is written once, over any [Builder]: read with
    [architecture] it gives the module tree of shapes, read with the
    builder that draws from the generator it gives the tree of initial
    tensors, layer by layer in the order of the script. *)

Section Construction.
Context {F : Type → Type} {P : Type} `{!MRet F, !MBind F, !Builder F P}.

Definition GroupNorm (channels : Z) : F (Module P) :=
  nn_GroupNorm (Z.min 32 (channels `div` 4)) channels.

Definition SelfAttention (in_channels out_channels n_heads : Z) (dropout : Q)
  : F (Module P) :=
  qkv_norm ← GroupNorm in_channels;
  qkv_conv ← Conv2d in_channels (3 * in_channels) 1 false;
  let qkv_projection :=
    sequential [qkv_norm; qkv_conv;
                Rearrange "b (i h d) x y -> i b h (x y) d"
                          [("i", 3); ("h", n_heads)]] in
  out_linear ← Linear in_channels out_channels false;
  out_norm ← GroupNorm out_channels;
  out_dropout ← Dropout1d dropout;
  let output_projection :=
    sequential [Rearrange "b h l d -> b l (h d)" [];
                out_linear;
                Rearrange "b l d -> b d l" [];
                out_norm;
                out_dropout] in
  residual_projection ← Conv2d in_channels out_channels 1 true;
  mret (Node (KSelfAttention dropout) []
        [("qkv_projection", qkv_projection);
         ("output_projection", output_projection);
         ("residual_projection", residual_projection)]).

Definition UNetBlock (in_channels out_channels noise_level_channels : Z)
    (dropout : Q) : F (Module P) :=
  in_norm ← GroupNorm in_channels;
  in_conv ← Conv2d in_channels out_channels 3 true;
  in_dropout ← Dropout2d dropout;
  let input_projection := sequential [in_norm; SiLU; in_conv; in_dropout] in
  nl_conv ← Conv2d noise_level_channels out_channels 1 true;
  let noise_level_projection := sequential [SiLU; nl_conv] in
  out_norm ← GroupNorm out_channels;
  out_conv ← Conv2d out_channels out_channels 3 true;
  out_dropout ← Dropout2d dropout;
  let output_projection := sequential [out_norm; SiLU; out_conv; out_dropout] in
  residual_projection ← Conv2d in_channels out_channels 1 true;
  mret (Node KUNetBlock []
        [("input_projection", input_projection);
         ("noise_level_projection", noise_level_projection);
         ("output_projection", output_projection);
         ("residual_projection", residual_projection)]).

Definition UNetBlockWithSelfAttention
    (in_channels out_channels noise_level_channels n_heads : Z) (dropout : Q)
  : F (Module P) :=
  unet_block ← UNetBlock in_channels out_channels noise_level_channels dropout;
  self_attention ← SelfAttention out_channels out_channels n_heads dropout;
  mret (Node KUNetBlockWithSelfAttention []
        [("unet_block", unet_block); ("self_attention", self_attention)]).

Definition Downsample (channels : Z) : F (Module P) :=
  conv ← Conv2d (4 * channels) channels 1 true;
  mret (Node KDownsample []
        [("projection",
          sequential [Rearrange "b c (h ph) (w pw) -> b (c ph pw) h w"
                                [("ph", 2); ("pw", 2)];
                      conv])]).

Definition Upsample (channels : Z) : F (Module P) :=
  conv ← Conv2d channels channels 3 true;
  mret (Node KUpsample []
        [("projection", sequential [nn_Upsample 2; conv])]).

Definition NoiseLevelEmbedding (channels : Z) (scale : Q)
  : F (Module P) :=
  W ← new_param (Normal scale) [channels `div` 2] false;
  lin1 ← Linear channels (4 * channels) true;
  lin2 ← Linear (4 * channels) channels true;
  mret (Node KNoiseLevelEmbedding [("W", W)]
        [("projection",
          sequential [lin1; SiLU; lin2; Rearrange "b c -> b c () ()" []])]).

(** ** UNet: construction *)

Definition block_fn : Type := Z → Z → Q → F (Module P).

(** [list(zip(channels[:-1], channels[1:]))] *)
Definition channel_pairs (channels : pyseq Z) : list (Z * Z) :=
  zip (items (seq_slice_to channels (-1))) (items (seq_slice_from channels 1)).

(** The inner loop of [_make_encoder_blocks]: [n] blocks, the first from
    [in_channels], the others from [out_channels]. *)
Fixpoint encoder_inner (n : nat) (make : block_fn) (dropout : pyseq Q)
    (idx in_channels out_channels : Z) : F (list (Module P)) :=
  match n with
  | O => mret []
  | S n' =>
      d ← of_result (seq_index dropout idx);
      b ← make in_channels out_channels d;
      rest ← encoder_inner n' make dropout idx out_channels out_channels;
      mret (b :: rest)
  end.

Fixpoint encoder_loop (pairs : list (Z * Z)) (idx : Z)
    (n_blocks_per_resolution : pyseq Z) (has_resampling : pyseq bool)
    (dropout : pyseq Q) (make : block_fn) : F (list (Module P)) :=
  match pairs with
  | [] => mret []
  | (in_channels, out_channels) :: rest =>
      n ← of_result (seq_index n_blocks_per_resolution idx);
      inner ← encoder_inner (Z.to_nat n) make dropout idx in_channels out_channels;
      r ← of_result (seq_index has_resampling idx);
      down ← (if r : bool then d ← Downsample out_channels; mret [d]
              else mret []);
      more ← encoder_loop rest (idx + 1) n_blocks_per_resolution
                          has_resampling dropout make;
      mret (inner ++ down ++ more)%list
  end.

Definition _make_encoder_blocks (channels : pyseq Z)
    (n_blocks_per_resolution : pyseq Z) (has_resampling : pyseq bool)
    (dropout : pyseq Q) (make : block_fn) : F (Module P) :=
  blocks ← encoder_loop (channel_pairs channels) 0 n_blocks_per_resolution
                        has_resampling dropout make;
  mret (module_list blocks).

(** The inner loop of [_make_decoder_blocks], in the order the blocks are
    created: the first maps to [out_channels], the others to
    [in_channels]; every block reads [2 * in_channels]. *)
Fixpoint decoder_inner (n : nat) (make : block_fn) (dropout : pyseq Q)
    (idx in_channels out_channels : Z) : F (list (Module P)) :=
  match n with
  | O => mret []
  | S n' =>
      d ← of_result (seq_index (seq_reversed dropout) idx);
      b ← make (in_channels * 2) out_channels d;
      rest ← decoder_inner n' make dropout idx in_channels in_channels;
      mret (b :: rest)
  end.

Fixpoint decoder_loop (pairs : list (Z * Z)) (idx : Z)
    (n_blocks_per_resolution : pyseq Z) (has_resampling : pyseq bool)
    (dropout : pyseq Q) (make : block_fn) : F (list (Module P)) :=
  match pairs with
  | [] => mret []
  | (out_channels, in_channels) :: rest =>
      r ← of_result (seq_index (seq_reversed has_resampling) idx);
      up ← (if r : bool then u ← Upsample in_channels; mret [u]
            else mret []);
      n ← of_result (seq_index (seq_reversed n_blocks_per_resolution) idx);
      inner_blocks ← decoder_inner (Z.to_nat n) make dropout idx
                                   in_channels out_channels;
      more ← decoder_loop rest (idx + 1) n_blocks_per_resolution
                          has_resampling dropout make;
      mret (up ++ reverse inner_blocks ++ more)%list
  end.

Definition _make_decoder_blocks (channels : pyseq Z)
    (n_blocks_per_resolution : pyseq Z) (has_resampling : pyseq bool)
    (dropout : pyseq Q) (make : block_fn) : F (Module P) :=
  blocks ← decoder_loop (reverse (channel_pairs channels)) 0
                        n_blocks_per_resolution has_resampling dropout make;
  mret (module_list blocks).

Definition _make_top_block (config : UNetConfig) : block_fn :=
  λ in_channels out_channels dropout,
    UNetBlock in_channels out_channels (noise_level_channels config) dropout.

Definition _make_mid_block (config : UNetConfig) : block_fn :=
  λ in_channels out_channels dropout,
    UNetBlockWithSelfAttention in_channels out_channels
      (noise_level_channels config) (n_heads config) dropout.

(** [UNet.__init__]: the module tree built from a configuration. *)
Definition UNet_modules (config : UNetConfig) : F (Module P) :=
  top0 ← of_result (seq_index (top_blocks_channels config) 0);
  input_projection ← Conv2d (channels config * 2) top0 3 true;
  noise_level_embedding ←
    NoiseLevelEmbedding (noise_level_channels config) (noise_level_scale config);
  top_channels ←
    of_result (seq_add (top_blocks_channels config)
                       (seq_slice_to (mid_blocks_channels config) 1));
  top_encoder_blocks ←
    _make_encoder_blocks top_channels
      (top_blocks_n_blocks_per_resolution config)
      (top_blocks_has_resampling config)
      (top_blocks_dropout config)
      (_make_top_block config);
  mid_channels ←
    of_result (seq_add (mid_blocks_channels config)
                       (seq_slice_from (mid_blocks_channels config) (-1)));
  mid_encoder_blocks ←
    _make_encoder_blocks mid_channels
      (mid_blocks_n_blocks_per_resolution config)
      (mid_blocks_has_resampling config)
      (mid_blocks_dropout config)
      (_make_mid_block config);
  mid_decoder_blocks ←
    _make_decoder_blocks mid_channels
      (mid_blocks_n_blocks_per_resolution config)
      (mid_blocks_has_resampling config)
      (mid_blocks_dropout config)
      (_make_mid_block config);
  top_decoder_blocks ←
    _make_decoder_blocks top_channels
      (top_blocks_n_blocks_per_resolution config)
      (top_blocks_has_resampling config)
      (top_blocks_dropout config)
      (_make_top_block config);
  output_projection ← Conv2d top0 (channels config) 3 true;
  mret (Node KUNet []
        [("input_projection", input_projection);
         ("noise_level_embedding", noise_level_embedding);
         ("top_encoder_blocks", top_encoder_blocks);
         ("mid_encoder_blocks", mid_encoder_blocks);
         ("mid_decoder_blocks", mid_decoder_blocks);
         ("top_decoder_blocks", top_decoder_blocks);
         ("output_projection", output_projection)]).

End Construction.

Arguments block_fn F P : clear implicits.

(** ** Tensor operations of the forward pass

    The kernels of PyTorch and einops that [forward] calls, over any
    carrier [T] of tensor values read from parameters of type [P].  Each
    may raise (PyTorch reports shape errors as exceptions).  Dropout takes
    the module's [training] flag; what it draws in training mode is the
    instance's concern. *)

Class TorchOps (P T : Type) : Type := {
  of_param : P → T;
  torch_cat : Z → T → T → result T;
  conv2d_same : Z → T → T → option T → result T;
  group_norm : Z → T → T → T → result T;
  linear : T → T → option T → result T;
  silu : T → result T;
  dropout1d : Q → bool → T → result T;
  dropout2d : Q → bool → T → result T;
  einops_rearrange : string → list (string * Z) → T → result T;
  upsample_nearest : Z → T → result T;
  unbind0 : T → result (list T);
  scaled_dot_product_attention : T → T → T → Q → result T;
  torch_add : T → T → result T;
  torch_mul : T → T → result T;
  unsqueeze : Z → T → result T;
  scale_two_pi : T → result T;
  torch_sin : T → result T;
  torch_cos : T → result T;
  dim_size : T → Z → result Z;
}.

Section Forward.
Context {P T : Type} `{TorchOps P T}.

Definition opt_param (m : Module P) (attr : string) : option T :=
  of_param <$> assoc attr (mparams m).

(** [forward] of the library layers. *)
Definition forward_layer (training : bool) (m : Module P) (x : T) : result T :=
  match mkind m with
  | KConv2d _ _ k =>
      w ← param m "weight";
      conv2d_same k x (of_param w) (opt_param m "bias")
  | KGroupNorm g _ =>
      w ← param m "weight";
      b ← param m "bias";
      group_norm g x (of_param w) (of_param b)
  | KLinear _ _ =>
      w ← param m "weight";
      linear x (of_param w) (opt_param m "bias")
  | KSiLU => silu x
  | KDropout1d p => dropout1d p training x
  | KDropout2d p => dropout2d p training x
  | KRearrange pattern axes => einops_rearrange pattern axes x
  | KUpsampleNearest s => upsample_nearest s x
  | _ => Raise TypeError
  end.

(** [nn.Sequential.forward]: the children in order. *)
Definition forward_sequential (training : bool) (m : Module P) (x : T)
  : result T :=
  foldl (λ acc layer, h ← acc; forward_layer training layer.2 h)
        (Ok x) (mchildren m).

Definition SelfAttention_forward (training : bool) (m : Module P) (x : T)
  : result T :=
  qkv_projection ← child m "qkv_projection";
  qkv ← forward_sequential training qkv_projection x;
  parts ← unbind0 qkv;
  match parts with
  | [q; k; v] =>
      let dropout_p :=
        match mkind m with
        | KSelfAttention dropout => if training then dropout else 0%Q
        | _ => 0%Q
        end in
      output ← scaled_dot_product_attention q k v dropout_p;
      output_projection ← child m "output_projection";
      output ← forward_sequential training output_projection output;
      sx ← dim_size x (-2);
      sy ← dim_size x (-1);
      output ← einops_rearrange "b c (x y) -> b c x y" [("x", sx); ("y", sy)]
                                output;
      residual_projection ← child m "residual_projection";
      res ← forward_layer training residual_projection x;
      torch_add output res
  | _ => Raise ValueError
  end.

Definition UNetBlock_forward (training : bool) (m : Module P)
    (x noise_level : T) : result T :=
  input_projection ← child m "input_projection";
  h ← forward_sequential training input_projection x;
  noise_level_projection ← child m "noise_level_projection";
  n ← forward_sequential training noise_level_projection noise_level;
  h ← torch_add h n;
  output_projection ← child m "output_projection";
  out ← forward_sequential training output_projection h;
  residual_projection ← child m "residual_projection";
  res ← forward_layer training residual_projection x;
  torch_add out res.

Definition UNetBlockWithSelfAttention_forward (training : bool)
    (m : Module P) (x noise_level : T) : result T :=
  unet_block ← child m "unet_block";
  h ← UNetBlock_forward training unet_block x noise_level;
  self_attention ← child m "self_attention";
  SelfAttention_forward training self_attention h.

(** [Downsample.forward] and [Upsample.forward]. *)
Definition resample_forward (training : bool) (m : Module P) (x : T)
  : result T :=
  projection ← child m "projection";
  forward_sequential training projection x.

Definition NoiseLevelEmbedding_forward (training : bool) (m : Module P)
    (x : T) : result T :=
  W ← param m "W";
  xc ← unsqueeze 1 x;
  wr ← unsqueeze 0 (of_param W);
  h ← torch_mul xc wr;
  h ← scale_two_pi h;
  s ← torch_sin h;
  c ← torch_cos h;
  h ← torch_cat (-1) s c;
  projection ← child m "projection";
  forward_sequential training projection h.

(** [block(h)]: a call with one argument, as the [else] branches of
    [UNet.forward] make it. *)
Definition call1 (training : bool) (block : Module P) (h : T) : result T :=
  match mkind block with
  | KDownsample | KUpsample => resample_forward training block h
  | KSelfAttention _ => SelfAttention_forward training block h
  | KSequential => forward_sequential training block h
  | KNoiseLevelEmbedding => NoiseLevelEmbedding_forward training block h
  | KUNetBlock | KUNetBlockWithSelfAttention | KUNet | KModuleList =>
      Raise TypeError
  | _ => forward_layer training block h
  end.

Definition is_UNetBlock (m : Module P) : bool :=
  match mkind m with KUNetBlock => true | _ => false end.

Definition is_UNetBlockWithSelfAttention (m : Module P) : bool :=
  match mkind m with KUNetBlockWithSelfAttention => true | _ => false end.

(** One encoder loop: the blocks of the tested class take the noise level
    and leave their output on the stack of skip embeddings. *)
Fixpoint encoder_pass (training : bool) (is_block : Module P → bool)
    (block_forward : bool → Module P → T → T → result T)
    (blocks : list (Module P)) (noise_level : T) (h : T) (embeddings : list T)
  : result (T * list T) :=
  match blocks with
  | [] => Ok (h, embeddings)
  | block :: rest =>
      if is_block block then
        h ← block_forward training block h noise_level;
        encoder_pass training is_block block_forward rest noise_level h
                     (embeddings ++ [h])%list
      else
        h ← call1 training block h;
        encoder_pass training is_block block_forward rest noise_level h
                     embeddings
  end.

(** [embeddings.pop()] *)
Definition pop (embeddings : list T) : result (T * list T) :=
  match reverse embeddings with
  | [] => Raise IndexError
  | e :: rest => Ok (e, reverse rest)
  end.

Fixpoint decoder_pass (training : bool) (is_block : Module P → bool)
    (block_forward : bool → Module P → T → T → result T)
    (blocks : list (Module P)) (noise_level : T) (h : T) (embeddings : list T)
  : result (T * list T) :=
  match blocks with
  | [] => Ok (h, embeddings)
  | block :: rest =>
      if is_block block then
        '(e, embeddings) ← pop embeddings;
        h ← torch_cat 1 h e;
        h ← block_forward training block h noise_level;
        decoder_pass training is_block block_forward rest noise_level h
                     embeddings
      else
        h ← call1 training block h;
        decoder_pass training is_block block_forward rest noise_level h
                     embeddings
  end.

Definition blocks_of (m : Module P) (attr : string) : result (list (Module P)) :=
  l ← child m attr;
  Ok ((mchildren l).*2).

(** [UNet.forward(x, noise_level, v)], from the noise-level embedding on:
    [h] is the output of the input projection. *)
Definition UNet_trunk (training : bool) (m : Module P)
    (h noise_level : T) : result T :=
  noise_level_embedding ← child m "noise_level_embedding";
  noise_level ← NoiseLevelEmbedding_forward training noise_level_embedding
                                            noise_level;
  top_encoder_blocks ← blocks_of m "top_encoder_blocks";
  '(h, top_encoder_embeddings) ←
    encoder_pass training is_UNetBlock UNetBlock_forward
                 top_encoder_blocks noise_level h [];
  mid_encoder_blocks ← blocks_of m "mid_encoder_blocks";
  '(h, mid_encoder_embeddings) ←
    encoder_pass training is_UNetBlockWithSelfAttention
                 UNetBlockWithSelfAttention_forward
                 mid_encoder_blocks noise_level h [];
  mid_decoder_blocks ← blocks_of m "mid_decoder_blocks";
  '(h, _) ←
    decoder_pass training is_UNetBlockWithSelfAttention
                 UNetBlockWithSelfAttention_forward
                 mid_decoder_blocks noise_level h mid_encoder_embeddings;
  top_decoder_blocks ← blocks_of m "top_decoder_blocks";
  '(h, _) ←
    decoder_pass training is_UNetBlock UNetBlock_forward
                 top_decoder_blocks noise_level h top_encoder_embeddings;
  output_projection ← child m "output_projection";
  forward_layer training output_projection h.

(** [UNet.forward(x, noise_level, v)] *)
Definition UNet_forward (training : bool) (m : Module P)
    (x noise_level v : T) : result T :=
  x ← torch_cat 1 x v;
  input_projection ← child m "input_projection";
  h ← forward_layer training input_projection x;
  UNet_trunk training m h noise_level.

End Forward.

(** ** Shapes: the forward pass on tensor shapes

    Each operation computes the shape PyTorch (or einops) returns and
    raises where PyTorch rejects the operands. *)

Module Shapes.

Definition norm_dim (rank : nat) (d : Z) : result nat :=
  let r := Z.of_nat rank in
  let j := if d <? 0 then d + r else d in
  if (0 <=? j) && (j <? r) then Ok (Z.to_nat j) else Raise IndexError.

(** Concatenation along [dim]: the other axes must agree. *)
Definition cat (dim : Z) (a b : list Z) : result (list Z) :=
  d ← norm_dim (length a) dim;
  match a !! d, b !! d with
  | Some x, Some y =>
      if bool_decide (length a = length b) &&
         bool_decide (take d a = take d b) &&
         bool_decide (drop (S d) a = drop (S d) b)
      then Ok (<[d := x + y]> a)
      else Raise RuntimeError
  | _, _ => Raise RuntimeError
  end.

(** Convolution with [padding="same"] and stride 1 on a batch of images. *)
Definition conv2d (k : Z) (x w : list Z) (bias : option (list Z))
  : result (list Z) :=
  match x, w with
  | [b; c; h; wd], [o; i; k1; k2] =>
      if (c =? i) && (k1 =? k) && (k2 =? k) &&
         match bias with
         | Some bs => bool_decide (bs = [o])
         | None => true
         end
      then Ok [b; o; h; wd]
      else Raise RuntimeError
  | _, _ => Raise RuntimeError
  end.

(** [F.group_norm(x, groups, w, b)].  Before the kernel runs, PyTorch
    computes [x.size(0) * x.size(1) // groups] and refuses an input that
    leaves a single value to normalise ([_verify_batch_size], a
    [ValueError]); the kernel then checks the groups and the width of the
    affine parameters. *)
Definition group_norm (groups : Z) (x w b : list Z) : result (list Z) :=
  match x with
  | n :: c :: spatial =>
      if groups =? 0 then Raise ZeroDivisionError
      else if (n * c) `div` groups * numel_of spatial =? 1 then Raise ValueError
      else if (0 <? groups) && (c `mod` groups =? 0) &&
              bool_decide (w = [c]) && bool_decide (b = [c])
      then Ok x
      else Raise RuntimeError
  | _ => Raise RuntimeError
  end.

Definition linear (x w : list Z) (bias : option (list Z)) : result (list Z) :=
  match reverse x, w with
  | f :: lead, [o; i] =>
      if (f =? i) &&
         match bias with
         | Some bs => bool_decide (bs = [o])
         | None => true
         end
      then Ok (reverse lead ++ [o])%list
      else Raise RuntimeError
  | _, _ => Raise RuntimeError
  end.

Definition dropout1d (p : Q) (training : bool) (x : list Z) : result (list Z) :=
  if bool_decide (length x = 2%nat) || bool_decide (length x = 3%nat)
  then Ok x else Raise RuntimeError.

(** The six einops patterns of the script.  For a composed axis einops
    takes the length modulo the product of the given factors, so a factor
    of 0 is a [ZeroDivisionError]; a length that the product does not
    divide is an [EinopsError], a [RuntimeError]; a negative factor gets
    as far as the reshape, which refuses it. *)
Definition rearrange (pattern : string) (axes : list (string * Z))
    (x : list Z) : result (list Z) :=
  if String.eqb pattern "b (i h d) x y -> i b h (x y) d" then
    match x, assoc "i" axes, assoc "h" axes with
    | [b; c; sx; sy], Some i, Some h =>
        if i * h =? 0 then Raise ZeroDivisionError
        else if negb (c `mod` (i * h) =? 0) then Raise RuntimeError
        else if (0 <? i) && (0 <? h)
        then Ok [i; b; h; sx * sy; c `div` (i * h)]
        else Raise RuntimeError
    | _, _, _ => Raise RuntimeError
    end
  else if String.eqb pattern "b h l d -> b l (h d)" then
    match x with
    | [b; h; l; d] => Ok [b; l; h * d]
    | _ => Raise RuntimeError
    end
  else if String.eqb pattern "b l d -> b d l" then
    match x with
    | [b; l; d] => Ok [b; d; l]
    | _ => Raise RuntimeError
    end
  else if String.eqb pattern "b c (x y) -> b c x y" then
    match x, assoc "x" axes, assoc "y" axes with
    | [b; c; l], Some sx, Some sy =>
        if l =? sx * sy then Ok [b; c; sx; sy] else Raise RuntimeError
    | _, _, _ => Raise RuntimeError
    end
  else if String.eqb pattern "b c (h ph) (w pw) -> b (c ph pw) h w" then
    match x, assoc "ph" axes, assoc "pw" axes with
    | [b; c; h; w], Some ph, Some pw =>
        if ph =? 0 then Raise ZeroDivisionError
        else if negb (h `mod` ph =? 0) then Raise RuntimeError
        else if pw =? 0 then Raise ZeroDivisionError
        else if negb (w `mod` pw =? 0) then Raise RuntimeError
        else if (0 <? ph) && (0 <? pw)
        then Ok [b; c * ph * pw; h `div` ph; w `div` pw]
        else Raise RuntimeError
    | _, _, _ => Raise RuntimeError
    end
  else if String.eqb pattern "b c -> b c () ()" then
    match x with
    | [b; c] => Ok [b; c; 1; 1]
    | _ => Raise RuntimeError
    end
  else Raise RuntimeError.

Definition upsample (scale : Z) (x : list Z) : result (list Z) :=
  match x with
  | [b; c; h; w] => Ok [b; c; scale * h; scale * w]
  | _ => Raise RuntimeError
  end.

Definition unbind (x : list Z) : result (list (list Z)) :=
  match x with
  | n :: rest => Ok (replicate (Z.to_nat n) rest)
  | [] => Raise RuntimeError
  end.

Definition attention (q k v : list Z) : result (list Z) :=
  match q, k, v with
  | [b; h; l; e], [b'; h'; s; e'], [b''; h''; s'; ev] =>
      if (b =? b') && (b =? b'') && (h =? h') && (h =? h'') &&
         (e =? e') && (s =? s')
      then Ok [b; h; l; ev]
      else Raise RuntimeError
  | _, _, _ => Raise RuntimeError
  end.

(** Broadcasting of two shapes, aligned at the last axis. *)
Fixpoint broadcast_rev (a b : list Z) : result (list Z) :=
  match a, b with
  | [], _ => Ok b
  | _, [] => Ok a
  | x :: a', y :: b' =>
      rest ← broadcast_rev a' b';
      if x =? y then Ok (x :: rest)
      else if x =? 1 then Ok (y :: rest)
      else if y =? 1 then Ok (x :: rest)
      else Raise RuntimeError
  end.

Definition broadcast (a b : list Z) : result (list Z) :=
  r ← broadcast_rev (reverse a) (reverse b);
  Ok (reverse r).

Definition unsqueeze_at (dim : Z) (x : list Z) : result (list Z) :=
  d ← norm_dim (S (length x)) dim;
  Ok (take d x ++ 1 :: drop d x)%list.

End Shapes.

Global Instance shape_ops : TorchOps pspec (list Z) := {|
  of_param := p_shape;
  torch_cat := Shapes.cat;
  conv2d_same := Shapes.conv2d;
  group_norm := Shapes.group_norm;
  linear := Shapes.linear;
  silu := Ok;
  dropout1d := Shapes.dropout1d;
  dropout2d := λ _ _ x, Ok x;
  einops_rearrange := Shapes.rearrange;
  upsample_nearest := Shapes.upsample;
  unbind0 := Shapes.unbind;
  scaled_dot_product_attention := λ q k v _, Shapes.attention q k v;
  torch_add := Shapes.broadcast;
  torch_mul := Shapes.broadcast;
  unsqueeze := Shapes.unsqueeze_at;
  scale_two_pi := Ok;
  torch_sin := Ok;
  torch_cos := Ok;
  dim_size := Py.index;
|}.

(** The shape of the network's output for inputs of the given shapes. *)
Definition UNet_forward_shape (training : bool) (m : Module pspec)
    (x noise_level v : list Z) : result (list Z) :=
  UNet_forward training m x noise_level v.

(** ** Tensors with their elements: concatenation

    [torch.cat((a, b), dim)] on the elements, in row-major order: for
    every index of the axes before [dim], the block of [a] and after it
    the block of [b]. *)

(** The first [count] blocks of [size] elements each. *)
Fixpoint blocks {A} (count size : nat) (l : list A) : list (list A) :=
  match count with
  | O => []
  | S n => take size l :: blocks n size (drop size l)
  end.

Definition tensor_cat (dim : Z) (a b : Tensor) : result Tensor :=
  sh ← Shapes.cat dim (shape a) (shape b);
  d ← Shapes.norm_dim (length (shape a)) dim;
  let outer := Z.to_nat (numel_of (take d (shape a))) in
  let size_a := Z.to_nat (numel_of (drop d (shape a))) in
  let size_b := Z.to_nat (numel_of (drop d (shape b))) in
  Ok {| shape := sh;
        data := concat (zip_with app (blocks outer size_a (data a))
                                     (blocks outer size_b (data b))) |}.

(** A tensor that holds as many elements as its shape says. *)
Definition well_formed (t : Tensor) : Prop :=
  length (data t) = Z.to_nat (numel_of (shape t)).

(** ** Tensors with their elements: arithmetic with broadcasting

    [a * b] of PyTorch: the shapes are aligned at the last axis, an axis
    of length 1 (or a missing leading axis) is repeated along the axis of
    the other operand, and the elements are combined position by
    position. *)

(** The multi-index of the flat position [k] in a tensor of the given
    shape, last axis first. *)
Fixpoint unravel_rev (sh_rev : list Z) (k : Z) : list Z :=
  match sh_rev with
  | [] => []
  | d :: rest => k `mod` d :: unravel_rev rest (k `div` d)
  end.

(** The flat position, in a tensor of the given shape, of the element
    that broadcasting puts at a multi-index (both last axis first). *)
Fixpoint offset_rev (sh_rev idx_rev : list Z) (stride : Z) : Z :=
  match sh_rev, idx_rev with
  | d :: sh', i :: idx' =>
      (if d =? 1 then 0 else i) * stride + offset_rev sh' idx' (stride * d)
  | _, _ => 0
  end.

Definition broadcast_source (sh out : list Z) (k : Z) : nat :=
  Z.to_nat (offset_rev (reverse sh) (unravel_rev (reverse out) k) 1).

Definition tensor_binop (f : Q → Q → Q) (a b : Tensor) : result Tensor :=
  sh ← Shapes.broadcast (shape a) (shape b);
  Ok {| shape := sh;
        data :=
          map (λ k, f (nth (broadcast_source (shape a) sh k) (data a) 0%Q)
                      (nth (broadcast_source (shape b) sh k) (data b) 0%Q))
              (seqZ 0 (numel_of sh)) |}.

Definition tensor_mul : Tensor → Tensor → result Tensor := tensor_binop Qmult.

Definition Qsum (l : list Q) : Q := foldr Qplus 0%Q l.

(** [t.mean()]: the sum of the elements over their number, a tensor
    without axes.  (The mean of no element is [nan] in PyTorch, which the
    rationals do not have; what is proved of a mean is proved of tensors
    that have elements.) *)
Definition tensor_mean (t : Tensor) : Tensor :=
  {| shape := [];
     data := [(Qsum (data t) / inject_Z (numel_of (shape t)))%Q] |}.

(** ** JSON documents and the configuration record

    [json.dump] and [json.load] are taken at the level of the document
    they write and read back.  Tuples are written as arrays, and arrays
    are read as lists. *)

Inductive json : Type :=
| JNull
| JBool (b : bool)
| JInt (n : Z)
| JFloat (q : Q)
| JStr (s : string)
| JArr (l : list json)
| JObj (fields : list (string * json)).

Definition json_of_seq {A} (f : A → json) (s : pyseq A) : json :=
  JArr (map f (items s)).

(** [asdict(config)] as written by [json.dump]. *)
Definition config_to_json (c : UNetConfig) : json :=
  JObj [("channels", JInt (channels c));
        ("noise_level_channels", JInt (noise_level_channels c));
        ("noise_level_scale", JFloat (noise_level_scale c));
        ("n_heads", JInt (n_heads c));
        ("top_blocks_channels", json_of_seq JInt (top_blocks_channels c));
        ("top_blocks_n_blocks_per_resolution",
         json_of_seq JInt (top_blocks_n_blocks_per_resolution c));
        ("top_blocks_has_resampling",
         json_of_seq JBool (top_blocks_has_resampling c));
        ("top_blocks_dropout", json_of_seq JFloat (top_blocks_dropout c));
        ("mid_blocks_channels", json_of_seq JInt (mid_blocks_channels c));
        ("mid_blocks_n_blocks_per_resolution",
         json_of_seq JInt (mid_blocks_n_blocks_per_resolution c));
        ("mid_blocks_has_resampling",
         json_of_seq JBool (mid_blocks_has_resampling c));
        ("mid_blocks_dropout", json_of_seq JFloat (mid_blocks_dropout c))].

(** How the constructor of the network uses a loaded value: as an
    integer, as a number, or for its truth value.  A value of the wrong
    type is refused here, when the record is read; Python raises the
    [TypeError] at its first use. *)
Definition as_int (j : json) : result Z :=
  match j with
  | JInt n => Ok n
  | JBool b => Ok (if b then 1 else 0)
  | _ => Raise TypeError
  end.

Definition as_float (j : json) : result Q :=
  match j with
  | JFloat q => Ok q
  | JInt n => Ok (inject_Z n)
  | JBool b => Ok (if b then 1%Q else 0%Q)
  | _ => Raise TypeError
  end.

Definition truth (j : json) : result bool :=
  Ok match j with
     | JNull => false
     | JBool b => b
     | JInt n => negb (n =? 0)
     | JFloat q => negb (Qeq_bool q 0)
     | JStr s => negb (String.eqb s "")
     | JArr l => negb (bool_decide (length l = 0%nat))
     | JObj l => negb (bool_decide (length l = 0%nat))
     end.

Definition as_list {A} (f : json → result A) (j : json) : result (pyseq A) :=
  match j with
  | JArr l => l' ← mapM f l; Ok (mkSeq List l')
  | _ => Raise TypeError
  end.

Definition UNetConfig_fields : list string :=
  ["channels"; "noise_level_channels"; "noise_level_scale"; "n_heads";
   "top_blocks_channels"; "top_blocks_n_blocks_per_resolution";
   "top_blocks_has_resampling"; "top_blocks_dropout";
   "mid_blocks_channels"; "mid_blocks_n_blocks_per_resolution";
   "mid_blocks_has_resampling"; "mid_blocks_dropout"].

(** A keyword argument of [UNetConfig] at loading: the loaded value,
    or the default of the dataclass. *)
Definition field {A} (fields : list (string * json)) (key : string)
    (decode : json → result A) (default : A) : result A :=
  match assoc key fields with
  | Some j => decode j
  | None => Ok default
  end.

(** [UNetConfig] called with the keywords of [json.load(f)]. *)
Definition config_of_json (j : json) : result UNetConfig :=
  match j with
  | JObj fields =>
      if forallb (λ kv, bool_decide (kv.1 ∈ UNetConfig_fields)) fields then
        let d := UNetConfig_default in
        c ← field fields "channels" as_int (channels d);
        nlc ← field fields "noise_level_channels" as_int (noise_level_channels d);
        nls ← field fields "noise_level_scale" as_float (noise_level_scale d);
        nh ← field fields "n_heads" as_int (n_heads d);
        tc ← field fields "top_blocks_channels" (as_list as_int)
                   (top_blocks_channels d);
        tn ← field fields "top_blocks_n_blocks_per_resolution" (as_list as_int)
                   (top_blocks_n_blocks_per_resolution d);
        tr ← field fields "top_blocks_has_resampling" (as_list truth)
                   (top_blocks_has_resampling d);
        td ← field fields "top_blocks_dropout" (as_list as_float)
                   (top_blocks_dropout d);
        mc ← field fields "mid_blocks_channels" (as_list as_int)
                   (mid_blocks_channels d);
        mn ← field fields "mid_blocks_n_blocks_per_resolution" (as_list as_int)
                   (mid_blocks_n_blocks_per_resolution d);
        mr ← field fields "mid_blocks_has_resampling" (as_list truth)
                   (mid_blocks_has_resampling d);
        md ← field fields "mid_blocks_dropout" (as_list as_float)
                   (mid_blocks_dropout d);
        Ok {| channels := c;
              noise_level_channels := nlc;
              noise_level_scale := nls;
              n_heads := nh;
              top_blocks_channels := tc;
              top_blocks_n_blocks_per_resolution := tn;
              top_blocks_has_resampling := tr;
              top_blocks_dropout := td;
              mid_blocks_channels := mc;
              mid_blocks_n_blocks_per_resolution := mn;
              mid_blocks_has_resampling := mr;
              mid_blocks_dropout := md |}
      else Raise TypeError
  | _ => Raise TypeError
  end.

(** The configuration with every sequence turned into a list: what a trip
    through JSON makes of it. *)
Definition as_lists (c : UNetConfig) : UNetConfig :=
  let l {A} (s : pyseq A) := mkSeq List (items s) in
  {| channels := channels c;
     noise_level_channels := noise_level_channels c;
     noise_level_scale := noise_level_scale c;
     n_heads := n_heads c;
     top_blocks_channels := l (top_blocks_channels c);
     top_blocks_n_blocks_per_resolution := l (top_blocks_n_blocks_per_resolution c);
     top_blocks_has_resampling := l (top_blocks_has_resampling c);
     top_blocks_dropout := l (top_blocks_dropout c);
     mid_blocks_channels := l (mid_blocks_channels c);
     mid_blocks_n_blocks_per_resolution := l (mid_blocks_n_blocks_per_resolution c);
     mid_blocks_has_resampling := l (mid_blocks_has_resampling c);
     mid_blocks_dropout := l (mid_blocks_dropout c) |}.

(** ** Network objects and the parameter store

    Every [UNet(config)] is a new object.  Its parameter tensors live in
    the store under the object's identity and the parameter's name, so two
    networks share a tensor only if they are the same object. *)

Record cell : Type := mkCell { value : Tensor; requires_grad : bool }.

Record UNet : Type := mkUNet {
  unet_id : positive;
  unet_config : UNetConfig;
  unet_modules : Module pspec;
  unet_training : bool;
}.

(** The generator of random numbers: a stream and how far it was read. *)
Record Gen : Type := mkGen { stream : nat → Q; cursor : nat }.

Inductive file : Type :=
| JsonFile (doc : json)
| TorchFile (state_dict : list (name * Tensor)).

(** What the sampler is called with. *)
Inductive arg : Type :=
| ANetwork (modules : Module Tensor) (training : bool)
| ATensor (t : Tensor)
| AFloats (l : list Q)
| ABool (b : bool).

Record call : Type := mkCall {
  positional : list arg;
  keywords : list (string * arg);
}.

Inductive title : Type :=
| ground_truth
| generated_samples (sigmas : list Q).

(** What a training run does that can be observed from outside:
    [training_step] entered, the optimizer step applied to a network,
    [update_ema_model_] invoked, the sampler invoked, and what is logged. *)
Inductive event : Type :=
| EvTrainingStep (global_step : Z)
| EvOptimizerStep (model : positive)
| EvEmaUpdate (model ema_model : positive)
| EvSampling (c : call)
| EvLogDict (metrics : list (string * Tensor))
| EvAddImage (t : title) (grid : Tensor) (global_step : Z).

Record State : Type := mkState {
  cells : gmap (positive * name) cell;
  next_id : positive;
  gen : Gen;
  files : gmap string file;
  trace : list event;
}.

Definition T (A : Type) : Type := State → result A * State.

Definition T_ret {A} (a : A) : T A := λ s, (Ok a, s).
Definition T_bind {A B} (m : T A) (k : A → T B) : T B :=
  λ s, match m s with
       | (Ok a, s') => k a s'
       | (Raise e, s') => (Raise e, s')
       end.
Global Instance T_mret : MRet T := @T_ret.
Global Instance T_mbind : MBind T := λ A B k m, T_bind m k.

Definition liftT {A} (r : result A) : T A := λ s, (r, s).
Definition get : T State := λ s, (Ok s, s).
Definition emit (e : event) : T unit :=
  λ s, (Ok tt, mkState (cells s) (next_id s) (gen s) (files s)
                       (trace s ++ [e])%list).
Definition set_cell (key : positive * name) (c : cell) : T unit :=
  λ s, (Ok tt, mkState (<[key := c]> (cells s)) (next_id s) (gen s)
                       (files s) (trace s)).
(** An in-place update of a parameter that exists. *)
Definition alter_cell (key : positive * name) (f : cell → cell) : T unit :=
  λ s, (Ok tt, mkState (alter f key (cells s)) (next_id s) (gen s)
                       (files s) (trace s)).
Definition write_file (path : string) (f : file) : T unit :=
  λ s, (Ok tt, mkState (cells s) (next_id s) (gen s)
                       (<[path := f]> (files s)) (trace s)).
Definition read_file (path : string) : T file :=
  λ s, (match files s !! path with
        | Some f => Ok f
        | None => Raise FileNotFoundError
        end, s).
Definition fresh_id : T positive :=
  λ s, (Ok (next_id s),
        mkState (cells s) (Pos.succ (next_id s)) (gen s) (files s) (trace s)).

(** [torch.randn(shape)]: as many draws as the shape has elements. *)
Definition randn (sh : list Z) : T Tensor :=
  λ s, let n := Z.to_nat (numel_of sh) in
       let g := gen s in
       (Ok {| shape := sh;
              data := map (stream g) (seq (cursor g) n) |},
        mkState (cells s) (next_id s) (mkGen (stream g) (cursor g + n)%nat)
                (files s) (trace s)).

Definition randn_like (t : Tensor) : T Tensor := randn (shape t).

(** Run the statements of a loop body over a list, in order. *)
Fixpoint for_each {A} (body : A → T unit) (l : list A) : T unit :=
  match l with
  | [] => mret tt
  | x :: rest => _ ← body x; for_each body rest
  end.

(** *** Construction with the generator

    A layer fills its parameters when it is constructed, so a
    construction that raises has already drawn for the layers before the
    point of failure. *)

Definition G (A : Type) : Type := Gen → result A * Gen.

Definition G_ret {A} (a : A) : G A := λ g, (Ok a, g).
Definition G_bind {A B} (m : G A) (k : A → G B) : G B :=
  λ g, match m g with
       | (Ok a, g') => k a g'
       | (Raise e, g') => (Raise e, g')
       end.
Global Instance G_mret : MRet G := @G_ret.
Global Instance G_mbind : MBind G := λ A B k m, G_bind m k.

(** As many values of the stream as the shape has elements. *)
Definition draws (sh : list Z) (g : Gen) : list Q * Gen :=
  let n := Z.to_nat (numel_of sh) in
  (map (stream g) (seq (cursor g) n), mkGen (stream g) (cursor g + n)%nat).

(** The content of a fresh parameter.  The stream stands for the values
    the samplers of PyTorch return; what [torch.empty] leaves in a tensor
    that is never filled is read as zeros. *)
Definition initial (i : init) (sh : list Z) (g : Gen) : Tensor * Gen :=
  match i with
  | Uniform => let '(l, g') := draws sh g in (mkTensor sh l, g')
  | Normal scale =>
      let '(l, g') := draws sh g in (mkTensor sh (map (λ q, q * scale)%Q l), g')
  | Constant q => (mkTensor sh (replicate (Z.to_nat (numel_of sh)) q), g)
  | Uninitialized => (mkTensor sh (replicate (Z.to_nat (numel_of sh)) 0%Q), g)
  end.

Global Instance drawing : Builder G cell | 100 := {|
  of_result := λ A r g, (r, g);
  new_param := λ i sh requires_grad g,
    if forallb (λ d, 0 <=? d) sh
    then let '(t, g') := initial i sh g in (Ok (mkCell t requires_grad), g')
    else (Raise RuntimeError, g);
|}.

(** Run a construction on the generator of the state. *)
Definition in_gen {A} (m : G A) : T A :=
  λ s, let '(r, g) := m (gen s) in
       (r, mkState (cells s) (next_id s) g (files s) (trace s)).

(** The architecture of a constructed tree. *)
Definition spec_of (c : cell) : pspec :=
  mkPspec (shape (value c)) (requires_grad c).

Definition architecture_of (built : Module cell) : Module pspec :=
  mapn (λ _ c, spec_of c) [] built.

(** [UNet(config)]: run the constructor, then keep the tensors of the
    network that exists now under a fresh identity. *)
Definition register (id : positive) (nc : name * cell) : T unit :=
  set_cell (id, nc.1) nc.2.

Definition UNet_init (config : UNetConfig) : T UNet :=
  built ← in_gen (UNet_modules config);
  id ← fresh_id;
  _ ← for_each (register id) (named_parameters built);
  mret (mkUNet id config (architecture_of built) true).

Definition empty_tensor : Tensor := mkTensor [] [].

Definition tensor_at (s : State) (id : positive) (n : name) : Tensor :=
  match cells s !! (id, n) with
  | Some c => value c
  | None => empty_tensor
  end.

(** [module.state_dict()] *)
Definition state_dict (s : State) (net : UNet) : list (name * Tensor) :=
  map (λ np, (np.1, tensor_at s (unet_id net) np.1))
      (named_parameters (unet_modules net)).

(** The network as [forward] reads it: every parameter slot filled with
    its current tensor. *)
Definition reify (s : State) (net : UNet) : Module Tensor :=
  mapn (λ n _, tensor_at s (unet_id net) n) [] (unet_modules net).

(** [param.copy_(t)]: the value changes, [requires_grad] stays. *)
Definition copy_ (id : positive) (n : name) (t : Tensor) : T unit :=
  alter_cell (id, n) (λ c, mkCell t (requires_grad c)).

(** [module.load_state_dict(state_dict)] with [strict=True]: every
    parameter whose entry has its shape is overwritten in place; then a
    missing key, an unexpected key or an entry of another shape is a
    [RuntimeError].  (PyTorch's legacy exception for scalar parameters does
    not apply: no parameter of this network is a scalar.) *)
Definition load_entry (id : positive) (sd : list (name * Tensor))
    (np : name * pspec) : T unit :=
  match assoc np.1 sd with
  | Some t =>
      if bool_decide (shape t = p_shape np.2) then copy_ id np.1 t
      else mret tt
  | None => mret tt
  end.

Definition entry_ok (sd : list (name * Tensor)) (np : name * pspec) : bool :=
  match assoc np.1 sd with
  | Some t => bool_decide (shape t = p_shape np.2)
  | None => false
  end.

Definition load_state_dict (net : UNet) (sd : list (name * Tensor)) : T unit :=
  let expected := named_parameters (unet_modules net) in
  _ ← for_each (load_entry (unet_id net) sd) expected;
  if forallb (entry_ok sd) expected &&
     forallb (λ kv, bool_decide (kv.1 ∈ expected.*1)) sd
  then mret tt
  else liftT (Raise RuntimeError).

(** ** Checkpoints *)

Definition save_pretrained (net : UNet) (pretrained_path : string) : T unit :=
  _ ← write_file (path_join pretrained_path "config.json")
                 (JsonFile (config_to_json (unet_config net)));
  s ← get;
  write_file (path_join pretrained_path "model.pt")
             (TorchFile (state_dict s net)).

Definition from_pretrained (pretrained_path : string) : T UNet :=
  f ← read_file (path_join pretrained_path "config.json");
  config_dict ← liftT (match f with
                       | JsonFile doc => Ok doc
                       | TorchFile _ => Raise ValueError
                       end);
  config ← liftT (config_of_json config_dict);
  model ← UNet_init config;
  f ← read_file (path_join pretrained_path "model.pt");
  sd ← liftT (match f with
              | TorchFile sd => Ok sd
              | JsonFile _ => Raise RuntimeError
              end);
  _ ← load_state_dict model sd;
  mret model.

(** ** The consistency-model library and the numerical collaborators

    [improved_consistency_model_conditional] is imported by the script and
    is not part of it. *)

(** Modelled from the spec: the [ConsistencyOutput] of one training step
    (data model: predicted tensor, target tensor, per-sample loss weights,
    count of discretization steps). *)
Record ConsistencyOutput : Type := {
  predicted : Tensor;
  target : Tensor;
  loss_weights : Tensor;
  num_timesteps : Tensor;
}.

Class Collaborators : Type := {
  (** [ImprovedConsistencyTraining.__call__(model, x, v, step, max_steps)] *)
  consistency_training :
    Module Tensor → bool → Tensor → Tensor → Z → Z → Gen →
    result ConsistencyOutput * Gen;
  (** [ConsistencySamplingAndEditing.__call__], on the arguments of the call *)
  consistency_sampling : call → Gen → result Tensor * Gen;
  (** [pseudo_huber_loss(input, target)] *)
  pseudo_huber_loss : Tensor → Tensor → result Tensor;
  (** the new value Adam gives a parameter in one step *)
  adam_value : Z → name → Tensor → Tensor;
  (** [torchvision.utils.make_grid(images, value_range=(-1, 1), normalize=True)] *)
  make_grid : Tensor → Tensor;
  (** the stream [seed_everything(seed)] starts *)
  seeded_stream : Z → nat → Q;
  (** the files on disk once the logger and the callbacks of the trainer
      have written what they write in the given state of the run *)
  trainer_files : State → gmap string file;
}.

(** Modelled from the spec: [update_ema_model_(model, ema_model, decay)],
    the EMAUpdater of section 4.4: every parameter of the shadow becomes
    [decay * shadow + (1 - decay) * online], element by element, in place;
    nothing but the shadow is written. *)
Definition ema_tensor (decay : Q) (shadow online : Tensor) : Tensor :=
  {| shape := shape shadow;
     data := zip_with (λ e o, (decay * e + (1 - decay) * o)%Q)
                      (data shadow) (data online) |}.

Definition ema_parameter (model ema_model : UNet) (decay : Q)
    (np : name * pspec) : T unit :=
  s ← get;
  match cells s !! (unet_id model, np.1) with
  | Some online =>
      alter_cell (unet_id ema_model, np.1)
        (λ c, mkCell (ema_tensor decay (value c) (value online))
                     (requires_grad c))
  | None => mret tt
  end.

Definition update_ema_model_ (model ema_model : UNet) (decay : Q) : T unit :=
  _ ← emit (EvEmaUpdate (unet_id model) (unet_id ema_model));
  for_each (ema_parameter model ema_model decay)
           (named_parameters (unet_modules ema_model)).

(** ** LitImprovedConsistencyModel *)

Record LitImprovedConsistencyModelConfig : Type := {
  ema_decay_rate : Q;
  lr : Q;
  betas : Q * Q;
  lr_scheduler_start_factor : Q;
  lr_scheduler_iters : Z;
  sample_every_n_steps : Z;
  num_samples : Z;
  sampling_sigmas : list (list Q);
}.

Definition LitImprovedConsistencyModelConfig_default
  : LitImprovedConsistencyModelConfig :=
  {| ema_decay_rate := 99993 # 100000;
     lr := 1 # 10000;
     betas := (9 # 10, 995 # 1000);
     lr_scheduler_start_factor := 1 # 100000;
     lr_scheduler_iters := 10000;
     sample_every_n_steps := 10000;
     num_samples := 8;
     sampling_sigmas :=
       [[80%Q];
        [80%Q; (661 # 1000)%Q];
        [80%Q; (244 # 10)%Q; (584 # 100)%Q; (9 # 10)%Q; (661 # 1000)%Q]] |}.

Record LitImprovedConsistencyModel : Type := {
  model : UNet;
  ema_model : UNet;
  config : LitImprovedConsistencyModelConfig;
}.

(** What the training loop hands to the hooks as [batch]. *)
Inductive batch_t : Type :=
| BTensor (t : Tensor)
| BList (l : list Tensor).

Section Lit.
Context `{Collaborators}.

Definition with_gen {A} (f : Gen → result A * Gen) : T A :=
  λ s, let '(r, g) := f (gen s) in
       (r, mkState (cells s) (next_id s) g (files s) (trace s)).

(** [param.requires_grad = False] *)
Definition freeze (id : positive) (np : name * pspec) : T unit :=
  alter_cell (id, np.1) (λ c, mkCell (value c) false).

(** [module.eval()] *)
Definition eval (net : UNet) : UNet :=
  mkUNet (unet_id net) (unet_config net) (unet_modules net) false.

Definition LitImprovedConsistencyModel_init (model ema_model : UNet)
    (config : LitImprovedConsistencyModelConfig)
  : T LitImprovedConsistencyModel :=
  _ ← for_each (freeze (unet_id ema_model))
               (named_parameters (unet_modules ema_model));
  mret {| model := model; ema_model := eval ema_model; config := config |}.

(** [visible_images, infrared_images = batch] *)
Definition tensor_row (t : Tensor) (i : nat) : Tensor :=
  let n := Z.to_nat (row_size t) in
  {| shape := tail (shape t);
     data := take n (drop (i * n) (data t)) |}.

Definition unpack2 (batch : batch_t) : result (Tensor * Tensor) :=
  match batch with
  | BList [a; b] => Ok (a, b)
  | BList _ => Raise ValueError
  | BTensor t =>
      match shape t with
      | [] => Raise TypeError
      | n :: _ => if n =? 2 then Ok (tensor_row t 0, tensor_row t 1)
                  else Raise ValueError
      end
  end.

Definition training_step (self : LitImprovedConsistencyModel)
    (global_step max_steps : Z) (batch : batch_t) (batch_idx : Z) : T Tensor :=
  '(visible_images, infrared_images) ← liftT (unpack2 batch);
  s ← get;
  output ← with_gen (consistency_training
                       (reify s (model self)) (unet_training (model self))
                       infrared_images visible_images
                       global_step max_steps);
  losses ← liftT (pseudo_huber_loss (predicted output) (target output));
  weighted ← liftT (tensor_mul losses (loss_weights output));
  let loss := tensor_mean weighted in
  _ ← emit (EvLogDict [("train_loss", loss);
                       ("num_timesteps", num_timesteps output)]);
  mret loss.

(** [t.clamp(min=-1.0, max=1.0)] *)
Definition clamp_unit (t : Tensor) : Tensor :=
  tensor_map (λ q, Qmax (-1) (Qmin q 1)) t.

Definition __log_images (images : Tensor) (t : title) (global_step : Z)
  : T unit :=
  let grid := make_grid (clamp_unit images) in
  emit (EvAddImage t grid global_step).

(** [if isinstance(batch, list): batch = batch[0]] *)
Definition first_of_batch (batch : batch_t) : result Tensor :=
  match batch with
  | BList l => Py.index l 0
  | BTensor t => Ok t
  end.

(** The call of the sampler in the monitoring loop. *)
Definition sampler_call (network : Module Tensor) (training : bool)
    (noise : Tensor) (sigmas : list Q) : call :=
  {| positional := [ANetwork network training; ATensor noise; AFloats sigmas];
     keywords := [("clip_denoised", ABool true); ("verbose", ABool true)] |}.

(** One pass of the loop over [sampling_sigmas]. *)
Definition sample_one (self : LitImprovedConsistencyModel) (global_step : Z)
    (noise : Tensor) (sigmas : list Q) : T unit :=
  s ← get;
  let c := sampler_call (reify s (ema_model self))
                        (unet_training (ema_model self)) noise sigmas in
  _ ← emit (EvSampling c);
  samples ← with_gen (consistency_sampling c);
  let samples := clamp_unit samples in
  __log_images samples (generated_samples sigmas) global_step.

Definition __sample_and_log_samples (self : LitImprovedConsistencyModel)
    (global_step : Z) (batch : batch_t) : T unit :=
  batch ← liftT (first_of_batch batch);
  b ← liftT (shape0 batch);
  let num_samples := Z.min (num_samples (config self)) b in
  head ← liftT (tensor_slice_to batch num_samples);
  noise ← randn_like head;
  head ← liftT (tensor_slice_to batch num_samples);
  _ ← __log_images head ground_truth global_step;
  for_each (sample_one self global_step noise) (sampling_sigmas (config self)).

Definition on_train_batch_end (self : LitImprovedConsistencyModel)
    (global_step : Z) (outputs : Tensor) (batch : batch_t) (batch_idx : Z)
  : T unit :=
  _ ← update_ema_model_ (model self) (ema_model self)
                        (ema_decay_rate (config self));
  if sample_every_n_steps (config self) =? 0
  then liftT (Raise ZeroDivisionError)
  else if ((global_step + 1) `mod` sample_every_n_steps (config self) =? 0)
          || (global_step =? 0)
  then __sample_and_log_samples self global_step batch
  else mret tt.

(** [configure_optimizers]: Adam over [self.model.parameters()], with a
    linear warm-up of the learning rate. *)
Record Optimizer : Type := {
  opt_network : positive;
  opt_params : list name;
  opt_lr : Q;
  opt_betas : Q * Q;
}.

Record Scheduler : Type := {
  start_factor : Q;
  total_iters : Z;
  interval : string;
  frequency : Z;
}.

Definition configure_optimizers (self : LitImprovedConsistencyModel)
  : Optimizer * Scheduler :=
  ({| opt_network := unet_id (model self);
      opt_params := (named_parameters (unet_modules (model self))).*1;
      opt_lr := lr (config self);
      opt_betas := betas (config self) |},
   {| start_factor := lr_scheduler_start_factor (config self);
      total_iters := lr_scheduler_iters (config self);
      interval := "step";
      frequency := 1 |}).

(** ** The training loop of Lightning, as far as the script relies on it *)

(** [optimizer.step()]: every parameter of the optimizer that takes
    gradients gets its new value. *)
Definition step_parameter (opt : Optimizer) (global_step : Z) (n : name)
  : T unit :=
  alter_cell (opt_network opt, n)
    (λ c, if requires_grad c
          then mkCell (adam_value global_step n (value c)) true
          else c).

Definition optimizer_step (opt : Optimizer) (global_step : Z) : T unit :=
  _ ← for_each (step_parameter opt global_step) (opt_params opt);
  emit (EvOptimizerStep (opt_network opt)).

(** One batch under automatic optimization without gradient accumulation:
    [training_step], the optimizer step (which advances [global_step]),
    then the hook [on_train_batch_end]. *)
Definition fit_batch (self : LitImprovedConsistencyModel) (opt : Optimizer)
    (global_step max_steps : Z) (batch : batch_t) (batch_idx : Z) : T unit :=
  _ ← emit (EvTrainingStep global_step);
  loss ← training_step self global_step max_steps batch batch_idx;
  _ ← optimizer_step opt global_step;
  on_train_batch_end self (global_step + 1) loss batch batch_idx.

(** Lightning's test for the end of training: [max_steps = -1] sets no
    limit. *)
Definition _is_max_limit_reached (current maximum : Z) : bool :=
  negb (maximum =? -1) && (maximum <=? current).

(** The logger and the callbacks of the trainer write their files.  The
    logger buffers what the module logs, so the files change when the
    trainer lets it write, not where the module calls it. *)
Definition trainer_write : T unit :=
  λ s, (Ok tt, mkState (cells s) (next_id s) (gen s) (trainer_files s)
                       (trace s)).

(** The loop of [trainer.fit] over batches: one step per batch until the
    limit of [max_steps] optimizer steps is reached; after every step the
    logger and the callbacks write. *)
Fixpoint fit_loop (self : LitImprovedConsistencyModel) (opt : Optimizer)
    (global_step max_steps : Z) (batch_idx : Z) (batches : list batch_t)
  : T unit :=
  match batches with
  | [] => mret tt
  | batch :: rest =>
      if _is_max_limit_reached global_step max_steps then mret tt
      else
        _ ← fit_batch self opt global_step max_steps batch batch_idx;
        _ ← trainer_write;
        fit_loop self opt (global_step + 1) max_steps (batch_idx + 1) rest
  end.

(** [trainer.fit] on batches: the loop, and at its end, or when a step
    has raised, the trainer closes the logger, which writes what it still
    holds; an exception is passed on after that. *)
Definition fit (self : LitImprovedConsistencyModel) (opt : Optimizer)
    (global_step max_steps : Z) (batch_idx : Z) (batches : list batch_t)
  : T unit :=
  λ s, let '(r, s1) :=
         fit_loop self opt global_step max_steps batch_idx batches s in
       (r, (trainer_write s1).2).

(** ** run_training *)

Definition seed_everything (seed : Z) : T unit :=
  λ s, (Ok tt, mkState (cells s) (next_id s) (mkGen (seeded_stream seed) 0)
                       (files s) (trace s)).

(** The first part of [run_training]: the two networks and the Lightning
    module. *)
Definition create_models (unet_config : UNetConfig)
    (lit_icm_config : LitImprovedConsistencyModelConfig)
  : T LitImprovedConsistencyModel :=
  model ← UNet_init unet_config;
  ema_model ← UNet_init unet_config;
  s ← get;
  _ ← load_state_dict ema_model (state_dict s model);
  LitImprovedConsistencyModel_init model ema_model lit_icm_config.

End Lit.

(** ** run_training: the data module, the networks and the trainer

    The whole run has the console and the generator of the loader on one
    side and the networks, the files and the trainer's record on the
    other. *)

Section Run.
Context `{Imaging} `{Collaborators}.

Definition R (A : Type) : Type := World → State → result A * World * State.

Definition R_ret {A} (a : A) : R A := λ w s, (Ok a, w, s).
Definition R_bind {A B} (m : R A) (k : A → R B) : R B :=
  λ w s, match m w s with
         | (Ok a, w', s') => k a w' s'
         | (Raise e, w', s') => (Raise e, w', s')
         end.
Global Instance R_mret : MRet R := @R_ret.
Global Instance R_mbind : MBind R := λ A B k m, R_bind m k.

Definition in_world {A} (m : M A) : R A :=
  λ w s, let '(r, w') := m w in (r, w', s).
Definition in_state {A} (m : T A) : R A :=
  λ w s, let '(r, s') := m s in (r, w, s').

(** The loop of [trainer.fit] over the loader: for every batch of indices
    that the sampler of the loader yields, the loader is asked for the
    batch only if training goes on, and the batch goes through one turn
    of the loop. *)
Fixpoint fit_datamodule_loop (self : LitImprovedConsistencyModel)
    (opt : Optimizer) (dl : DataLoader) (global_step max_steps : Z)
    (batch_idx : Z) (sampled : list (list Z)) : R unit :=
  match sampled with
  | [] => mret tt
  | indices :: rest =>
      if _is_max_limit_reached global_step max_steps then mret tt
      else
        batch ← in_world (DataLoader_fetch dl indices);
        _ ← in_state (fit_loop self opt global_step max_steps batch_idx
                               [BList batch]);
        fit_datamodule_loop self opt dl (global_step + 1) max_steps
                            (batch_idx + 1) rest
  end.

(** [trainer.fit(lit_icm, datamodule=dm)]: Lightning calls [dm.setup]
    again, takes the optimizer of [configure_optimizers] and the loader
    of [train_dataloader], and runs the loop; the logger is closed at the
    end, or when the run has raised. *)
Definition fit_datamodule (self : LitImprovedConsistencyModel)
    (dm_config : ImageDataModuleConfig) (max_steps : Z)
    (sampled : list (list Z)) : R unit :=
  λ w s,
    let '(r, w1, s1) :=
      (dataset ← in_world (lift (LLVIPDataModule_setup dm_config));
       fit_datamodule_loop self (configure_optimizers self).1
                           (train_dataloader dm_config dataset)
                           0 max_steps 0 sampled) w s in
    (r, w1, (trainer_write s1).2).

(** [run_training(config)]: [max_steps] is that of [config.trainer], and
    [sampled] the batches of indices the sampler of the loader yields. *)
Definition run_training (image_dm_config : ImageDataModuleConfig)
    (unet_config : UNetConfig)
    (lit_icm_config : LitImprovedConsistencyModelConfig)
    (max_steps : Z) (model_ckpt_path : string) (seed : Z)
    (sampled : list (list Z)) : R unit :=
  _ ← in_state (seed_everything seed);
  _ ← in_world (lift (LLVIPDataModule_setup image_dm_config));
  _ ← in_world (print "DataModule setup complete.");
  lit_icm ← in_state (create_models unet_config lit_icm_config);
  _ ← in_world (print "Lightning module created.");
  _ ← in_world (print "Starting training...");
  _ ← fit_datamodule lit_icm image_dm_config max_steps sampled;
  _ ← in_world (print "Training completed.");
  _ ← in_state (save_pretrained (model lit_icm) model_ckpt_path);
  in_world (print "Model saved.").

End Run.

(** ** Vocabulary of the properties *)

(** The order [sorted] uses on file names. *)
Definition str_le (a b : string) : Prop := String.leb a b = true.

Section DatasetVocabulary.
Context `{Imaging}.

(** A pair whose two images differ in size: [__getitem__] prints the
    skip line and returns [None]. *)
Definition mismatched (ds : PairedDataset) (i : Z) : Prop :=
  ∃ vp ip v r,
    item_paths ds i = Ok (vp, ip) ∧
    image_open vp = Ok v ∧ image_open ip = Ok r ∧
    image_size v ≠ image_size r.

End DatasetVocabulary.

(** Induction on module trees: a property of every child gives the
    property of the module. *)
Fixpoint Module_rect' {P} (Q : Module P → Prop)
    (step : ∀ k ps cs, Forall (λ c, Q c.2) cs → Q (Node k ps cs))
    (m : Module P) : Q m :=
  match m with
  | Node k ps cs =>
      step k ps cs
        ((fix go (cs : list (string * Module P)) : Forall (λ c, Q c.2) cs :=
            match cs with
            | [] => @List.Forall_nil _ (λ c, Q c.2)
            | (n, c) :: rest =>
                @List.Forall_cons _ (λ c, Q c.2) (n, c) rest
                                  (Module_rect' Q step c) (go rest)
            end) cs)
  end.

(** Keys are used once in each module, as in the dictionaries PyTorch
    keeps them in. *)
Fixpoint well_keyed {P} (m : Module P) : Prop :=
  match m with
  | Node _ ps cs =>
      NoDup (ps.*1) ∧ NoDup (cs.*1) ∧
      (fix go (cs : list (string * Module P)) : Prop :=
         match cs with
         | [] => True
         | (_, c) :: rest => well_keyed c ∧ go rest
         end) cs
  end.

(** A way of making blocks that makes well-keyed blocks. *)
Definition makes_wk (make : block_fn result pspec) : Prop :=
  ∀ i o d m, make i o d = Ok m → well_keyed m.

(** The state after, apart from the trace: only new events are added. *)
Definition extends_trace (P : event → Prop) (s s' : State) : Prop :=
  cells s' = cells s ∧ next_id s' = next_id s ∧ files s' = files s ∧
  ∃ new, trace s' = (trace s ++ new)%list ∧ Forall P new.

(** Nothing but the cells changes. *)
Definition only_cells (s s' : State) : Prop :=
  next_id s' = next_id s ∧ gen s' = gen s ∧ files s' = files s ∧
  trace s' = trace s.

(** Every parameter that existed is related to what it became, and no
    parameter appears or disappears. *)
Definition cells_rel (R : positive * name → cell → cell → Prop)
    (s s' : State) : Prop :=
  only_cells s s' ∧
  ∀ key, option_Forall2 (R key) (cells s !! key) (cells s' !! key).

(** In-place writes to the network [id]: other networks keep their
    cells, and [requires_grad] is not touched. *)
Definition writes_values_of (id : positive) (key : positive * name)
    (c c' : cell) : Prop :=
  (key.1 ≠ id → c' = c) ∧ requires_grad c' = requires_grad c.

(** In-place writes to one network: the others keep their cells. *)
Definition writes_only (id : positive) (key : positive * name)
    (c c' : cell) : Prop :=
  key.1 ≠ id → c' = c.

(** Freezing keeps every value and leaves other networks alone. *)
Definition freezes (id : positive) (key : positive * name)
    (c c' : cell) : Prop :=
  (key.1 ≠ id → c' = c) ∧ value c' = value c.

(** A network object whose parameters are in the store with the shapes of
    its architecture. *)
Definition stored (s : State) (net : UNet) : Prop :=
  ∀ np, np ∈ named_parameters (unet_modules net) →
    ∃ c, cells s !! (unet_id net, np.1) = Some c ∧
         shape (value c) = p_shape np.2.

(** Events that touch neither network. *)
Definition quiet (e : event) : Prop :=
  match e with
  | EvTrainingStep _ | EvLogDict _ => True
  | _ => False
  end.

(** What the monitoring loop may add to the trace: a sampler call on the
    shadow network, the given noise and some sigmas, with the two keyword
    flags, or the image grid of generated samples. *)
Definition monitoring_event (self : LitImprovedConsistencyModel)
    (s0 : State) (noise : Tensor) (global_step : Z) (e : event) : Prop :=
  (∃ sigmas,
      e = EvSampling (sampler_call (reify s0 (ema_model self))
                                   (unet_training (ema_model self))
                                   noise sigmas)) ∨
  (∃ sigmas grid, e = EvAddImage (generated_samples sigmas) grid global_step).

(** An event of monitoring: a sampler call on the shadow network as it is
    in state [s0], or an image grid. *)
Definition monitors (self : LitImprovedConsistencyModel) (s0 : State)
    (gs : Z) (e : event) : Prop :=
  (∃ noise sigmas,
      e = EvSampling (sampler_call (reify s0 (ema_model self))
                                   (unet_training (ema_model self))
                                   noise sigmas)) ∨
  (∃ t grid, e = EvAddImage t grid gs).

(** ** A small instance of everything, for concrete runs *)

Module Fixture.

(** Two visible files and one infrared file; the pair at index 0 differs
    in resolution. *)
Definition toy_listdir (dir : string) : result (list string) :=
  if String.eqb dir "datasets/LLVIP/visible/train"
  then Ok ["190002.jpg"; "190001.jpg"]
  else if String.eqb dir "datasets/LLVIP/infrared/train"
  then Ok ["190001.jpg"]
  else Raise FileNotFoundError.

Definition toy_open (path : string) : result (Z * Z) :=
  if String.eqb path "datasets/LLVIP/visible/train/190001.jpg" then Ok (1280, 1024)
  else if String.eqb path "datasets/LLVIP/visible/train/190002.jpg" then Ok (1280, 1024)
  else if String.eqb path "datasets/LLVIP/infrared/train/190001.jpg" then Ok (640, 512)
  else Raise FileNotFoundError.

#[export] Instance toy_imaging : Imaging := {|
  Rng := nat;
  Image := Z * Z;
  listdir := toy_listdir;
  image_open := toy_open;
  image_size := λ img, img;
  torch_rand := λ g, (0%Q, S g);
  torch_randint := λ low high g, (low, S g);
  hflip := λ img, img;
  crop := λ img i j h w, (w, h);
  resize := λ img size, (size.2, size.1);
  to_tensor := λ img, mkTensor [3; img.2; img.1] [];
|}.

Definition toy_dataset : PairedDataset :=
  {| visible_dir := "datasets/LLVIP/visible/train";
     infrared_dir := "datasets/LLVIP/infrared/train";
     visible_images := ["190001.jpg"; "190002.jpg"];
     infrared_images := ["190001.jpg"];
     transform := Some setup_transform;
     crop_size := (512, 512);
     resize_size := (128, 128) |}.

Definition toy_world : World := {| stdout := []; rng := 0%nat |}.

(** A configuration small enough to build and run. *)
Definition tiny : UNetConfig :=
  {| channels := 1;
     noise_level_channels := 4;
     noise_level_scale := 2 # 100;
     n_heads := 1;
     top_blocks_channels := tuple [4];
     top_blocks_n_blocks_per_resolution := tuple [1];
     top_blocks_has_resampling := tuple [true];
     top_blocks_dropout := tuple [0%Q];
     mid_blocks_channels := tuple [4];
     mid_blocks_n_blocks_per_resolution := tuple [1];
     mid_blocks_has_resampling := tuple [false];
     mid_blocks_dropout := tuple [(3 # 10)%Q] |}.

Definition tiny_lit_config : LitImprovedConsistencyModelConfig :=
  {| ema_decay_rate := 99993 # 100000;
     lr := 1 # 10000;
     betas := (9 # 10, 995 # 1000);
     lr_scheduler_start_factor := 1 # 100000;
     lr_scheduler_iters := 1000;
     sample_every_n_steps := 1;
     num_samples := 8;
     sampling_sigmas := [[80%Q]; [80%Q; (661 # 1000)%Q]] |}.

#[export] Instance toy_collaborators : Collaborators := {|
  consistency_training := λ net training x v global_step max_steps g,
    (Ok {| predicted := x; target := v; loss_weights := x;
           num_timesteps := mkTensor [] [inject_Z global_step] |}, g);
  consistency_sampling := λ c g,
    (match positional c with
     | [_; ATensor y; _] => Ok y
     | _ => Raise TypeError
     end, g);
  pseudo_huber_loss := λ a b, Ok a;
  adam_value := λ global_step n t, t;
  make_grid := λ t, t;
  seeded_stream := λ seed n, inject_Z seed;
  trainer_files := λ s,
    <["logs/icm/version_0/metrics" :=
        JsonFile (JInt (Z.of_nat (length (trace s))))]> (files s);
|}.

Definition initial_state : State :=
  mkState ∅ 1%positive (mkGen (λ n, inject_Z (Z.of_nat n)) 0) ∅ [].

Definition no_network : UNet := mkUNet 1 tiny (Node KUNet [] []) true.

Definition no_lit : LitImprovedConsistencyModel :=
  {| model := no_network; ema_model := no_network; config := tiny_lit_config |}.

(** The Lightning module [create_models] makes for the small
    configuration, and the state it leaves. *)
Definition tiny_lit : LitImprovedConsistencyModel :=
  match (create_models tiny tiny_lit_config initial_state).1 with
  | Ok lit => lit
  | Raise _ => no_lit
  end.

Definition tiny_state : State :=
  (create_models tiny tiny_lit_config initial_state).2.

Definition tiny_modules : Module pspec :=
  match UNet_modules tiny with
  | Ok m => m
  | Raise _ => Node KUNet [] []
  end.

(** A batch of two image pairs of one channel and 2 by 2 pixels. *)
Definition toy_visible : Tensor :=
  mkTensor [2; 1; 2; 2] [1; 1; 1; 1; 0; 0; 0; 0]%Q.
Definition toy_infrared : Tensor :=
  mkTensor [2; 1; 2; 2] [0; 0; 0; 0; 1; 1; 1; 1]%Q.
Definition toy_batch : batch_t := BList [toy_visible; toy_infrared].

(** A checkpoint whose first parameter has the wrong shape. *)
Definition bad_checkpoint : State :=
  mkState ∅ 1%positive (mkGen (λ n, 0%Q) 0)
    (<["ckpt/model.pt" :=
         TorchFile [(["input_projection"; "weight"], mkTensor [1] [0%Q])]]>
       (<["ckpt/config.json" := JsonFile (config_to_json tiny)]> ∅))
    [].

(** The boolean form of "the parameters are stored with their shapes". *)
Definition storedb (s : State) (net : UNet) : bool :=
  forallb (λ np : name * pspec,
             match cells s !! (unet_id net, np.1) with
             | Some c => bool_decide (shape (value c) = p_shape np.2)
             | None => false
             end)
          (named_parameters (unet_modules net)).

End Fixture.

(** ** Resolutions of the network: vocabulary of the properties of [forward] *)

(** One resolution of an encoder and of the decoder that mirrors it: the
    widths it maps between, the number of its blocks and whether it
    resamples. *)
Record level : Type := mkLevel {
  l_in : Z;
  l_out : Z;
  l_blocks : Z;
  l_resampling : bool;
}.

Definition mk_levels (pairs : list (Z * Z)) (n : list Z) (r : list bool)
  : list level :=
  zip_with (λ io kr, mkLevel io.1 io.2 kr.1 kr.2) pairs (zip n r).



Section Structure.
Context (make : block_fn result pspec).

(** A block that [block_fn] made for these widths. *)
Definition made (i o : Z) (blk : Module pspec) : Prop :=
  ∃ dropout, make i o dropout = Ok blk.

(** The blocks of one resolution of the encoder, in order: the first maps
    [i] to [o], the others [o] to [o]. *)
Fixpoint enc_inner (n : nat) (i o : Z) (blocks : list (Module pspec)) : Prop :=
  match n, blocks with
  | O, [] => True
  | S n', blk :: rest => made i o blk ∧ enc_inner n' o o rest
  | _, _ => False
  end.

(** The blocks of one resolution of the decoder, in the order they are
    made: each reads [2 * i]; the first gives [o], the others [i]. *)
Fixpoint dec_inner (n : nat) (i o : Z) (blocks : list (Module pspec)) : Prop :=
  match n, blocks with
  | O, [] => True
  | S n', blk :: rest => made (i * 2) o blk ∧ dec_inner n' i i rest
  | _, _ => False
  end.

Definition resampler (build : Z → result (Module pspec)) (flag : bool)
    (c : Z) (blocks : list (Module pspec)) : Prop :=
  if flag then ∃ m, build c = Ok m ∧ blocks = [m] else blocks = [].

Fixpoint enc_struct (L : list level) (blocks : list (Module pspec)) : Prop :=
  match L with
  | [] => blocks = []
  | lv :: rest =>
      ∃ inner down more,
        blocks = (inner ++ down ++ more)%list ∧
        enc_inner (Z.to_nat (l_blocks lv)) (l_in lv) (l_out lv) inner ∧
        resampler Downsample (l_resampling lv) (l_out lv) down ∧
        enc_struct rest more
  end.

Fixpoint dec_struct (L : list level) (blocks : list (Module pspec)) : Prop :=
  match L with
  | [] => blocks = []
  | lv :: rest =>
      ∃ up inner more,
        blocks = (up ++ reverse inner ++ more)%list ∧
        resampler Upsample (l_resampling lv) (l_out lv) up ∧
        dec_inner (Z.to_nat (l_blocks lv)) (l_out lv) (l_in lv) inner ∧
        dec_struct rest more
  end.

End Structure.


(** Every parameter of the module takes gradients. *)
Definition trainable (m : Module pspec) : Prop :=
  ∀ prefix np, np ∈ named_parameters_from prefix m →
    p_requires_grad np.2 = true.

(** A construction run with the generator agrees with the construction
    read otherwise: it ends the same way, and [f] takes what it returns
    to what the other returns. *)
Definition simulates {A B} (f : A → B) (X : G A) (Y : result B) : Prop :=
  ∀ g, f <$> (X g).1 = Y.

(** The file at a path is the same in two states. *)
Definition keeps_path (p : string) (s s' : State) : Prop :=
  files s' !! p = files s !! p.

(** The parameters of a network that take no gradients keep their cells. *)
Definition keeps_frozen (id : positive) (s s' : State) : Prop :=
  ∀ n c, cells s !! (id, n) = Some c → requires_grad c = false →
         cells s' !! (id, n) = Some c.

(** What a training step adds to the trace when it does not monitor. *)
Definition step_event (e : event) : Prop :=
  match e with
  | EvTrainingStep _ | EvLogDict _ | EvOptimizerStep _ | EvEmaUpdate _ _ => True
  | EvSampling _ | EvAddImage _ _ _ => False
  end.

(** The trace is extended by events of one sort. *)
Definition trace_grows (P : event → Prop) (s s' : State) : Prop :=
  ∃ new, trace s' = (trace s ++ new)%list ∧ Forall P new.

(** The configuration [main] trains with. *)
Definition main_lit_icm_config : LitImprovedConsistencyModelConfig :=
  {| ema_decay_rate := ema_decay_rate LitImprovedConsistencyModelConfig_default;
     lr := lr LitImprovedConsistencyModelConfig_default;
     betas := betas LitImprovedConsistencyModelConfig_default;
     lr_scheduler_start_factor :=
       lr_scheduler_start_factor LitImprovedConsistencyModelConfig_default;
     lr_scheduler_iters := 1000;
     sample_every_n_steps := 2100000;
     num_samples := num_samples LitImprovedConsistencyModelConfig_default;
     sampling_sigmas :=
       sampling_sigmas LitImprovedConsistencyModelConfig_default |}.

Definition main_max_steps : Z := 200000.

(** The events of one pass of the monitoring loop. *)
Definition sampling_events (network : Module Tensor) (training : bool)
    (noise : Tensor) (global_step : Z) (sigmas : list Q) (grid : Tensor)
  : list event :=
  [EvSampling (sampler_call network training noise sigmas);
   EvAddImage (generated_samples sigmas) grid global_step].

Section Sampler.
Context `{Collaborators}.

(** What the sampler returns for the calls of one monitoring pass, one
    call per schedule in order, the generator going from each call to the
    next. *)
Fixpoint sampler_returns (network : Module Tensor) (training : bool)
    (noise : Tensor) (sigmas_list : list (list Q)) (g : Gen)
    (samples : list Tensor) (g' : Gen) : Prop :=
  match sigmas_list, samples with
  | [], [] => g' = g
  | sigmas :: rest, t :: ts =>
      ∃ g1, consistency_sampling (sampler_call network training noise sigmas) g
              = (Ok t, g1) ∧
            sampler_returns network training noise rest g1 ts g'
  | _, _ => False
  end.

End Sampler.

(** Every element of the tensor lies between the two bounds. *)
Definition within (lo hi : Q) (t : Tensor) : Prop :=
  Forall (λ q, (lo <= q)%Q ∧ (q <= hi)%Q) (data t).

Section Augmentation.
Context `{Imaging}.

(** What [__getitem__] makes of one image of a pair, given the flip and
    the crop box drawn for the pair. *)
Definition augmented (ds : PairedDataset) (flip : bool) (top left : Z)
    (img : Image) : pyobj :=
  let img := if flip then hflip img else img in
  let img := crop img top left (crop_size ds).1 (crop_size ds).2 in
  let img := resize img (resize_size ds) in
  match transform ds with
  | Some t => t img
  | None => PImage img
  end.

End Augmentation.

(** ** A second small instance: two pairs of equal resolution *)

Module Paired.

Definition pair_listdir (dir : string) : result (list string) :=
  if String.eqb dir "datasets/LLVIP/visible/train"
  then Ok ["010002.jpg"; "010001.jpg"]
  else if String.eqb dir "datasets/LLVIP/infrared/train"
  then Ok ["010001.jpg"; "010002.jpg"]
  else Raise FileNotFoundError.

#[export] Instance pair_imaging : Imaging := {|
  Rng := nat;
  Image := Z * Z;
  listdir := pair_listdir;
  image_open := λ path, Ok (1280, 1024);
  image_size := λ img, img;
  torch_rand := λ g, (3 # 4, S g);
  torch_randint := λ low high g, (low, S g);
  hflip := λ img, img;
  crop := λ img i j h w, (w, h);
  resize := λ img size, (size.2, size.1);
  to_tensor := λ img,
    mkTensor [3; img.2; img.1]
             (replicate (Z.to_nat (3 * img.2 * img.1)) (1 # 2));
|}.

(** The defaults of the data module with a resize to 2 by 2 pixels. *)
Definition pair_config : ImageDataModuleConfig :=
  {| data_dir := "../datasets/LLVIP";
     image_size_crop := (512, 512);
     image_size_resize := (2, 2);
     batch_size := 2;
     num_workers := 8;
     pin_memory := true;
     persistent_workers := true |}.

Definition pair_dataset : PairedDataset :=
  {| visible_dir := "datasets/LLVIP/visible/train";
     infrared_dir := "datasets/LLVIP/infrared/train";
     visible_images := ["010001.jpg"; "010002.jpg"];
     infrared_images := ["010001.jpg"; "010002.jpg"];
     transform := Some setup_transform;
     crop_size := (512, 512);
     resize_size := (2, 2) |}.

Definition pair_world : World := {| stdout := []; rng := 0%nat |}.

(** A dataset whose crop is larger than its images. *)
Definition wide_crop_dataset : PairedDataset :=
  {| visible_dir := "datasets/LLVIP/visible/train";
     infrared_dir := "datasets/LLVIP/infrared/train";
     visible_images := ["010001.jpg"; "010002.jpg"];
     infrared_images := ["010001.jpg"; "010002.jpg"];
     transform := Some setup_transform;
     crop_size := (2048, 2048);
     resize_size := (2, 2) |}.

End Paired.

(** ** Further concrete runs *)

Module Cases.

(** An interpretation of the tensor operations on tensors with elements,
    for concrete runs: concatenation is [tensor_cat]; every numerical
    kernel gives a tensor of zeros of the shape PyTorch returns. *)
Definition zeros (sh : list Z) : Tensor :=
  mkTensor sh (replicate (Z.to_nat (numel_of sh)) 0%Q).

Definition zeros_of (r : result (list Z)) : result Tensor :=
  sh ← r; Ok (zeros sh).

#[export] Instance zero_kernels : TorchOps pspec Tensor := {|
  of_param := λ p, zeros (p_shape p);
  torch_cat := tensor_cat;
  conv2d_same := λ k x w bias,
    zeros_of (Shapes.conv2d k (shape x) (shape w) (fmap (M := option) shape bias));
  group_norm := λ g x w b,
    zeros_of (Shapes.group_norm g (shape x) (shape w) (shape b));
  linear := λ x w bias,
    zeros_of (Shapes.linear (shape x) (shape w) (fmap (M := option) shape bias));
  silu := Ok;
  dropout1d := λ p training x, zeros_of (Shapes.dropout1d p training (shape x));
  dropout2d := λ _ _ x, Ok x;
  einops_rearrange := λ pattern axes x,
    zeros_of (Shapes.rearrange pattern axes (shape x));
  upsample_nearest := λ s x, zeros_of (Shapes.upsample s (shape x));
  unbind0 := λ x,
    match Shapes.unbind (shape x) with
    | Ok shs => Ok (map zeros shs)
    | Raise e => Raise e
    end;
  scaled_dot_product_attention := λ q k v _,
    zeros_of (Shapes.attention (shape q) (shape k) (shape v));
  torch_add := λ a b, zeros_of (Shapes.broadcast (shape a) (shape b));
  torch_mul := λ a b, zeros_of (Shapes.broadcast (shape a) (shape b));
  unsqueeze := λ d x, zeros_of (Shapes.unsqueeze_at d (shape x));
  scale_two_pi := Ok;
  torch_sin := Ok;
  torch_cos := Ok;
  dim_size := λ x, Py.index (shape x);
|}.

(** Collaborators whose objective gives one weight per entry of the
    batch and whose loss is un-reduced (the squared difference stands
    for the pseudo-Huber loss). *)
Definition weighted_collaborators : Collaborators := {|
  consistency_training := λ net training x v global_step max_steps g,
    (Ok {| predicted := x; target := v;
           loss_weights := mkTensor [2; 1; 1; 1] [1; 2]%Q;
           num_timesteps := mkTensor [] [inject_Z global_step] |}, g);
  consistency_sampling := λ c g,
    (match positional c with
     | [_; ATensor y; _] => Ok y
     | _ => Raise TypeError
     end, g);
  pseudo_huber_loss := λ a b,
    Ok (mkTensor (shape a)
                 (zip_with (λ p t, ((p - t) * (p - t))%Q) (data a) (data b)));
  adam_value := λ global_step n t, t;
  make_grid := λ t, t;
  seeded_stream := λ seed n, inject_Z seed;
  trainer_files := files;
|}.

(** A noisy image and a condition image of one channel and 2 by 2 pixels,
    in a batch of two. *)
Definition noisy_image : Tensor :=
  mkTensor [2; 1; 2; 2] [1; 2; 3; 4; 5; 6; 7; 8]%Q.
Definition condition_image : Tensor :=
  mkTensor [2; 1; 2; 2] [11; 12; 13; 14; 15; 16; 17; 18]%Q.

(** The small network under the configuration of [main]. *)
Definition main_lit : LitImprovedConsistencyModel :=
  {| model := model Fixture.tiny_lit;
     ema_model := ema_model Fixture.tiny_lit;
     config := main_lit_icm_config |}.

(** The small network with monitoring set to every 0 steps. *)
Definition zero_period_lit : LitImprovedConsistencyModel :=
  {| model := model Fixture.tiny_lit;
     ema_model := ema_model Fixture.tiny_lit;
     config :=
       {| ema_decay_rate := ema_decay_rate Fixture.tiny_lit_config;
          lr := lr Fixture.tiny_lit_config;
          betas := betas Fixture.tiny_lit_config;
          lr_scheduler_start_factor :=
            lr_scheduler_start_factor Fixture.tiny_lit_config;
          lr_scheduler_iters := lr_scheduler_iters Fixture.tiny_lit_config;
          sample_every_n_steps := 0;
          num_samples := num_samples Fixture.tiny_lit_config;
          sampling_sigmas := sampling_sigmas Fixture.tiny_lit_config |} |}.

(** A checkpoint whose [model.pt] holds a key that is no parameter. *)
Definition stray_key_checkpoint : State :=
  mkState ∅ 1%positive (mkGen (λ n, 0%Q) 0)
    (<["ckpt/model.pt" :=
         TorchFile [(["not_a_parameter"], mkTensor [1] [0%Q])]]>
       (<["ckpt/config.json" := JsonFile (config_to_json Fixture.tiny)]> ∅))
    [].

(** A checkpoint whose [config.json] gives the widths of the top blocks
    and leaves those of the middle blocks to the default. *)
Definition partial_fields : list (string * json) :=
  [("channels", JInt 1); ("noise_level_channels", JInt 4);
   ("top_blocks_channels", JArr [JInt 4])].

Definition partial_checkpoint : State :=
  mkState ∅ 1%positive (mkGen (λ n, 0%Q) 0)
    (<["ckpt/config.json" := JsonFile (JObj partial_fields)]> ∅)
    [].

End Cases.

(** * Properties *)

(** ** The definitions on small inputs *)

Example index_from_the_end : Py.index [10; 20; 30] (-1) = Ok 30.
Proof. reflexivity. Qed.

Example index_out_of_range : Py.index [10; 20; 30] 3 = Raise IndexError.
Proof. reflexivity. Qed.

Example sorted_names :
  Py.sorted ["190002.jpg"; "190010.jpg"; "190001.jpg"]
  = ["190001.jpg"; "190002.jpg"; "190010.jpg"].
Proof. reflexivity. Qed.

Example path_join_plain :
  Py.path_join "checkpoints/llvip" "config.json" = "checkpoints/llvip/config.json".
Proof. reflexivity. Qed.

Example path_join_trailing_separator :
  Py.path_join "checkpoints/" "model.pt" = "checkpoints/model.pt".
Proof. reflexivity. Qed.

Example slice_within_batch :
  shape <$> tensor_slice_to (mkTensor [4; 3; 2; 2] []) 8 = Ok [4; 3; 2; 2].
Proof. reflexivity. Qed.

Example slice_negative_bound :
  shape <$> tensor_slice_to (mkTensor [4; 3; 2; 2] []) (-1) = Ok [3; 3; 2; 2].
Proof. reflexivity. Qed.

Example group_norm_of_small_width : GroupNorm 2 = Raise ZeroDivisionError.
Proof. reflexivity. Qed.

Example default_first_parameters :
  (λ m, (λ np, (dotted np.1, p_shape np.2)) <$> take 3 (named_parameters m))
    <$> UNet_modules UNetConfig_default
  = Ok [("input_projection.weight", [128; 6; 3; 3]);
        ("input_projection.bias", [128]);
        ("noise_level_embedding.W", [128])].
Proof. vm_compute. reflexivity. Qed.

Example default_decoder_blocks :
  (m ← UNet_modules UNetConfig_default;
   blocks ← blocks_of m "mid_decoder_blocks";
   Ok (map mkind blocks))
  = Ok [KUNetBlockWithSelfAttention; KUNetBlockWithSelfAttention;
        KUNetBlockWithSelfAttention; KUNetBlockWithSelfAttention;
        KUpsample;
        KUNetBlockWithSelfAttention; KUNetBlockWithSelfAttention;
        KUNetBlockWithSelfAttention; KUNetBlockWithSelfAttention].
Proof. vm_compute. reflexivity. Qed.

Example default_forward_shape :
  (m ← UNet_modules UNetConfig_default;
   UNet_forward_shape true m [4; 3; 128; 128] [4] [4; 3; 128; 128])
  = Ok [4; 3; 128; 128].
Proof. vm_compute. reflexivity. Qed.

Example default_forward_rejects_gray_condition :
  (m ← UNet_modules UNetConfig_default;
   UNet_forward_shape true m [4; 3; 128; 128] [4] [4; 1; 128; 128])
  = Raise RuntimeError.
Proof. vm_compute. reflexivity. Qed.

Example mixed_sequences_are_refused :
  seq_add (tuple [128; 128]) (mkSeq List [256]) = Raise TypeError.
Proof. reflexivity. Qed.

(** ** Python sequences *)





Lemma insert_sorted_perm x l : Py.insert_sorted x l ≡ₚ x :: l.
Proof.
  induction l as [|y l IH]; simpl; [done|].
  destruct (String.leb x y); [done|].
  rewrite IH. apply Permutation_swap.
Qed.

Lemma sorted_perm l : Py.sorted l ≡ₚ l.
Proof.
  induction l as [|x l IH]; simpl; [done|].
  by rewrite insert_sorted_perm, IH.
Qed.

Lemma string_compare_trans (x y z : string) :
  String.compare x y ≠ Gt → String.compare y z ≠ Gt → String.compare x z ≠ Gt.
Proof.
  revert y z. induction x as [|a x IH]; intros [|b y] [|c z]; simpl; try done.
  unfold Ascii.compare.
  destruct (N.compare_spec (N_of_ascii a) (N_of_ascii b)),
           (N.compare_spec (N_of_ascii b) (N_of_ascii c)),
           (N.compare_spec (N_of_ascii a) (N_of_ascii c));
    try done; try lia.
  apply IH.
Qed.

Lemma str_le_trans (x y z : string) : str_le x y → str_le y z → str_le x z.
Proof.
  unfold str_le, String.leb. intros Hxy Hyz.
  pose proof (string_compare_trans x y z) as Ht.
  destruct (String.compare x y), (String.compare y z),
    (String.compare x z); try done; exfalso; by apply Ht.
Qed.

Lemma insert_sorted_ordered x l :
  StronglySorted str_le l → StronglySorted str_le (Py.insert_sorted x l).
Proof.
  induction 1 as [|y l Hl IH Hy]; simpl.
  - repeat constructor.
  - destruct (String.leb x y) eqn:Hxy.
    + constructor; [by constructor|].
      constructor; [done|].
      eapply Forall_impl; [exact Hy|].
      intros z Hz. by apply (str_le_trans x y z).
    + constructor; [by apply IH|].
      rewrite insert_sorted_perm. constructor; [|done].
      unfold str_le. destruct (String.leb_total x y); congruence.
Qed.

Lemma sorted_ordered l : StronglySorted str_le (Py.sorted l).
Proof.
  induction l; simpl; [constructor|]. by apply insert_sorted_ordered.
Qed.

(** ** PairedDataset and the loader *)

Section DatasetFacts.
Context `{Imaging}.

Lemma init_listings vdir irdir tr cs rs ds :
  PairedDataset_init vdir irdir tr cs rs = Ok ds →
  ∃ vis ir, listdir vdir = Ok vis ∧ listdir irdir = Ok ir ∧
    visible_dir ds = vdir ∧ infrared_dir ds = irdir ∧
    visible_images ds = Py.sorted vis ∧ infrared_images ds = Py.sorted ir.
Proof.
  unfold PairedDataset_init. intros Hinit.
  destruct (listdir vdir) as [vis|] eqn:Hv; [|done].
  destruct (listdir irdir) as [ir|] eqn:Hr; [|done].
  simpl in Hinit. injection Hinit as <-. by exists vis, ir.
Qed.



Lemma getitem_mismatched ds (i : Z) (w : World) :
  mismatched ds i →
  PairedDataset_getitem ds i w =
    (Ok None, {| stdout := stdout w ++ [skip_message i]; rng := rng w |}).
Proof.
  intros (vp & ip & v & r & Hp & Hv & Hr & Hne).
  unfold PairedDataset_getitem. rewrite Hp. simpl.
  unfold mbind, M_bind, bind, lift. rewrite Hv, Hr.
  by rewrite bool_decide_true.
Qed.

Lemma mapM_getitem_elem ds (indices : list Z) (w w' : World) batch (i : Z) :
  mapM (PairedDataset_getitem ds) indices w = (Ok batch, w') →
  i ∈ indices → mismatched ds i → None ∈ batch.
Proof.
  revert w batch. induction indices as [|j indices IH]; intros w batch Hm Hin Hmis.
  - by apply elem_of_nil in Hin.
  - simpl in Hm. unfold mbind, M_bind, bind in Hm.
    destruct (PairedDataset_getitem ds j w) as [[y|e] w1] eqn:Hj; [|done].
    destruct (mapM (PairedDataset_getitem ds) indices w1) as [[ys|e] w2] eqn:Hrest;
      [|done].
    unfold mret, M_ret, ret in Hm. injection Hm as <- <-.
    apply elem_of_cons in Hin as [->|Hin].
    + rewrite (getitem_mismatched _ _ _ Hmis) in Hj.
      injection Hj as <- _. apply elem_of_cons. by left.
    + apply elem_of_cons. right. by eapply IH.
Qed.

Lemma default_collate_None (batch : list item) :
  None ∈ batch → default_collate batch = Raise TypeError.
Proof.
  intros Hin. unfold default_collate.
  destruct batch as [|x batch]; [by apply elem_of_nil in Hin|].
  assert (mapM as_tensor_pair (x :: batch) = Raise TypeError) as ->; [|done].
  revert Hin. generalize (x :: batch). clear x batch.
  induction l as [|y l IH]; intros Hin; [by apply elem_of_nil in Hin|].
  simpl. unfold mbind at 1. unfold result_bind at 1.
  apply elem_of_cons in Hin as [<-|Hin]; [done|].
  destruct (as_tensor_pair y) as [p|e] eqn:Hy; simpl.
  - by rewrite (IH Hin).
  - unfold as_tensor_pair in Hy.
    repeat case_match; congruence.
Qed.

(** C2: on a pair of different resolutions [__getitem__] prints the skip
    line and returns [None]; the loader of [train_dataloader] has no
    [collate_fn], so a batch that contains such an index is never
    delivered: fetching it raises. *)
Theorem mismatched_pair_aborts_batch cfg ds (indices : list Z) (i : Z) (w : World) :
  mismatched ds i → i ∈ indices →
  PairedDataset_getitem ds i w =
    (Ok None, {| stdout := stdout w ++ [skip_message i]; rng := rng w |}) ∧
  dl_collate_fn (train_dataloader cfg ds) = None ∧
  ∃ e w', DataLoader_fetch (train_dataloader cfg ds) indices w = (Raise e, w').
Proof.
  intros Hmis Hin. split_and!; [by apply getitem_mismatched|done|].
  unfold DataLoader_fetch. simpl. unfold mbind, M_bind, bind.
  destruct (mapM (PairedDataset_getitem ds) indices w) as [[batch|e] w'] eqn:Hm.
  - exists TypeError, w'. unfold lift.
    by rewrite (default_collate_None batch (mapM_getitem_elem _ _ _ _ _ _ Hm Hin Hmis)).
  - by exists e, w'.
Qed.

End DatasetFacts.

Lemma forallb_elem {A} (f : A → bool) (l : list A) (x : A) :
  forallb f l = true → x ∈ l → f x = true.
Proof.
  intros Hall Hx. rewrite forallb_forall in Hall.
  by apply Hall, list_elem_of_In.
Qed.

(** ** Error results *)

Lemma bind_Ok {A B} (r : result A) (k : A → result B) (b : B) :
  (r ≫= k) = Ok b → ∃ a, r = Ok a ∧ k a = Ok b.
Proof. destruct r as [a|e]; [|done]. intros Hk. by exists a. Qed.

Tactic Notation "bind_inv" hyp(H) :=
  let a := fresh "a" in
  let Ha := fresh "H" a in
  apply bind_Ok in H as (a & Ha & H).

Tactic Notation "bind_inv" hyp(H) "as" ident(a) ident(Ha) :=
  apply bind_Ok in H as (a & Ha & H).

(** ** The denoising network *)

(** The steps of a constructor read for the architecture. *)
Ltac architecture_steps :=
  cbn [of_result new_param architecture mret result_ret] in *.

Lemma Conv2d_Ok cin cout k bias m :
  Conv2d cin cout k bias = Ok m →
  mkind m = KConv2d cin cout k ∧
  assoc "weight" (mparams m) =
    Some {| p_shape := [cout; cin; k; k]; p_requires_grad := true |} ∧
  assoc "bias" (mparams m) =
    (if bias then Some {| p_shape := [cout]; p_requires_grad := true |}
     else None).
Proof.
  unfold Conv2d. intros Hm. architecture_steps.
  bind_inv Hm. destruct (forallb _ _); [|done]. injection Ha as <-.
  destruct bias.
  - bind_inv Hm. destruct (forallb _ _); [|done]. injection Ha as <-.
    by injection Hm as <-.
  - by injection Hm as <-.
Qed.

Lemma UNet_modules_projections cfg m :
  UNet_modules cfg = Ok m →
  ∃ top0 ip op,
    seq_index (top_blocks_channels cfg) 0 = Ok top0 ∧
    child m "input_projection" = Ok ip ∧
    Conv2d (channels cfg * 2) top0 3 true = Ok ip ∧
    child m "output_projection" = Ok op ∧
    Conv2d top0 (channels cfg) 3 true = Ok op.
Proof.
  unfold UNet_modules. intros Hm.
  bind_inv Hm as top0 Htop.
  bind_inv Hm as ip Hip.
  do 7 bind_inv Hm.
  bind_inv Hm as op Hop.
  injection Hm as <-.
  by exists top0, ip, op.
Qed.

Lemma forward_conv_shape training m cin cout k (x out : list Z) :
  Conv2d cin cout k true = Ok m →
  forward_layer training m x = Ok out →
  ∃ b h w, x = [b; cin; h; w] ∧ out = [b; cout; h; w].
Proof.
  intros Hm Hf. apply Conv2d_Ok in Hm as (Hk & Hw & Hb).
  unfold forward_layer, param, opt_param in Hf. rewrite Hk, Hw, Hb in Hf.
  simpl in Hf. unfold Shapes.conv2d in Hf.
  destruct x as [|b [|c [|h [|w [|]]]]]; try done.
  destruct (Z.eqb_spec c cin); [|done]. subst. simpl in Hf.
  repeat case_match; try done. injection Hf as <-. by exists b, h, w.
Qed.

(** Blocks of equal size and their concatenation. *)
Lemma blocks_lookup {A} (count size : nat) (l : list A) (i : nat) :
  (i < count)%nat →
  blocks count size l !! i = Some (take size (drop (i * size) l)).
Proof.
  revert l i. induction count as [|n IH]; intros l i Hi; [lia|].
  destruct i as [|i]; [done|]. simpl.
  rewrite IH by lia. by rewrite drop_drop.
Qed.

Lemma blocks_length {A} (count size : nat) (l : list A) :
  length (blocks count size l) = count.
Proof. revert l. induction count as [|n IH]; intros l; simpl; [done|]. by rewrite IH. Qed.

Lemma blocks_full {A} (count size : nat) (l : list A) :
  (count * size ≤ length l)%nat →
  Forall (λ c, length c = size) (blocks count size l).
Proof.
  revert l. induction count as [|n IH]; intros l Hlen; [constructor|].
  simpl. constructor.
  - rewrite length_take. lia.
  - apply IH. rewrite length_drop. lia.
Qed.

Lemma concat_block {A} (m : nat) (ls : list (list A)) (i : nat) (c : list A) :
  Forall (λ c, length c = m) ls → ls !! i = Some c →
  take m (drop (i * m) (concat ls)) = c.
Proof.
  revert i. induction ls as [|c0 ls IH]; intros i Hall Hi; [done|].
  apply Forall_cons in Hall as [Hc0 Hall].
  change (concat (c0 :: ls)) with (c0 ++ concat ls)%list.
  destruct i as [|i].
  - injection Hi as <-. change (0 * m)%nat with 0%nat.
    rewrite drop_0. by rewrite take_app_length'.
  - change (S i * m)%nat with (m + i * m)%nat.
    rewrite drop_app_add' by done. by apply IH.
Qed.

(** Channel concatenation of two batches of images: every entry of the
    batch holds the channels of the first image and after them the
    channels of the second. *)
Lemma tensor_cat_channels (x v : Tensor) (b c h w : Z) :
  shape x = [b; c; h; w] → shape v = [b; c; h; w] →
  0 ≤ b → 0 ≤ c → 0 ≤ h → 0 ≤ w →
  well_formed x → well_formed v →
  ∃ xv, tensor_cat 1 x v = Ok xv ∧
        shape xv = [b; 2 * c; h; w] ∧
        ∀ i, (i < Z.to_nat b)%nat →
          data (tensor_row xv i) =
            (data (tensor_row x i) ++ data (tensor_row v i))%list.
Proof.
  intros Hx Hv Hb Hc Hh Hw Hlx Hlv.
  unfold well_formed in Hlx, Hlv. rewrite Hx in Hlx. rewrite Hv in Hlv.
  set (n := Z.to_nat (c * (h * (w * 1)))).
  assert (Z.to_nat (numel_of [b; c; h; w]) = (Z.to_nat b * n)%nat) as Hnumel.
  { unfold numel_of, n. simpl. rewrite Z2Nat.inj_mul by lia. done. }
  rewrite Hnumel in Hlx, Hlv.
  set (xs := blocks (Z.to_nat b) n (data x)).
  set (vs := blocks (Z.to_nat b) n (data v)).
  exists {| shape := [b; c + c; h; w];
            data := concat (zip_with app xs vs) |}.
  split_and!.
  - unfold tensor_cat. rewrite Hx, Hv.
    unfold Shapes.cat. change (Shapes.norm_dim _ 1) with (Ok 1%nat).
    cbn -[Z.add Z.mul]. rewrite !bool_decide_true by done.
    cbn -[Z.add Z.mul]. unfold xs, vs, n, numel_of. cbn -[Z.add Z.mul].
    by rewrite Z.mul_1_r.
  - simpl. do 2 f_equal. lia.
  - intros i Hi. unfold tensor_row, row_size. rewrite Hx, Hv.
    cbn [shape data tail].
    assert (Z.to_nat (numel_of [c + c; h; w]) = (n + n)%nat) as ->.
    { unfold numel_of, n. simpl.
      replace ((c + c) * (h * (w * 1))) with
        (c * (h * (w * 1)) + c * (h * (w * 1))) by lia.
      apply Z2Nat.inj_add; nia. }
    assert (Z.to_nat (numel_of [c; h; w]) = n) as -> by done.
    assert (xs !! i = Some (take n (drop (i * n) (data x)))) as Hxi
      by (by apply blocks_lookup).
    assert (vs !! i = Some (take n (drop (i * n) (data v)))) as Hvi
      by (by apply blocks_lookup).
    apply concat_block.
    + assert (Forall (λ c, length c = n) xs) as Hxs
        by (apply blocks_full; lia).
      assert (Forall (λ c, length c = n) vs) as Hvs
        by (apply blocks_full; lia).
      apply Forall_lookup. intros j cj Hj.
      apply lookup_zip_with_Some in Hj as (cx & cv & -> & Hcx & Hcv).
      rewrite length_app.
      rewrite Forall_lookup in Hxs, Hvs.
      by rewrite (Hxs _ _ Hcx), (Hvs _ _ Hcv).
    + rewrite lookup_zip_with, Hxi. simpl. by rewrite Hvi.
Qed.

(** C7: the noisy image and the condition image, each with the configured
    [C] channels, are concatenated on the channel axis before the input
    projection, which reads [2 * C] channels; the output projection
    returns [C] channels.  In every interpretation of the tensor
    operations in which [torch.cat] is concatenation, the input
    projection is applied to the tensor whose batch entries hold the
    channels of the noisy image followed by the channels of the condition
    image, and nothing else of the forward pass reads the two images. *)
Theorem UNet_forward_concatenates_condition cfg m :
  UNet_modules cfg = Ok m →
  ∃ top0 ip op,
    child m "input_projection" = Ok ip ∧
    mkind ip = KConv2d (2 * channels cfg) top0 3 ∧
    child m "output_projection" = Ok op ∧
    mkind op = KConv2d top0 (channels cfg) 3 ∧
    (∀ (ops : TorchOps pspec Tensor),
       (∀ dim a c, torch_cat dim a c = tensor_cat dim a c) →
       ∀ training (x noise_level v : Tensor) (b h w : Z),
         shape x = [b; channels cfg; h; w] →
         shape v = [b; channels cfg; h; w] →
         0 ≤ b → 0 ≤ channels cfg → 0 ≤ h → 0 ≤ w →
         well_formed x → well_formed v →
         ∃ xv,
           shape xv = [b; 2 * channels cfg; h; w] ∧
           (∀ i, (i < Z.to_nat b)%nat →
              data (tensor_row xv i) =
                (data (tensor_row x i) ++ data (tensor_row v i))%list) ∧
           UNet_forward training m x noise_level v =
             (h0 ← forward_layer training ip xv;
              UNet_trunk training m h0 noise_level)) ∧
    (∀ training (b h w : Z) (noise_level out : list Z),
       UNet_forward_shape training m [b; channels cfg; h; w] noise_level
                          [b; channels cfg; h; w] = Ok out →
       forward_layer training ip [b; 2 * channels cfg; h; w]
         = Ok [b; top0; h; w] ∧
       UNet_trunk training m [b; top0; h; w] noise_level = Ok out ∧
       (∃ hid, forward_layer training op hid = Ok out) ∧
       out !! 1%nat = Some (channels cfg)).
Proof.
  intros Hm.
  destruct (UNet_modules_projections _ _ Hm)
    as (top0 & ip & op & Htop & Hip & Hipc & Hop & Hopc).
  replace (channels cfg * 2) with (2 * channels cfg) in Hipc by lia.
  exists top0, ip, op. split_and!; try done.
  - by apply Conv2d_Ok in Hipc as (? & _).
  - by apply Conv2d_Ok in Hopc as (? & _).
  - intros ops Hcat training x nl v b h w Hx Hv Hb Hc Hh Hw Hlx Hlv.
    destruct (tensor_cat_channels x v b (channels cfg) h w
                Hx Hv Hb Hc Hh Hw Hlx Hlv) as (xv & Hxv & Hsh & Hrows).
    exists xv. split_and!; try done.
    unfold UNet_forward. rewrite Hcat, Hxv. simpl. by rewrite Hip.
  - intros training b h w nl out Hf.
    unfold UNet_forward_shape, UNet_forward in Hf.
    assert (torch_cat 1 [b; channels cfg; h; w] [b; channels cfg; h; w]
            = Ok [b; 2 * channels cfg; h; w]) as Hcat.
    { simpl. unfold Shapes.cat. simpl.
      rewrite !bool_decide_true by done. simpl. do 3 f_equal. lia. }
    rewrite Hcat in Hf. simpl in Hf. rewrite Hip in Hf. simpl in Hf.
    bind_inv Hf as hproj Hproj.
    destruct (forward_conv_shape _ _ _ _ _ _ _ Hipc Hproj)
      as (b' & h' & w' & Hx & ->).
    injection Hx as <- <- <-.
    pose proof Hf as Htrunk. unfold UNet_trunk in Hf.
    do 2 bind_inv Hf.
    bind_inv Hf as blocks1 Hblocks1. bind_inv Hf as r1 Hr1. destruct r1 as [h1 e1].
    bind_inv Hf as blocks2 Hblocks2. bind_inv Hf as r2 Hr2. destruct r2 as [h2 e2].
    bind_inv Hf as blocks3 Hblocks3. bind_inv Hf as r3 Hr3. destruct r3 as [h3 e3].
    bind_inv Hf as blocks4 Hblocks4. bind_inv Hf as r4 Hr4. destruct r4 as [h4 e4].
    bind_inv Hf as op' Hop'. rewrite Hop in Hop'. injection Hop' as <-.
    destruct (forward_conv_shape _ _ _ _ _ _ _ Hopc Hf)
      as (b'' & h'' & w'' & -> & ->).
    split_and!; try done. by exists [b''; top0; h''; w''].
Qed.

(** ** The state monad of the training run *)

Lemma T_bind_unfold {A B} (m : T A) (k : A → T B) (s : State) :
  (m ≫= k) s = match m s with
               | (Ok a, s') => k a s'
               | (Raise e, s') => (Raise e, s')
               end.
Proof. reflexivity. Qed.

Lemma T_bind_inv {A B} (m : T A) (k : A → T B) (s s' : State) (r : result B) :
  (m ≫= k) s = (r, s') →
  (∃ a s1, m s = (Ok a, s1) ∧ k a s1 = (r, s')) ∨
  (∃ e, m s = (Raise e, s') ∧ r = Raise e).
Proof.
  rewrite T_bind_unfold. destruct (m s) as [[a|e] s1]; intros Hk.
  - left. by exists a, s1.
  - right. injection Hk as <- <-. by exists e.
Qed.

(** A relation between the states before and after that every pass of a
    loop body respects is respected by the loop. *)
Lemma for_each_rel {A} (body : A → T unit) (R : State → State → Prop)
    (l : list A) :
  (∀ s, R s s) →
  (∀ s1 s2 s3, R s1 s2 → R s2 s3 → R s1 s3) →
  (∀ x s r s', x ∈ l → body x s = (r, s') → R s s') →
  ∀ s r s', for_each body l s = (r, s') → R s s'.
Proof.
  intros Hrefl Htrans. induction l as [|x l IH]; intros Hbody s r s' Hrun.
  - injection Hrun as <- <-. apply Hrefl.
  - simpl in Hrun. apply T_bind_inv in Hrun as [(a & s1 & Hx & Hrest)|(e & Hx & ->)].
    + eapply Htrans.
      * eapply Hbody; [apply elem_of_cons; by left|exact Hx].
      * eapply IH; [|exact Hrest].
        intros y s2 r2 s2' Hy. apply Hbody, elem_of_cons. by right.
    + eapply Hbody; [apply elem_of_cons; by left|exact Hx].
Qed.

(** A loop whose passes cannot fail does not fail. *)
Lemma for_each_total {A} (body : A → T unit) (l : list A) :
  (∀ x s, x ∈ l → ∃ s', body x s = (Ok tt, s')) →
  ∀ s, ∃ s', for_each body l s = (Ok tt, s').
Proof.
  induction l as [|x l IH]; intros Hbody s.
  - by exists s.
  - destruct (Hbody x s) as [s1 Hx]; [apply elem_of_cons; by left|].
    destruct (IH (λ y s2 Hy, Hbody y s2 ltac:(apply elem_of_cons; by right)) s1)
      as [s' Hrest].
    exists s'. simpl. by rewrite T_bind_unfold, Hx.
Qed.

Lemma extends_trace_refl P s : extends_trace P s s.
Proof.
  repeat split. exists []. split; [by rewrite app_nil_r|constructor].
Qed.

Lemma extends_trace_trans P s1 s2 s3 :
  extends_trace P s1 s2 → extends_trace P s2 s3 → extends_trace P s1 s3.
Proof.
  intros (Hc1 & Hn1 & Hf1 & new1 & Ht1 & HP1) (Hc2 & Hn2 & Hf2 & new2 & Ht2 & HP2).
  repeat split; try congruence.
  exists (new1 ++ new2)%list. split.
  - by rewrite Ht2, Ht1, app_assoc.
  - by apply Forall_app.
Qed.

Lemma extends_trace_weaken (P Q : event → Prop) s s' :
  (∀ e, P e → Q e) → extends_trace P s s' → extends_trace Q s s'.
Proof.
  intros HPQ (Hc & Hn & Hf & new & Ht & HP). repeat split; try done.
  exists new. split; [done|]. eapply Forall_impl; eauto.
Qed.

Lemma emit_extends (P : event → Prop) e s r s' :
  P e → emit e s = (r, s') → extends_trace P s s'.
Proof.
  intros HP Hrun. injection Hrun as <- <-. repeat split.
  exists [e]. split; [done|]. by constructor.
Qed.

Lemma randn_extends P sh s r s' :
  randn sh s = (r, s') → extends_trace P s s'.
Proof.
  intros Hrun. injection Hrun as <- <-. repeat split.
  exists []. split; [by rewrite app_nil_r|constructor].
Qed.

Lemma randn_shape sh s r s' :
  randn sh s = (r, s') → ∃ t, r = Ok t ∧ shape t = sh.
Proof. intros Hrun. injection Hrun as <- <-. by eexists. Qed.

Lemma liftT_inv {A} (x : result A) s r s' :
  liftT x s = (r, s') → r = x ∧ s' = s.
Proof. intros Hrun. by injection Hrun as <- <-. Qed.

(** ** Module trees *)

Lemma named_parameters_node {P} (prefix : name) k (ps : list (string * P)) cs :
  named_parameters_from prefix (Node k ps cs) =
  (map (λ np, (prefix +:: np.1, np.2)) ps ++
   concat (map (λ c, named_parameters_from (prefix +:: c.1) c.2) cs))%list.
Proof.
  simpl. f_equal. induction cs as [|[c child] cs IH]; [done|].
  simpl. by rewrite IH.
Qed.

Lemma mapn_node {P R} (f : name → P → R) (prefix : name) k ps cs :
  mapn f prefix (Node k ps cs) =
  Node k (map (λ np, (np.1, f (prefix +:: np.1) np.2)) ps)
         (map (λ c, (c.1, mapn f (prefix +:: c.1) c.2)) cs).
Proof.
  simpl. f_equal. induction cs as [|[c child] cs IH]; [done|].
  simpl. by rewrite IH.
Qed.

(** Filling the slots depends only on what the filler does at the names
    of the module's parameters. *)
Lemma mapn_ext {P R} (f g : name → P → R) (m : Module P) :
  ∀ prefix,
    (∀ np, np ∈ named_parameters_from prefix m → f np.1 np.2 = g np.1 np.2) →
    mapn f prefix m = mapn g prefix m.
Proof.
  induction m as [k ps cs IH] using Module_rect'. intros prefix Hfg.
  rewrite !mapn_node. rewrite named_parameters_node in Hfg. f_equal.
  - apply map_ext_in. intros np Hnp. f_equal.
    apply (Hfg (prefix +:: np.1, np.2)), elem_of_app. left.
    apply (list_elem_of_fmap_2 (λ np, (prefix +:: np.1, np.2))).
    by apply list_elem_of_In.
  - apply map_ext_in. intros c Hc. f_equal.
    rewrite Forall_forall in IH. apply list_elem_of_In in Hc.
    apply (IH c Hc). intros np Hnp. apply Hfg, elem_of_app. right.
    apply list_elem_of_In, in_concat.
    exists (named_parameters_from (prefix +:: c.1) c.2).
    split; [|by apply list_elem_of_In].
    apply in_map_iff. exists c. split; [done|]. by apply list_elem_of_In.
Qed.

(** ** Parameter names are distinct *)

Lemma well_keyed_node {P} k (ps : list (string * P)) cs :
  well_keyed (Node k ps cs) ↔
  NoDup (ps.*1) ∧ NoDup (cs.*1) ∧ Forall (λ c, well_keyed c.2) cs.
Proof.
  simpl. do 2 (apply and_iff_compat_l).
  induction cs as [|[c child] cs IH]; simpl.
  - split; [constructor|done].
  - rewrite IH, Forall_cons. done.
Qed.

Lemma named_parameters_prefix {P} (m : Module P) :
  ∀ prefix np, np ∈ named_parameters_from prefix m →
    ∃ suffix, np.1 = (prefix ++ suffix)%list ∧ suffix ≠ [].
Proof.
  induction m as [k ps cs IH] using Module_rect'. intros prefix np Hnp.
  rewrite named_parameters_node in Hnp.
  apply elem_of_app in Hnp as [Hown|Hchild].
  - apply list_elem_of_fmap in Hown as (kp & -> & _).
    by exists [kp.1].
  - apply list_elem_of_In, in_concat in Hchild as (names & Hnames & Hin).
    apply in_map_iff in Hnames as (c & <- & Hc).
    apply list_elem_of_In in Hc, Hin.
    rewrite Forall_forall in IH.
    destruct (IH c Hc _ _ Hin) as (suffix & Heq & Hne).
    exists (c.1 :: suffix). split; [|done].
    rewrite Heq. unfold extend. by rewrite <- app_assoc.
Qed.

Lemma child_names_disjoint {P} (prefix : name) (c1 c2 : string * Module P) n :
  c1.1 ≠ c2.1 →
  n ∈ (named_parameters_from (prefix +:: c1.1) c1.2).*1 →
  n ∉ (named_parameters_from (prefix +:: c2.1) c2.2).*1.
Proof.
  intros Hne H1 H2.
  apply list_elem_of_fmap in H1 as (np1 & -> & H1).
  apply list_elem_of_fmap in H2 as (np2 & Heq & H2).
  apply named_parameters_prefix in H1 as (s1 & E1 & _).
  apply named_parameters_prefix in H2 as (s2 & E2 & _).
  assert (((prefix +:: c1.1) ++ s1)%list = ((prefix +:: c2.1) ++ s2)%list)
    as Heq' by (rewrite <- E1, <- E2; exact Heq).
  unfold extend in Heq'. rewrite <- !app_assoc in Heq'.
  apply app_inv_head in Heq'. simpl in Heq'. congruence.
Qed.

Lemma children_names_NoDup {P} (prefix : name) (cs : list (string * Module P)) :
  NoDup (cs.*1) →
  Forall (λ c, NoDup (named_parameters_from (prefix +:: c.1) c.2).*1) cs →
  NoDup (concat (map (λ c, named_parameters_from (prefix +:: c.1) c.2) cs)).*1.
Proof.
  induction cs as [|c cs IH]; intros Hkeys Hall; simpl; [constructor|].
  rewrite fmap_cons in Hkeys. apply NoDup_cons in Hkeys as [Hc Hkeys].
  apply Forall_cons in Hall as [Hhead Hall].
  rewrite fmap_app. apply NoDup_app. split_and!; [done| |by apply IH].
  intros n Hn Hrest.
  apply list_elem_of_fmap in Hrest as (np & -> & Hnp).
  apply list_elem_of_In, in_concat in Hnp as (names & Hnames & Hin).
  apply in_map_iff in Hnames as (c' & <- & Hc').
  apply list_elem_of_In in Hc', Hin.
  eapply (child_names_disjoint prefix c c'); [|exact Hn|].
  - intros Heq. apply Hc. rewrite Heq. by apply list_elem_of_fmap_2.
  - by apply list_elem_of_fmap_2.
Qed.

(** In a module whose keys are distinct at every level, no two
    parameters have the same name. *)
Lemma named_parameters_NoDup {P} (m : Module P) :
  well_keyed m → ∀ prefix, NoDup (named_parameters_from prefix m).*1.
Proof.
  induction m as [k ps cs IH] using Module_rect'. intros Hwk prefix.
  apply well_keyed_node in Hwk as (Hps & Hcs & Hchildren).
  rewrite named_parameters_node, fmap_app. apply NoDup_app. split_and!.
  - rewrite <- list_fmap_compose.
    replace (fst ∘ (λ np : string * P, (prefix +:: np.1, np.2)))
      with ((λ key, prefix +:: key) ∘ (fst : string * P → string))
      by done.
    rewrite list_fmap_compose. apply NoDup_fmap_2; [|done].
    intros x y Heq. unfold extend in Heq.
    apply app_inv_head in Heq. by injection Heq.
  - intros n Hown Hchild.
    apply list_elem_of_fmap in Hown as (np & -> & Hnp).
    apply list_elem_of_fmap in Hnp as (kp & -> & _). simpl in Hchild.
    apply list_elem_of_fmap in Hchild as (np' & Heq & Hnp').
    apply list_elem_of_In, in_concat in Hnp' as (names & Hnames & Hin).
    apply in_map_iff in Hnames as (c & <- & Hc).
    apply list_elem_of_In in Hin.
    apply named_parameters_prefix in Hin as (suffix & E & Hne).
    rewrite E in Heq. unfold extend in Heq. rewrite <- app_assoc in Heq.
    apply app_inv_head in Heq. simpl in Heq. injection Heq as _ Hnil.
    by destruct suffix.
  - apply children_names_NoDup; [done|].
    rewrite Forall_forall in IH, Hchildren. apply Forall_forall.
    intros c Hc. by apply IH, Hchildren.
Qed.

(** ** The modules of the network have distinct keys *)

Lemma indexed_keys_NoDup {P} (ms : list (Module P)) :
  NoDup (imap (λ (i : nat) l, (pretty i, l)) ms).*1.
Proof.
  apply NoDup_alt. intros i j key Hi Hj.
  rewrite list_lookup_fmap, list_lookup_imap in Hi, Hj.
  destruct (ms !! i) as [mi|]; [|done].
  destruct (ms !! j) as [mj|]; [|done].
  simpl in Hi, Hj. injection Hi as <-. injection Hj as Hj.
  by apply (inj pretty) in Hj.
Qed.

Lemma indexed_children_wk {P} (ms : list (Module P)) :
  Forall well_keyed ms →
  Forall (λ c, well_keyed c.2) (imap (λ (i : nat) l, (pretty i, l)) ms).
Proof.
  intros Hall. apply Forall_forall. intros c Hc.
  apply elem_of_lookup_imap_1 in Hc as (i & m & -> & Hm).
  rewrite Forall_forall in Hall. apply Hall.
  by eapply list_elem_of_lookup_2.
Qed.

Lemma sequential_wk {P} (layers : list (Module P)) :
  Forall well_keyed layers → well_keyed (sequential layers).
Proof.
  intros Hall. apply well_keyed_node. split_and!; [constructor| |].
  - apply indexed_keys_NoDup.
  - by apply indexed_children_wk.
Qed.

Lemma module_list_wk {P} (blocks : list (Module P)) :
  Forall well_keyed blocks → well_keyed (module_list blocks).
Proof.
  intros Hall. apply well_keyed_node. split_and!; [constructor| |].
  - apply indexed_keys_NoDup.
  - by apply indexed_children_wk.
Qed.

Lemma leaf_wk {P} k (ps : list (string * P)) :
  NoDup (ps.*1) → well_keyed (Node k ps []).
Proof. intros Hps. apply well_keyed_node. split_and!; [done|constructor..]. Qed.

Ltac distinct_keys := apply (bool_decide_unpack _); by vm_compute.

Lemma Conv2d_wk cin cout k bias m : Conv2d cin cout k bias = Ok m → well_keyed m.
Proof.
  unfold Conv2d. intros Hm. bind_inv Hm as w Hw. destruct bias.
  - bind_inv Hm as b Hb. injection Hm as <-. apply leaf_wk. distinct_keys.
  - injection Hm as <-. apply leaf_wk. distinct_keys.
Qed.

Lemma Linear_wk fin fout bias m : Linear fin fout bias = Ok m → well_keyed m.
Proof.
  unfold Linear. intros Hm. bind_inv Hm as w Hw. destruct bias.
  - bind_inv Hm as b Hb. injection Hm as <-. apply leaf_wk. distinct_keys.
  - injection Hm as <-. apply leaf_wk. distinct_keys.
Qed.

Lemma GroupNorm_wk channels m : GroupNorm channels = Ok m → well_keyed m.
Proof.
  unfold GroupNorm, nn_GroupNorm. intros Hm.
  destruct (_ =? 0); [done|]. destruct (negb _); [done|].
  bind_inv Hm as w Hw. bind_inv Hm as b Hb. injection Hm as <-.
  apply leaf_wk. distinct_keys.
Qed.

Lemma Dropout1d_wk p m : Dropout1d p = Ok m → well_keyed m.
Proof.
  unfold Dropout1d. destruct (valid_probability p); [|done].
  intros [= <-]. apply leaf_wk. constructor.
Qed.

Lemma Dropout2d_wk p m : Dropout2d p = Ok m → well_keyed m.
Proof.
  unfold Dropout2d. destruct (valid_probability p); [|done].
  intros [= <-]. apply leaf_wk. constructor.
Qed.

Lemma SiLU_wk : well_keyed (SiLU : Module pspec).
Proof. apply leaf_wk. constructor. Qed.

Lemma Rearrange_wk pattern axes :
  well_keyed (Rearrange pattern axes : Module pspec).
Proof. apply leaf_wk. constructor. Qed.

Lemma nn_Upsample_wk s : well_keyed (nn_Upsample s : Module pspec).
Proof. apply leaf_wk. constructor. Qed.

Create HintDb wk discriminated.
#[local] Hint Resolve Conv2d_wk Linear_wk GroupNorm_wk Dropout1d_wk
  Dropout2d_wk SiLU_wk Rearrange_wk nn_Upsample_wk sequential_wk
  module_list_wk : wk.
#[local] Hint Constructors Forall : wk.

Ltac children_wk :=
  repeat first [apply List.Forall_nil | apply List.Forall_cons];
  cbn [snd]; eauto 20 with wk.

Ltac block_wk :=
  apply well_keyed_node; split_and!;
  [constructor | distinct_keys | children_wk].

Lemma SelfAttention_wk cin cout heads dropout m :
  SelfAttention cin cout heads dropout = Ok m → well_keyed m.
Proof.
  unfold SelfAttention. intros Hm.
  bind_inv Hm as a1 H1. bind_inv Hm as a2 H2. bind_inv Hm as a3 H3.
  bind_inv Hm as a4 H4. bind_inv Hm as a5 H5. bind_inv Hm as a6 H6.
  injection Hm as <-. block_wk.
Qed.

Lemma UNetBlock_wk cin cout nlc dropout m :
  UNetBlock cin cout nlc dropout = Ok m → well_keyed m.
Proof.
  unfold UNetBlock. intros Hm.
  bind_inv Hm as a1 H1. bind_inv Hm as a2 H2. bind_inv Hm as a3 H3.
  bind_inv Hm as a4 H4. bind_inv Hm as a5 H5. bind_inv Hm as a6 H6.
  bind_inv Hm as a7 H7. bind_inv Hm as a8 H8.
  injection Hm as <-. block_wk.
Qed.

#[local] Hint Resolve SelfAttention_wk UNetBlock_wk : wk.

Lemma UNetBlockWithSelfAttention_wk cin cout nlc heads dropout m :
  UNetBlockWithSelfAttention cin cout nlc heads dropout = Ok m → well_keyed m.
Proof.
  unfold UNetBlockWithSelfAttention. intros Hm.
  bind_inv Hm as a1 H1. bind_inv Hm as a2 H2.
  injection Hm as <-. block_wk.
Qed.

Lemma Downsample_wk channels m : Downsample channels = Ok m → well_keyed m.
Proof.
  unfold Downsample. intros Hm. bind_inv Hm as a1 H1.
  injection Hm as <-. block_wk.
Qed.

Lemma Upsample_wk channels m : Upsample channels = Ok m → well_keyed m.
Proof.
  unfold Upsample. intros Hm. bind_inv Hm as a1 H1.
  injection Hm as <-. block_wk.
Qed.

Lemma NoiseLevelEmbedding_wk channels scale m :
  NoiseLevelEmbedding channels scale = Ok m → well_keyed m.
Proof.
  unfold NoiseLevelEmbedding. intros Hm.
  bind_inv Hm as a1 H1. bind_inv Hm as a2 H2. bind_inv Hm as a3 H3.
  injection Hm as <-.
  apply well_keyed_node; split_and!;
    [distinct_keys | distinct_keys | children_wk].
Qed.

#[local] Hint Resolve UNetBlockWithSelfAttention_wk Downsample_wk Upsample_wk
  NoiseLevelEmbedding_wk : wk.

Lemma encoder_inner_wk n make d idx i o ms :
  makes_wk make → encoder_inner n make d idx i o = Ok ms → Forall well_keyed ms.
Proof.
  intros Hmake. revert i ms. induction n as [|n IH]; intros i ms Hms.
  - injection Hms as <-. constructor.
  - simpl in Hms. bind_inv Hms as p Hp. bind_inv Hms as b Hb.
    bind_inv Hms as rest Hrest. injection Hms as <-.
    constructor; [by eapply Hmake|by eapply IH].
Qed.

Lemma encoder_loop_wk pairs idx n r d make ms :
  makes_wk make → encoder_loop pairs idx n r d make = Ok ms →
  Forall well_keyed ms.
Proof.
  intros Hmake. revert idx ms.
  induction pairs as [|[i o] pairs IH]; intros idx ms Hms.
  - injection Hms as <-. constructor.
  - simpl in Hms. bind_inv Hms as k Hk. bind_inv Hms as inner Hinner.
    bind_inv Hms as res Hres. bind_inv Hms as down Hdown.
    bind_inv Hms as more Hmore. injection Hms as <-.
    rewrite !Forall_app. split_and!.
    + by eapply encoder_inner_wk.
    + destruct res.
      * bind_inv Hdown as ds Hds. injection Hdown as <-.
        constructor; [by eapply Downsample_wk|constructor].
      * injection Hdown as <-. constructor.
    + by eapply IH.
Qed.

Lemma decoder_inner_wk n make d idx i o ms :
  makes_wk make → decoder_inner n make d idx i o = Ok ms → Forall well_keyed ms.
Proof.
  intros Hmake. revert o ms. induction n as [|n IH]; intros o ms Hms.
  - injection Hms as <-. constructor.
  - simpl in Hms. bind_inv Hms as p Hp. bind_inv Hms as b Hb.
    bind_inv Hms as rest Hrest. injection Hms as <-.
    constructor; [by eapply Hmake|by eapply IH].
Qed.

Lemma decoder_loop_wk pairs idx n r d make ms :
  makes_wk make → decoder_loop pairs idx n r d make = Ok ms →
  Forall well_keyed ms.
Proof.
  intros Hmake. revert idx ms.
  induction pairs as [|[o i] pairs IH]; intros idx ms Hms.
  - injection Hms as <-. constructor.
  - simpl in Hms. bind_inv Hms as res Hres. bind_inv Hms as up Hup.
    bind_inv Hms as k Hk. bind_inv Hms as inner Hinner.
    bind_inv Hms as more Hmore. injection Hms as <-.
    rewrite !Forall_app. split_and!.
    + destruct res.
      * bind_inv Hup as us Hus. injection Hup as <-.
        constructor; [by eapply Upsample_wk|constructor].
      * injection Hup as <-. constructor.
    + apply Forall_reverse. by eapply decoder_inner_wk.
    + by eapply IH.
Qed.

(** Every network that [UNet.__init__] builds has distinct keys at every
    level, so its parameter names are distinct. *)
Lemma UNet_modules_wk cfg m : UNet_modules cfg = Ok m → well_keyed m.
Proof.
  unfold UNet_modules. intros Hm.
  bind_inv Hm as top0 Htop. bind_inv Hm as ip Hip.
  bind_inv Hm as nle Hnle. bind_inv Hm as tch Htch.
  bind_inv Hm as te Hte. bind_inv Hm as mch Hmch.
  bind_inv Hm as me Hme. bind_inv Hm as md Hmd.
  bind_inv Hm as td Htd. bind_inv Hm as op Hop.
  injection Hm as <-.
  assert (makes_wk (_make_top_block cfg)) as Htopwk
    by (intros i o d b; apply UNetBlock_wk).
  assert (makes_wk (_make_mid_block cfg)) as Hmidwk
    by (intros i o d b; apply UNetBlockWithSelfAttention_wk).
  unfold _make_encoder_blocks in Hte, Hme.
  unfold _make_decoder_blocks in Hmd, Htd.
  bind_inv Hte as teb Hteb. injection Hte as <-.
  bind_inv Hme as meb Hmeb. injection Hme as <-.
  bind_inv Hmd as mdb Hmdb. injection Hmd as <-.
  bind_inv Htd as tdb Htdb. injection Htd as <-.
  apply encoder_loop_wk in Hteb, Hmeb; try done.
  apply decoder_loop_wk in Hmdb, Htdb; try done.
  apply well_keyed_node; split_and!;
    [constructor | distinct_keys | children_wk].
Qed.

Lemma UNet_names_NoDup cfg m :
  UNet_modules cfg = Ok m → NoDup (named_parameters m).*1.
Proof.
  intros Hm. by apply named_parameters_NoDup, (UNet_modules_wk cfg).
Qed.

(** ** The configuration through JSON *)

Lemma mapM_decode {A} (enc : A → json) (dec : json → result A) (l : list A) :
  (∀ a, dec (enc a) = Ok a) → mapM dec (map enc l) = Ok l.
Proof.
  intros Hdec. induction l as [|a l IH]; [done|].
  simpl. rewrite Hdec. simpl. by rewrite IH.
Qed.

Lemma as_list_encode {A} (enc : A → json) (dec : json → result A) (s : pyseq A) :
  (∀ a, dec (enc a) = Ok a) →
  as_list dec (json_of_seq enc s) = Ok (mkSeq List (items s)).
Proof.
  intros Hdec. unfold as_list, json_of_seq. by rewrite mapM_decode.
Qed.

#[local] Arguments json_of_seq : simpl never.
#[local] Arguments as_list : simpl never.

(** Saving and reading the configuration keeps every value and turns the
    tuples into lists. *)
Lemma config_json_round_trip (c : UNetConfig) :
  config_of_json (config_to_json c) = Ok (as_lists c).
Proof.
  unfold config_of_json, config_to_json.
  match goal with
  | |- (if ?b then _ else _) = _ =>
      replace b with true by (vm_compute; reflexivity)
  end.
  unfold field. simpl.
  rewrite !(as_list_encode JInt as_int) by done.
  rewrite !(as_list_encode JBool truth) by done.
  rewrite !(as_list_encode JFloat as_float) by done.
  reflexivity.
Qed.

(** The construction reads the sequences of the configuration through
    their items only. *)
Lemma encoder_inner_items n make (d d' : pyseq Q) idx i o :
  items d = items d' →
  encoder_inner n make d idx i o = encoder_inner n make d' idx i o.
Proof.
  intros Hd. revert i. induction n as [|n IH]; intros i; [done|].
  simpl. unfold seq_index. rewrite Hd.
  destruct (Py.index (items d') idx); [|done]. simpl.
  destruct (make i o a); [|done]. simpl. by rewrite IH.
Qed.

Lemma encoder_loop_items pairs idx (n n' : pyseq Z) (r r' : pyseq bool)
    (d d' : pyseq Q) make :
  items n = items n' → items r = items r' → items d = items d' →
  encoder_loop pairs idx n r d make = encoder_loop pairs idx n' r' d' make.
Proof.
  intros Hn Hr Hd. revert idx.
  induction pairs as [|[i o] pairs IH]; intros idx; [done|].
  simpl. unfold seq_index. rewrite Hn, Hr.
  destruct (Py.index (items n') idx); [|done]. simpl.
  rewrite (encoder_inner_items _ _ d d') by done.
  destruct (encoder_inner _ _ _ _ _ _); [|done]. simpl.
  destruct (Py.index (items r') idx); [|done]. simpl.
  destruct (if a1 then _ else _); [|done]. simpl.
  by rewrite IH.
Qed.

Lemma decoder_inner_items n make (d d' : pyseq Q) idx i o :
  items d = items d' →
  decoder_inner n make d idx i o = decoder_inner n make d' idx i o.
Proof.
  intros Hd. revert o. induction n as [|n IH]; intros o; [done|].
  simpl. unfold seq_index, seq_reversed. simpl. rewrite Hd.
  destruct (Py.index (reverse (items d')) idx); [|done]. simpl.
  destruct (make (i * 2) o a); [|done]. simpl. by rewrite IH.
Qed.

Lemma decoder_loop_items pairs idx (n n' : pyseq Z) (r r' : pyseq bool)
    (d d' : pyseq Q) make :
  items n = items n' → items r = items r' → items d = items d' →
  decoder_loop pairs idx n r d make = decoder_loop pairs idx n' r' d' make.
Proof.
  intros Hn Hr Hd. revert idx.
  induction pairs as [|[o i] pairs IH]; intros idx; [done|].
  simpl. unfold seq_index, seq_reversed. simpl. rewrite Hn, Hr.
  destruct (Py.index (reverse (items r')) idx); [|done]. simpl.
  destruct (if a then _ else _); [|done]. simpl.
  destruct (Py.index (reverse (items n')) idx); [|done]. simpl.
  rewrite (decoder_inner_items _ _ d d') by done.
  destruct (decoder_inner _ _ _ _ _ _); [|done]. simpl.
  by rewrite IH.
Qed.

Lemma make_encoder_blocks_items (ch ch' n n' : pyseq Z) (r r' : pyseq bool)
    (d d' : pyseq Q) make :
  items ch = items ch' → items n = items n' → items r = items r' →
  items d = items d' →
  _make_encoder_blocks ch n r d make = _make_encoder_blocks ch' n' r' d' make.
Proof.
  intros Hch Hn Hr Hd. unfold _make_encoder_blocks, channel_pairs. simpl.
  rewrite Hch. by rewrite (encoder_loop_items _ _ n n' r r' d d').
Qed.

Lemma make_decoder_blocks_items (ch ch' n n' : pyseq Z) (r r' : pyseq bool)
    (d d' : pyseq Q) make :
  items ch = items ch' → items n = items n' → items r = items r' →
  items d = items d' →
  _make_decoder_blocks ch n r d make = _make_decoder_blocks ch' n' r' d' make.
Proof.
  intros Hch Hn Hr Hd. unfold _make_decoder_blocks, channel_pairs. simpl.
  rewrite Hch. by rewrite (decoder_loop_items _ _ n n' r r' d d').
Qed.

Lemma seq_add_items {A} (a b c : pyseq A) :
  seq_add a b = Ok c → items c = (items a ++ items b)%list.
Proof. unfold seq_add. case_decide; [|done]. by intros [= <-]. Qed.

(** A network that can be built from a configuration is built, module for
    module, from the configuration with lists for tuples. *)
Lemma UNet_modules_as_lists (c : UNetConfig) (m : Module pspec) :
  UNet_modules c = Ok m → UNet_modules (as_lists c) = Ok m.
Proof.
  unfold UNet_modules. intros Hm. architecture_steps.
  bind_inv Hm as top0 Htop. bind_inv Hm as ip Hip.
  bind_inv Hm as nle Hnle. bind_inv Hm as tch Htch.
  bind_inv Hm as te Hte. bind_inv Hm as mch Hmch.
  bind_inv Hm as me Hme. bind_inv Hm as md Hmd.
  bind_inv Hm as td Htd. bind_inv Hm as op Hop.
  apply seq_add_items in Htch, Hmch.
  simpl. unfold seq_index in *. simpl. rewrite Htop. simpl.
  rewrite Hip. simpl. rewrite Hnle. simpl.
  change (_make_top_block (as_lists c)) with (_make_top_block c).
  change (_make_mid_block (as_lists c)) with (_make_mid_block c).
  simpl in Htch, Hmch.
  rewrite (make_encoder_blocks_items _ tch _ (top_blocks_n_blocks_per_resolution c)
             _ (top_blocks_has_resampling c) _ (top_blocks_dropout c)
             (_make_top_block c))
    by (simpl; congruence).
  rewrite Hte. simpl.
  rewrite (make_encoder_blocks_items _ mch _ (mid_blocks_n_blocks_per_resolution c)
             _ (mid_blocks_has_resampling c) _ (mid_blocks_dropout c)
             (_make_mid_block c))
    by (simpl; congruence).
  rewrite Hme. simpl.
  rewrite (make_decoder_blocks_items _ mch _ (mid_blocks_n_blocks_per_resolution c)
             _ (mid_blocks_has_resampling c) _ (mid_blocks_dropout c)
             (_make_mid_block c))
    by (simpl; congruence).
  rewrite Hmd. simpl.
  rewrite (make_decoder_blocks_items _ tch _ (top_blocks_n_blocks_per_resolution c)
             _ (top_blocks_has_resampling c) _ (top_blocks_dropout c)
             (_make_top_block c))
    by (simpl; congruence).
  rewrite Htd. simpl.
  by rewrite Hop.
Qed.

(** ** Writes to the parameter store *)

Lemma cells_rel_refl R s :
  (∀ key c, R key c c) → cells_rel R s s.
Proof.
  intros Hrefl. split; [done|]. intros key.
  destruct (cells s !! key); by constructor.
Qed.

Lemma cells_rel_trans R s1 s2 s3 :
  (∀ key c1 c2 c3, R key c1 c2 → R key c2 c3 → R key c1 c3) →
  cells_rel R s1 s2 → cells_rel R s2 s3 → cells_rel R s1 s3.
Proof.
  intros Htrans [(?&?&?&?) H12] [(?&?&?&?) H23].
  split; [repeat split; congruence|]. intros key.
  specialize (H12 key). specialize (H23 key).
  destruct H12; inversion H23; subst; constructor. eauto.
Qed.

Lemma alter_cell_rel R key f s r s' :
  (∀ k c, R k c c) → (∀ c, R key c (f c)) →
  alter_cell key f s = (r, s') → r = Ok tt ∧ cells_rel R s s'.
Proof.
  intros Hrefl Hf Hrun. injection Hrun as <- <-. split; [done|].
  split; [done|]. intros k. simpl. rewrite lookup_alter.
  case_decide as Hk.
  - subst. destruct (cells s !! k); constructor. apply Hf.
  - destruct (cells s !! k); by constructor.
Qed.

(** A loop of in-place updates: each pass rewrites the cell under its key. *)
Lemma alter_loop_rel {A} (body : A → T unit) (k : A → positive * name)
    (R : positive * name → cell → cell → Prop) (l : list A) :
  (∀ key c, R key c c) →
  (∀ key c1 c2 c3, R key c1 c2 → R key c2 c3 → R key c1 c3) →
  (∀ x s, x ∈ l →
     body x s = (Ok tt, s) ∨
     ∃ f, body x s = alter_cell (k x) f s ∧ ∀ c, R (k x) c (f c)) →
  ∀ s, ∃ s', for_each body l s = (Ok tt, s') ∧ cells_rel R s s'.
Proof.
  intros Hrefl Htrans Hbody s.
  destruct (for_each_total body l) with (s := s) as [s' Hrun].
  { intros x s1 Hx. destruct (Hbody x s1 Hx) as [Hskip|(f & Hf & _)].
    - by exists s1.
    - rewrite Hf. by eexists. }
  exists s'. split; [done|].
  refine (for_each_rel body (cells_rel R) l _ _ _ s _ s' Hrun).
  - intros s1. by apply cells_rel_refl.
  - intros s1 s2 s3. by apply cells_rel_trans.
  - intros x s1 r1 s1' Hx Hone.
    destruct (Hbody x s1 Hx) as [Hskip|(f & Hf & HR)].
    + rewrite Hskip in Hone. injection Hone as _ <-. by apply cells_rel_refl.
    + rewrite Hf in Hone. by apply (alter_cell_rel R _ _ _ _ _ Hrefl HR) in Hone as [_ ?].
Qed.

(** What the last update of a cell establishes holds at the end. *)
Lemma alter_loop_post {A} (body : A → T unit) (k : A → positive * name)
    (f : A → cell → cell) (Q : positive * name → cell → Prop) (l : list A) :
  (∀ x s, x ∈ l → body x s = alter_cell (k x) (f x) s) →
  (∀ x c, x ∈ l → Q (k x) (f x c)) →
  ∀ s s', for_each body l s = (Ok tt, s') →
  ∀ key c', (key ∈ k <$> l ∨ ∀ c, cells s !! key = Some c → Q key c) →
            cells s' !! key = Some c' → Q key c'.
Proof.
  induction l as [|x l IH]; intros Hbody HQ s s' Hrun key c' Hkey Hc'.
  - injection Hrun as <-. destruct Hkey as [Hin|Hs]; [|by apply Hs].
    by apply elem_of_nil in Hin.
  - simpl in Hrun. rewrite T_bind_unfold in Hrun.
    rewrite (Hbody x s) in Hrun by (apply elem_of_cons; by left).
    simpl in Hrun.
    eapply (IH (λ y s1 Hy, Hbody y s1 ltac:(apply elem_of_cons; by right))
               (λ y c Hy, HQ y c ltac:(apply elem_of_cons; by right))
               _ _ Hrun key c'); [|done].
    simpl. destruct (decide (key = k x)) as [->|Hne].
    + right. intros c. rewrite lookup_alter_eq.
      destruct (cells s !! k x) as [c0|]; [|done].
      intros [= <-]. apply HQ, elem_of_cons. by left.
    + destruct Hkey as [Hin|Hs].
      * left. rewrite fmap_cons in Hin.
        apply elem_of_cons in Hin as [?|?]; [congruence|done].
      * right. intros c. rewrite lookup_alter_ne by congruence. apply Hs.
Qed.

(** ** The two readings of a constructor

    Read with the generator, a constructor ends as it does read for the
    architecture alone, and the tree it returns has that architecture. *)

Lemma sim_ret {A B} (f : A → B) (a : A) (b : B) :
  f a = b → simulates f (mret a) (mret b).
Proof. intros <- g. reflexivity. Qed.

Lemma sim_of_result {A} (r : result A) :
  simulates id (of_result r) (of_result r).
Proof. intros g. simpl. by destruct r. Qed.

Lemma sim_raise {A B} (f : A → B) (e : exn) :
  simulates f (of_result (Raise e)) (of_result (Raise e)).
Proof. intros g. reflexivity. Qed.

Lemma sim_bind {A A' B B'} (f : A → A') (h : B → B')
    (X : G A) (Y : result A') (K : A → G B) (K' : A' → result B') :
  simulates f X Y → (∀ a, simulates h (K a) (K' (f a))) →
  simulates h (X ≫= K) (Y ≫= K').
Proof.
  intros HX HK g. specialize (HX g).
  unfold mbind at 1, G_mbind, G_bind.
  destruct (X g) as [[a|e] g1]; simpl in HX; subst Y; [apply HK|done].
Qed.

Lemma sim_new_param i sh requires_grad :
  simulates spec_of (new_param i sh requires_grad)
            (new_param i sh requires_grad).
Proof.
  intros g. simpl. destruct (forallb _ sh); [|done].
  destruct i; reflexivity.
Qed.

Lemma mapn_prefix {P R} (f : P → R) (m : Module P) :
  ∀ prefix prefix', mapn (λ _, f) prefix m = mapn (λ _, f) prefix' m.
Proof.
  induction m as [k ps cs IH] using Module_rect'. intros prefix prefix'.
  rewrite !mapn_node. f_equal.
  apply map_ext_in. intros c Hc. f_equal.
  rewrite Forall_forall in IH. apply list_elem_of_In in Hc.
  by apply (IH c Hc).
Qed.

Lemma architecture_of_node k ps cs :
  architecture_of (Node k ps cs) =
  Node k (map (λ np, (np.1, spec_of np.2)) ps)
         (map (λ c, (c.1, architecture_of c.2)) cs).
Proof.
  unfold architecture_of. rewrite mapn_node. f_equal.
  apply map_ext. intros c. f_equal. apply mapn_prefix.
Qed.

Lemma architecture_of_indexed (layers : list (Module cell)) :
  map (λ c : string * Module cell, (c.1, architecture_of c.2))
      (imap (λ i l, (pretty i, l)) layers) =
  imap (λ i l, (pretty i, l)) (architecture_of <$> layers).
Proof.
  change (map ?f ?l) with (f <$> l).
  rewrite fmap_imap, imap_fmap. by apply imap_ext.
Qed.

Lemma architecture_of_sequential layers :
  architecture_of (sequential layers) = sequential (architecture_of <$> layers).
Proof.
  unfold sequential. rewrite architecture_of_node. f_equal.
  apply architecture_of_indexed.
Qed.

Lemma architecture_of_module_list blocks :
  architecture_of (module_list blocks) =
  module_list (architecture_of <$> blocks).
Proof.
  unfold module_list. rewrite architecture_of_node. f_equal.
  apply architecture_of_indexed.
Qed.

(** The names and the parameters of a constructed tree are those of its
    architecture. *)
Lemma named_parameters_mapn {P R} (f : P → R) (m : Module P) :
  ∀ prefix,
    named_parameters_from prefix (mapn (λ _, f) prefix m) =
    map (λ np, (np.1, f np.2)) (named_parameters_from prefix m).
Proof.
  induction m as [k ps cs IH] using Module_rect'. intros prefix.
  rewrite mapn_node, !named_parameters_node, map_app. f_equal.
  - rewrite !map_map. done.
  - rewrite map_map. simpl. rewrite concat_map, map_map. f_equal.
    apply map_ext_in. intros c Hc.
    rewrite Forall_forall in IH. apply list_elem_of_In in Hc.
    by apply (IH c Hc).
Qed.

Lemma named_parameters_architecture built :
  named_parameters (architecture_of built) =
  map (λ nc, (nc.1, spec_of nc.2)) (named_parameters built).
Proof. apply named_parameters_mapn. Qed.

Ltac sim_tree :=
  rewrite ?architecture_of_node; cbn [map fst snd];
  rewrite ?architecture_of_sequential; reflexivity.

Ltac sim_steps :=
  repeat first
    [ apply sim_of_result
    | apply sim_raise
    | apply sim_new_param
    | apply sim_ret; sim_tree
    | eapply sim_bind; [|intros ?] ].

Lemma Conv2d_sim cin cout k bias :
  simulates architecture_of (Conv2d cin cout k bias) (Conv2d cin cout k bias).
Proof. unfold Conv2d. destruct bias; sim_steps. Qed.

Lemma Linear_sim fin fout bias :
  simulates architecture_of (Linear fin fout bias) (Linear fin fout bias).
Proof. unfold Linear. destruct bias; sim_steps. Qed.

Lemma GroupNorm_sim channels :
  simulates architecture_of (GroupNorm channels) (GroupNorm channels).
Proof.
  unfold GroupNorm, nn_GroupNorm.
  destruct (_ =? 0); [sim_steps|]. destruct (negb _); sim_steps.
Qed.

Lemma Dropout1d_sim p :
  simulates architecture_of (Dropout1d p) (Dropout1d p).
Proof. unfold Dropout1d. destruct (valid_probability p); sim_steps. Qed.

Lemma Dropout2d_sim p :
  simulates architecture_of (Dropout2d p) (Dropout2d p).
Proof. unfold Dropout2d. destruct (valid_probability p); sim_steps. Qed.

Ltac sim_layers :=
  repeat first
    [ apply Conv2d_sim | apply Linear_sim | apply GroupNorm_sim
    | apply Dropout1d_sim | apply Dropout2d_sim
    | apply sim_of_result
    | apply sim_raise
    | apply sim_new_param
    | apply sim_ret; sim_tree
    | eapply sim_bind; [|intros ?] ].

Lemma SelfAttention_sim cin cout heads dropout :
  simulates architecture_of (SelfAttention cin cout heads dropout)
            (SelfAttention cin cout heads dropout).
Proof. unfold SelfAttention. sim_layers. Qed.

Lemma UNetBlock_sim cin cout nlc dropout :
  simulates architecture_of (UNetBlock cin cout nlc dropout)
            (UNetBlock cin cout nlc dropout).
Proof. unfold UNetBlock. sim_layers. Qed.

Lemma UNetBlockWithSelfAttention_sim cin cout nlc heads dropout :
  simulates architecture_of
            (UNetBlockWithSelfAttention cin cout nlc heads dropout)
            (UNetBlockWithSelfAttention cin cout nlc heads dropout).
Proof.
  unfold UNetBlockWithSelfAttention.
  eapply sim_bind; [apply UNetBlock_sim|intros block].
  eapply sim_bind; [apply SelfAttention_sim|intros attention].
  apply sim_ret. sim_tree.
Qed.

Lemma Downsample_sim channels :
  simulates architecture_of (Downsample channels) (Downsample channels).
Proof. unfold Downsample. sim_layers. Qed.

Lemma Upsample_sim channels :
  simulates architecture_of (Upsample channels) (Upsample channels).
Proof. unfold Upsample. sim_layers. Qed.

Lemma NoiseLevelEmbedding_sim channels scale :
  simulates architecture_of (NoiseLevelEmbedding channels scale)
            (NoiseLevelEmbedding channels scale).
Proof. unfold NoiseLevelEmbedding. sim_layers. Qed.

Section LoopsSim.
Context (make : block_fn G cell) (make' : block_fn result pspec).
Hypothesis make_sim :
  ∀ i o d, simulates architecture_of (make i o d) (make' i o d).

Lemma encoder_inner_sim n dropout idx i o :
  simulates (fmap architecture_of) (encoder_inner n make dropout idx i o)
            (encoder_inner n make' dropout idx i o).
Proof.
  revert i. induction n as [|n IH]; intros i; cbn [encoder_inner].
  - by apply sim_ret.
  - eapply sim_bind; [apply sim_of_result|intros d].
    eapply sim_bind; [apply make_sim|intros b].
    eapply sim_bind; [apply IH|intros rest].
    by apply sim_ret.
Qed.

Lemma encoder_loop_sim pairs idx n r d :
  simulates (fmap architecture_of) (encoder_loop pairs idx n r d make)
            (encoder_loop pairs idx n r d make').
Proof.
  revert idx. induction pairs as [|[i o] pairs IH]; intros idx;
    cbn [encoder_loop].
  - by apply sim_ret.
  - eapply sim_bind; [apply sim_of_result|intros count].
    eapply sim_bind; [apply encoder_inner_sim|intros inner].
    eapply sim_bind; [apply sim_of_result|intros flag].
    eapply sim_bind.
    { instantiate (1 := fmap architecture_of). destruct flag.
      - eapply sim_bind; [apply Downsample_sim|intros down].
        by apply sim_ret.
      - by apply sim_ret. }
    intros down.
    eapply sim_bind; [apply IH|intros more].
    apply sim_ret. by rewrite !fmap_app.
Qed.

Lemma make_encoder_blocks_sim ch n r d :
  simulates architecture_of (_make_encoder_blocks ch n r d make)
            (_make_encoder_blocks ch n r d make').
Proof.
  unfold _make_encoder_blocks.
  eapply sim_bind; [apply encoder_loop_sim|intros blocks].
  apply sim_ret. apply architecture_of_module_list.
Qed.

Lemma decoder_inner_sim n dropout idx i o :
  simulates (fmap architecture_of) (decoder_inner n make dropout idx i o)
            (decoder_inner n make' dropout idx i o).
Proof.
  revert o. induction n as [|n IH]; intros o; cbn [decoder_inner].
  - by apply sim_ret.
  - eapply sim_bind; [apply sim_of_result|intros d].
    eapply sim_bind; [apply make_sim|intros b].
    eapply sim_bind; [apply IH|intros rest].
    by apply sim_ret.
Qed.

Lemma decoder_loop_sim pairs idx n r d :
  simulates (fmap architecture_of) (decoder_loop pairs idx n r d make)
            (decoder_loop pairs idx n r d make').
Proof.
  revert idx. induction pairs as [|[o i] pairs IH]; intros idx;
    cbn [decoder_loop].
  - by apply sim_ret.
  - eapply sim_bind; [apply sim_of_result|intros flag].
    eapply sim_bind.
    { instantiate (1 := fmap architecture_of). destruct flag.
      - eapply sim_bind; [apply Upsample_sim|intros up].
        by apply sim_ret.
      - by apply sim_ret. }
    intros up.
    eapply sim_bind; [apply sim_of_result|intros count].
    eapply sim_bind; [apply decoder_inner_sim|intros inner].
    eapply sim_bind; [apply IH|intros more].
    apply sim_ret. by rewrite !fmap_app, fmap_reverse.
Qed.

Lemma make_decoder_blocks_sim ch n r d :
  simulates architecture_of (_make_decoder_blocks ch n r d make)
            (_make_decoder_blocks ch n r d make').
Proof.
  unfold _make_decoder_blocks.
  eapply sim_bind; [apply decoder_loop_sim|intros blocks].
  apply sim_ret. apply architecture_of_module_list.
Qed.

End LoopsSim.

Lemma UNet_modules_sim config :
  simulates architecture_of (UNet_modules config) (UNet_modules config).
Proof.
  assert (∀ i o d, simulates architecture_of (_make_top_block config i o d)
                             (_make_top_block config i o d)) as Htop
    by (intros; apply UNetBlock_sim).
  assert (∀ i o d, simulates architecture_of (_make_mid_block config i o d)
                             (_make_mid_block config i o d)) as Hmid
    by (intros; apply UNetBlockWithSelfAttention_sim).
  unfold UNet_modules.
  eapply sim_bind; [apply sim_of_result|intros top0].
  eapply sim_bind; [apply Conv2d_sim|intros ip].
  eapply sim_bind; [apply NoiseLevelEmbedding_sim|intros nle].
  eapply sim_bind; [apply sim_of_result|intros tch].
  eapply sim_bind; [by apply make_encoder_blocks_sim|intros te].
  eapply sim_bind; [apply sim_of_result|intros mch].
  eapply sim_bind; [by apply make_encoder_blocks_sim|intros me].
  eapply sim_bind; [by apply make_decoder_blocks_sim|intros md].
  eapply sim_bind; [by apply make_decoder_blocks_sim|intros td].
  eapply sim_bind; [apply Conv2d_sim|intros op].
  apply sim_ret. sim_tree.
Qed.

(** ** Construction of a network object *)

(** The constructor run on the state: only the generator moves. *)
Lemma in_gen_inv {A} (m : G A) (s s' : State) (r : result A) :
  in_gen m s = (r, s') →
  ∃ g, m (gen s) = (r, g) ∧
       s' = mkState (cells s) (next_id s) g (files s) (trace s).
Proof.
  unfold in_gen. destruct (m (gen s)) as [r0 g]. intros [= <- <-].
  by exists g.
Qed.

Lemma UNet_modules_built config g built g' :
  UNet_modules (F := G) config g = (Ok built, g') →
  UNet_modules config = Ok (architecture_of built).
Proof.
  intros Hrun. pose proof (UNet_modules_sim config g) as Hsim.
  rewrite Hrun in Hsim. by symmetry.
Qed.

Lemma UNet_modules_refused config g e g' :
  UNet_modules (F := G) config g = (Raise e, g') → UNet_modules config = Raise e.
Proof.
  intros Hrun. pose proof (UNet_modules_sim config g) as Hsim.
  rewrite Hrun in Hsim. by symmetry.
Qed.

Lemma UNet_modules_runs config m g :
  UNet_modules config = Ok m →
  ∃ built g', UNet_modules (F := G) config g = (Ok built, g') ∧
              architecture_of built = m.
Proof.
  intros Hm. pose proof (UNet_modules_sim config g) as Hsim.
  destruct (UNet_modules (F := G) config g) as [[built|e] g'].
  - exists built, g'. split; [done|]. simpl in Hsim. congruence.
  - simpl in Hsim. congruence.
Qed.

Lemma init_loop (id : positive) (l : list (name * cell)) (s : State) :
  ∃ s', for_each (register id) l s = (Ok tt, s') ∧
        next_id s' = next_id s ∧ files s' = files s ∧ trace s' = trace s ∧
        gen s' = gen s ∧
        (∀ key, key.1 ≠ id → cells s' !! key = cells s !! key) ∧
        (∀ key, is_Some (cells s !! key) → is_Some (cells s' !! key)) ∧
        (∀ nc, nc ∈ l → is_Some (cells s' !! (id, nc.1))).
Proof.
  revert s. induction l as [|x l IH]; intros s.
  - exists s. split_and!; try done. intros np Hnp. by apply elem_of_nil in Hnp.
  - pose (s1 := (register id x s).2).
    assert (register id x s = (Ok tt, s1)) as Hx by reflexivity.
    assert (next_id s1 = next_id s ∧ files s1 = files s ∧ trace s1 = trace s ∧
            gen s1 = gen s ∧ cells s1 = <[(id, x.1) := x.2]> (cells s))
      as (Hn1 & Hf1 & Ht1 & Hg1 & Hc1) by done.
    destruct (IH s1) as (s' & Hrun & Hn & Hf & Ht & Hg & Hframe & Hkeep & Hnew).
    exists s'. split_and!; try congruence.
    + simpl. by rewrite T_bind_unfold, Hx.
    + intros key Hkey. rewrite Hframe by done. rewrite Hc1.
      apply lookup_insert_ne. intros <-. done.
    + intros key Hkey. apply Hkeep. rewrite Hc1.
      destruct (decide ((id, x.1) = key)) as [<-|Hne].
      * rewrite lookup_insert_eq. by eexists.
      * by rewrite lookup_insert_ne.
    + intros np Hnp. apply elem_of_cons in Hnp as [->|Hnp]; [|by apply Hnew].
      apply Hkeep. rewrite Hc1, lookup_insert_eq. by eexists.
Qed.

Lemma UNet_init_unfold config (s : State) :
  UNet_init config s =
  match UNet_modules (F := G) config (gen s) with
  | (Ok built, g) =>
      match for_each (register (next_id s)) (named_parameters built)
                     (mkState (cells s) (Pos.succ (next_id s)) g (files s)
                              (trace s)) with
      | (Ok _, s2) =>
          (Ok (mkUNet (next_id s) config (architecture_of built) true), s2)
      | (Raise e, s2) => (Raise e, s2)
      end
  | (Raise e, g) =>
      (Raise e, mkState (cells s) (next_id s) g (files s) (trace s))
  end.
Proof.
  unfold UNet_init. rewrite T_bind_unfold. unfold in_gen at 1.
  destruct (UNet_modules (F := G) config (gen s)) as [[built|e] g]; [|done].
  rewrite T_bind_unfold. unfold fresh_id at 1. cbn [cells next_id gen files trace].
  rewrite T_bind_unfold.
  by destruct (for_each _ _ _) as [[[]|e] s2].
Qed.

Lemma UNet_init_Ok config (s s' : State) (net : UNet) :
  UNet_init config s = (Ok net, s') →
  UNet_modules config = Ok (unet_modules net) ∧
  unet_id net = next_id s ∧ unet_config net = config ∧
  unet_training net = true ∧
  next_id s' = Pos.succ (next_id s) ∧ files s' = files s ∧
  trace s' = trace s ∧
  (∀ key, key.1 ≠ unet_id net → cells s' !! key = cells s !! key) ∧
  (∀ key, is_Some (cells s !! key) → is_Some (cells s' !! key)) ∧
  (∀ np, np ∈ named_parameters (unet_modules net) →
         is_Some (cells s' !! (unet_id net, np.1))).
Proof.
  rewrite UNet_init_unfold.
  destruct (UNet_modules (F := G) config (gen s)) as [[built|e] g] eqn:Hbuilt; [|done].
  destruct (init_loop (next_id s) (named_parameters built)
              (mkState (cells s) (Pos.succ (next_id s)) g (files s) (trace s)))
    as (s1 & Hrun & Hn & Hf & Ht & _ & Hframe & Hkeep & Hnew).
  rewrite Hrun. intros [= <- <-]. simpl in *.
  split_and!; try done.
  - by eapply UNet_modules_built.
  - intros np Hnp. rewrite named_parameters_architecture in Hnp.
    apply list_elem_of_fmap in Hnp as (nc & -> & Hnc). by apply Hnew.
Qed.

Lemma UNet_init_Raise config (s s' : State) e :
  UNet_init config s = (Raise e, s') → UNet_modules config = Raise e.
Proof.
  rewrite UNet_init_unfold.
  destruct (UNet_modules (F := G) config (gen s)) as [[built|e0] g] eqn:Hbuilt.
  - destruct (init_loop (next_id s) (named_parameters built)
                (mkState (cells s) (Pos.succ (next_id s)) g (files s) (trace s)))
      as (s1 & Hrun & _).
    by rewrite Hrun.
  - intros [= <- _]. by eapply UNet_modules_refused.
Qed.

(** A construction that raises leaves no network behind: the parameters
    in the store, the files and the trace are as they were, and the next
    identity too; the generator has moved for the layers that were
    constructed before the exception. *)
Lemma UNet_init_refused config (s s' : State) e :
  UNet_init config s = (Raise e, s') →
  ∃ built_upto, UNet_modules (F := G) config (gen s) = (Raise e, built_upto) ∧
    s' = mkState (cells s) (next_id s) built_upto (files s) (trace s).
Proof.
  rewrite UNet_init_unfold.
  destruct (UNet_modules (F := G) config (gen s)) as [[built|e0] g] eqn:Hbuilt.
  - destruct (init_loop (next_id s) (named_parameters built)
                (mkState (cells s) (Pos.succ (next_id s)) g (files s) (trace s)))
      as (s1 & Hrun & _).
    by rewrite Hrun.
  - intros [= <- <-]. by exists g.
Qed.

Lemma init_loop_cells (id : positive) (l : list (name * cell)) (s : State) :
  NoDup (l.*1) →
  ∃ s', for_each (register id) l s = (Ok tt, s') ∧
        (∀ n, n ∉ l.*1 → cells s' !! (id, n) = cells s !! (id, n)) ∧
        (∀ nc, nc ∈ l → cells s' !! (id, nc.1) = Some nc.2).
Proof.
  revert s. induction l as [|x l IH]; intros s Hnd.
  - exists s. split_and!; try done. intros np Hnp. by apply elem_of_nil in Hnp.
  - rewrite fmap_cons in Hnd. apply NoDup_cons in Hnd as [Hx Hnd].
    pose (s1 := (register id x s).2).
    assert (register id x s = (Ok tt, s1)) as Hrun1 by reflexivity.
    assert (cells s1 = <[(id, x.1) := x.2]> (cells s)) as Hc1 by done.
    destruct (IH s1 Hnd) as (s' & Hrun & Hframe & Hnew).
    exists s'. split_and!.
    + simpl. by rewrite T_bind_unfold, Hrun1.
    + intros n Hn. rewrite fmap_cons in Hn.
      apply not_elem_of_cons in Hn as [Hne Hn].
      rewrite (Hframe n Hn), Hc1. apply lookup_insert_ne. congruence.
    + intros np Hnp. apply elem_of_cons in Hnp as [->|Hnp]; [|by apply Hnew].
      by rewrite (Hframe _ Hx), Hc1, lookup_insert_eq.
Qed.

(** A network object just constructed has every parameter in the store,
    with the shape and the [requires_grad] of its architecture. *)
Lemma UNet_init_stored config (s s' : State) (net : UNet) :
  UNet_init config s = (Ok net, s') →
  stored s' net ∧
  ∀ np, np ∈ named_parameters (unet_modules net) →
    requires_grad <$> cells s' !! (unet_id net, np.1)
      = Some (p_requires_grad np.2).
Proof.
  rewrite UNet_init_unfold.
  destruct (UNet_modules (F := G) config (gen s)) as [[built|e] g] eqn:Hbuilt; [|done].
  assert (NoDup (named_parameters built).*1) as Hnd.
  { pose proof (UNet_names_NoDup _ _ (UNet_modules_built _ _ _ _ Hbuilt))
      as Hnd.
    rewrite named_parameters_architecture in Hnd.
    change (map ?f ?l) with (f <$> l) in Hnd.
    by rewrite <- list_fmap_compose in Hnd. }
  destruct (init_loop_cells (next_id s) (named_parameters built)
              (mkState (cells s) (Pos.succ (next_id s)) g (files s) (trace s))
              Hnd)
    as (s1 & Hrun & _ & Hnew).
  rewrite Hrun. intros [= <- <-]. unfold stored.
  cbn [unet_modules unet_id]. split.
  - intros np Hnp. rewrite named_parameters_architecture in Hnp.
    apply list_elem_of_fmap in Hnp as (nc & -> & Hnc).
    exists nc.2. split; [by apply Hnew|done].
  - intros np Hnp. rewrite named_parameters_architecture in Hnp.
    apply list_elem_of_fmap in Hnp as (nc & -> & Hnc).
    cbn [fst snd]. by rewrite (Hnew nc Hnc).
Qed.

(** ** load_state_dict *)

Lemma writes_values_of_refl id key c : writes_values_of id key c c.
Proof. done. Qed.

Lemma writes_values_of_trans id key c1 c2 c3 :
  writes_values_of id key c1 c2 → writes_values_of id key c2 c3 →
  writes_values_of id key c1 c3.
Proof.
  intros [H1 G1] [H2 G2]. split; [|congruence].
  intros Hk. rewrite (H2 Hk). by apply H1.
Qed.

Lemma load_loop (id : positive) (sd : list (name * Tensor))
    (l : list (name * pspec)) (s : State) :
  ∃ s', for_each (load_entry id sd) l s = (Ok tt, s') ∧
        cells_rel (writes_values_of id) s s'.
Proof.
  apply (alter_loop_rel _ (λ np, (id, np.1))).
  - apply writes_values_of_refl.
  - apply writes_values_of_trans.
  - intros np s1 _. unfold load_entry.
    destruct (assoc np.1 sd) as [t|]; [|by left].
    case_bool_decide; [|by left].
    right. eexists. split; [reflexivity|]. intros c. by split.
Qed.

Lemma load_loop_values (id : positive) (sd : list (name * Tensor))
    (l : list (name * pspec)) (s s' : State) :
  forallb (entry_ok sd) l = true →
  for_each (load_entry id sd) l s = (Ok tt, s') →
  ∀ np c', np ∈ l → cells s' !! (id, np.1) = Some c' →
           assoc np.1 sd = Some (value c').
Proof.
  intros Hok Hrun np c' Hnp Hc'.
  pose proof (λ x, forallb_elem _ _ x Hok) as Hall. clear Hok.
  rename Hall into Hok.
  refine (alter_loop_post (load_entry id sd) (λ np, (id, np.1))
            (λ np c, mkCell (default empty_tensor (assoc np.1 sd))
                            (requires_grad c))
            (λ key c, assoc key.2 sd = Some (value c))
            l _ _ s s' Hrun (id, np.1) c' _ Hc').
  - intros x s1 Hx. specialize (Hok x Hx). unfold entry_ok in Hok.
    unfold load_entry. destruct (assoc x.1 sd) as [t|]; [|done].
    by rewrite Hok.
  - intros x c Hx. specialize (Hok x Hx). unfold entry_ok in Hok. simpl.
    by destruct (assoc x.1 sd).
  - left. by apply (list_elem_of_fmap_2 (λ np, (id, np.1))).
Qed.

Lemma load_state_dict_inv (net : UNet) (sd : list (name * Tensor))
    (s s' : State) r :
  load_state_dict net sd s = (r, s') →
  let expected := named_parameters (unet_modules net) in
  cells_rel (writes_values_of (unet_id net)) s s' ∧
  r = (if forallb (entry_ok sd) expected &&
          forallb (λ kv, bool_decide (kv.1 ∈ expected.*1)) sd
       then Ok tt else Raise RuntimeError) ∧
  (r = Ok tt →
     ∀ np c', np ∈ expected →
              cells s' !! (unet_id net, np.1) = Some c' →
              assoc np.1 sd = Some (value c')).
Proof.
  unfold load_state_dict. rewrite T_bind_unfold.
  destruct (load_loop (unet_id net) sd
              (named_parameters (unet_modules net)) s) as (s1 & Hrun & Hrel).
  rewrite Hrun.
  destruct (forallb (entry_ok sd) _) eqn:Hok; simpl.
  - destruct (forallb _ sd); intros [= <- <-]; split_and!; try done.
    intros _ np c' Hnp Hc'. by eapply load_loop_values.
  - by intros [= <- <-].
Qed.

(** ** Checkpoints *)

Lemma assoc_map_key {K A V} `{EqDecision K} (k : A → K) (g : A → V)
    (l : list A) (x : A) :
  x ∈ l → (∀ y, y ∈ l → k y = k x → g y = g x) →
  assoc (k x) (map (λ a, (k a, g a)) l) = Some (g x).
Proof.
  induction l as [|a l IH]; intros Hx Hg; [by apply elem_of_nil in Hx|].
  simpl. case_decide as Hk.
  - f_equal. apply Hg; [apply elem_of_cons; by left|done].
  - apply elem_of_cons in Hx as [->|Hx]; [done|].
    apply IH; [done|]. intros y Hy. apply Hg, elem_of_cons. by right.
Qed.

Lemma state_dict_lookup (s : State) (net : UNet) (np : name * pspec) :
  np ∈ named_parameters (unet_modules net) →
  assoc np.1 (state_dict s net) = Some (tensor_at s (unet_id net) np.1).
Proof.
  intros Hnp. unfold state_dict.
  apply (assoc_map_key (λ np : name * pspec, np.1)
           (λ np, tensor_at s (unet_id net) np.1)); [done|].
  by intros y _ ->.
Qed.

Lemma string_app_inj (p a b : string) : p ++ a = p ++ b → a = b.
Proof. induction p as [|c p IH]; simpl; [done|]. intros [= ?]. by apply IH. Qed.

Lemma checkpoint_paths_differ (p : string) :
  Py.path_join p "config.json" ≠ Py.path_join p "model.pt".
Proof.
  unfold Py.path_join. simpl.
  destruct (_ || _); intros Heq; by apply string_app_inj in Heq.
Qed.

Lemma UNet_init_total config m (s : State) :
  UNet_modules config = Ok m →
  ∃ net s', UNet_init config s = (Ok net, s') ∧ unet_modules net = m.
Proof.
  intros Hm. rewrite UNet_init_unfold.
  destruct (UNet_modules_runs config m (gen s) Hm)
    as (built & g & Hbuilt & Harch).
  rewrite Hbuilt.
  destruct (init_loop (next_id s) (named_parameters built)
              (mkState (cells s) (Pos.succ (next_id s)) g (files s) (trace s)))
    as (s1 & Hrun & _).
  rewrite Hrun. by eexists _, _.
Qed.

Lemma tensor_at_cell s id n c :
  cells s !! (id, n) = Some c → tensor_at s id n = value c.
Proof. unfold tensor_at. by intros ->. Qed.

Lemma tensor_at_cells s1 s2 id n :
  cells s1 = cells s2 → tensor_at s1 id n = tensor_at s2 id n.
Proof. unfold tensor_at. by intros ->. Qed.

(** [from_pretrained] on a checkpoint whose configuration can be built:
    the network is constructed from the configuration, then the stored
    parameters are loaded into it. *)
Lemma from_pretrained_run path doc cfg m sd (s : State) :
  files s !! Py.path_join path "config.json" = Some (JsonFile doc) →
  config_of_json doc = Ok cfg →
  UNet_modules cfg = Ok m →
  files s !! Py.path_join path "model.pt" = Some (TorchFile sd) →
  ∃ net s1 r s2,
    UNet_init cfg s = (Ok net, s1) ∧ unet_modules net = m ∧
    load_state_dict net sd s1 = (r, s2) ∧
    from_pretrained path s =
      (match r with Ok _ => Ok net | Raise e => Raise e end, s2).
Proof.
  intros Hcfg Hdoc Hm Hpt.
  destruct (UNet_init_total cfg m s Hm) as (net & s1 & Hinit & Hmod).
  pose proof (UNet_init_Ok _ _ _ _ Hinit) as (_ & _ & _ & _ & _ & Hfiles & _).
  destruct (load_state_dict net sd s1) as [r s2] eqn:Hload.
  exists net, s1, r, s2. split_and!; try done.
  unfold from_pretrained.
  rewrite T_bind_unfold. unfold read_file at 1. rewrite Hcfg.
  rewrite T_bind_unfold. unfold liftT at 1.
  rewrite T_bind_unfold. unfold liftT at 1. rewrite Hdoc.
  rewrite T_bind_unfold, Hinit.
  rewrite T_bind_unfold. unfold read_file at 1. rewrite Hfiles, Hpt.
  rewrite T_bind_unfold. unfold liftT at 1.
  rewrite T_bind_unfold, Hload. by destruct r as [[]|e].
Qed.

(** C6: the architecture is rebuilt from the stored configuration before
    the parameters are loaded into it; a stored parameter whose shape
    differs from the shape the rebuilt architecture gives it makes the
    load fail with the [RuntimeError] of [load_state_dict], and then no
    network is returned; a network that is returned has the rebuilt
    architecture and holds the stored values. *)
Theorem from_pretrained_checks_shapes path doc cfg m sd (s s' : State) r :
  files s !! Py.path_join path "config.json" = Some (JsonFile doc) →
  config_of_json doc = Ok cfg →
  UNet_modules cfg = Ok m →
  files s !! Py.path_join path "model.pt" = Some (TorchFile sd) →
  from_pretrained path s = (r, s') →
  ((∃ np t, np ∈ named_parameters m ∧ assoc np.1 sd = Some t ∧
            shape t ≠ p_shape np.2) →
   r = Raise RuntimeError) ∧
  (∀ net, r = Ok net →
     unet_config net = cfg ∧ unet_modules net = m ∧
     ∀ np, np ∈ named_parameters m →
       ∃ t, assoc np.1 sd = Some t ∧ shape t = p_shape np.2 ∧
            tensor_at s' (unet_id net) np.1 = t).
Proof.
  intros Hcfg Hdoc Hm Hpt Hrun.
  destruct (from_pretrained_run _ _ _ _ _ _ Hcfg Hdoc Hm Hpt)
    as (net & s1 & r1 & s2 & Hinit & Hmod & Hload & Hfrom).
  rewrite Hfrom in Hrun. injection Hrun as <- <-.
  pose proof (UNet_init_Ok _ _ _ _ Hinit)
    as (_ & _ & Hc & _ & _ & _ & _ & _ & _ & Hpresent).
  destruct (load_state_dict_inv _ _ _ _ _ Hload) as (Hrel & Hr & Hvals).
  rewrite Hmod in *. split.
  - intros (np & t & Hnp & Ht & Hne).
    assert (forallb (entry_ok sd) (named_parameters m) = false) as Hbad.
    { apply not_true_is_false. intros Hall.
      pose proof (forallb_elem _ _ np Hall Hnp) as Hok.
      unfold entry_ok in Hok. rewrite Ht in Hok.
      by apply bool_decide_eq_true_1 in Hok. }
    rewrite Hbad in Hr. by rewrite Hr.
  - intros net' Hnet. destruct r1 as [[]|e]; [|done].
    injection Hnet as <-. split_and!; try done.
    intros np Hnp.
    destruct (forallb (entry_ok sd) (named_parameters m)) eqn:Hall; [|done].
    pose proof (forallb_elem _ _ np Hall Hnp) as Hok.
    unfold entry_ok in Hok.
    destruct (assoc np.1 sd) as [t|] eqn:Ht; [|done].
    apply bool_decide_eq_true_1 in Hok.
    exists t. split_and!; try done.
    destruct (Hpresent np Hnp) as [c Hcell].
    destruct Hrel as [_ Hcells]. specialize (Hcells (unet_id net, np.1)).
    rewrite Hcell in Hcells. inversion Hcells as [c0 c' _ Hc0 Hc'|]; subst.
    symmetry in Hc'.
    specialize (Hvals eq_refl np c' Hnp Hc').
    rewrite (tensor_at_cell _ _ _ _ Hc'). congruence.
Qed.

(** C5: saving a network and loading the checkpoint gives a network
    whose architecture is the one its saved configuration builds (the
    configuration read back has lists where tuples were), with the same
    parameter values and, for every input, the same output. *)
Theorem checkpoint_round_trip (net : UNet) path (s : State) :
  UNet_modules (unet_config net) = Ok (unet_modules net) →
  stored s net →
  ∃ s1 net' s2,
    save_pretrained net path s = (Ok tt, s1) ∧
    from_pretrained path s1 = (Ok net', s2) ∧
    unet_config net' = as_lists (unet_config net) ∧
    UNet_modules (unet_config net') = Ok (unet_modules net') ∧
    unet_modules net' = unet_modules net ∧
    state_dict s2 net' = state_dict s net ∧
    ∀ (V : Type) (ops : TorchOps Tensor V) (training : bool) (x noise_level v : V),
      UNet_forward training (reify s2 net') x noise_level v =
      UNet_forward training (reify s net) x noise_level v.
Proof.
  intros Hbuilt Hstored.
  set (cfgpath := Py.path_join path "config.json").
  set (ptpath := Py.path_join path "model.pt").
  set (s1 := mkState (cells s) (next_id s) (gen s)
               (<[ptpath := TorchFile (state_dict s net)]>
                  (<[cfgpath := JsonFile (config_to_json (unet_config net))]>
                     (files s)))
               (trace s)).
  assert (save_pretrained net path s = (Ok tt, s1)) as Hsave by reflexivity.
  assert (files s1 !! cfgpath =
          Some (JsonFile (config_to_json (unet_config net)))) as Hcfg.
  { simpl. rewrite lookup_insert_ne, lookup_insert_eq; [done|].
    intros Heq. by apply (checkpoint_paths_differ path). }
  assert (files s1 !! ptpath = Some (TorchFile (state_dict s net))) as Hpt.
  { simpl. by rewrite lookup_insert_eq. }
  pose proof (UNet_modules_as_lists _ _ Hbuilt) as Hlists.
  destruct (from_pretrained_run path _ _ _ _ s1 Hcfg
              (config_json_round_trip _) Hlists Hpt)
    as (net' & s1' & r & s2 & Hinit & Hmod & Hload & Hfrom).
  pose proof (UNet_init_Ok _ _ _ _ Hinit)
    as (_ & _ & Hc & _ & _ & _ & _ & _ & _ & Hpresent).
  destruct (load_state_dict_inv _ _ _ _ _ Hload) as (Hrel & Hr & Hvals).
  rewrite Hmod in *.
  assert (r = Ok tt) as ->.
  { rewrite Hr.
    assert (forallb (entry_ok (state_dict s net))
                    (named_parameters (unet_modules net)) = true) as ->.
    { apply forallb_forall. intros np Hnp. apply list_elem_of_In in Hnp.
      unfold entry_ok. rewrite (state_dict_lookup _ _ _ Hnp).
      destruct (Hstored np Hnp) as (c & Hcell & Hshape).
      rewrite (tensor_at_cell _ _ _ _ Hcell). by apply bool_decide_eq_true_2. }
    assert (forallb (λ kv : name * Tensor,
                       bool_decide (kv.1 ∈ (named_parameters (unet_modules net)).*1))
                    (state_dict s net) = true) as ->; [|done].
    apply forallb_forall. intros kv Hkv. apply bool_decide_eq_true_2.
    apply list_elem_of_In in Hkv. unfold state_dict in Hkv.
    apply list_elem_of_fmap in Hkv as (np & -> & Hnp). simpl.
    by apply (list_elem_of_fmap_2 fst). }
  assert (∀ np, np ∈ named_parameters (unet_modules net) →
            tensor_at s2 (unet_id net') np.1 = tensor_at s (unet_id net) np.1)
    as Hsame.
  { intros np Hnp.
    destruct (Hpresent np Hnp) as [c Hcell].
    destruct Hrel as [_ Hcells]. specialize (Hcells (unet_id net', np.1)).
    rewrite Hcell in Hcells. inversion Hcells as [c0 c' _ Hc0 Hc'|]; subst.
    symmetry in Hc'.
    specialize (Hvals eq_refl np c' Hnp Hc').
    rewrite (state_dict_lookup _ _ _ Hnp) in Hvals.
    rewrite (tensor_at_cell _ _ _ _ Hc'). congruence. }
  exists s1, net', s2. split_and!; try done.
  - by rewrite Hc, Hmod.
  - unfold state_dict. rewrite Hmod. apply map_ext_in.
    intros np Hnp. f_equal. by apply Hsame, list_elem_of_In.
  - intros V ops training x nl v.
    assert (reify s2 net' = reify s net) as ->; [|done].
    unfold reify. rewrite Hmod. apply mapn_ext.
    intros np Hnp. by apply Hsame.
Qed.

(** ** The Lightning module: loss and monitoring *)

Lemma reify_cells (s1 s2 : State) (net : UNet) :
  cells s1 = cells s2 → reify s1 net = reify s2 net.
Proof. intros Hc. unfold reify, tensor_at. by rewrite Hc. Qed.

Section LitFacts.
Context `{Collaborators}.

Lemma with_gen_extends {A} P (f : Gen → result A * Gen) s r s' :
  with_gen f s = (r, s') → extends_trace P s s'.
Proof.
  unfold with_gen. destruct (f (gen s)) as [r0 g]. intros Hrun.
  injection Hrun as <- <-. repeat split.
  exists []. split; [by rewrite app_nil_r|constructor].
Qed.

(** Where broadcasting reads, for a batch of images and one weight per
    entry of the batch. *)
Lemma broadcast_per_sample (b c h w k : Z) :
  0 < b → 0 < c → 0 < h → 0 < w → 0 ≤ k < b * (c * (h * (w * 1))) →
  broadcast_source [b; c; h; w] [b; c; h; w] k = Z.to_nat k ∧
  broadcast_source [b; 1; 1; 1] [b; c; h; w] k = Z.to_nat (k `div` (c * h * w)).
Proof.
  intros Hb Hc Hh Hw Hk. unfold broadcast_source.
  change (reverse [b; c; h; w]) with [w; h; c; b].
  change (reverse [b; 1; 1; 1]) with [1; 1; 1; b].
  cbn [unravel_rev offset_rev].
  pose proof (Z.div_mod k w ltac:(lia)) as H1.
  pose proof (Z.mod_pos_bound k w ltac:(lia)) as H1'.
  pose proof (Z.div_mod (k `div` w) h ltac:(lia)) as H2.
  pose proof (Z.mod_pos_bound (k `div` w) h ltac:(lia)) as H2'.
  pose proof (Z.div_mod ((k `div` w) `div` h) c ltac:(lia)) as H3.
  pose proof (Z.mod_pos_bound ((k `div` w) `div` h) c ltac:(lia)) as H3'.
  assert (((k `div` w) `div` h) `div` c = k `div` (c * h * w)) as Hn.
  { rewrite !Z.div_div by lia. f_equal. lia. }
  assert (0 ≤ k `div` (c * h * w) < b) as Hrange.
  { split; [apply Z.div_pos; nia|]. apply Z.div_lt_upper_bound; nia. }
  rewrite Hn in *.
  rewrite (Z.mod_small (k `div` (c * h * w)) b) by lia.
  set (x := k `mod` w) in *. set (y := (k `div` w) `mod` h) in *.
  set (z := ((k `div` w) `div` h) `mod` c) in *. set (n := k `div` (c * h * w)) in *.
  change (1 =? 1) with true. cbv iota.
  assert ((if w =? 1 then 0 else x) = x) as ->
    by (destruct (Z.eqb_spec w 1); lia).
  assert ((if h =? 1 then 0 else y) = y) as ->
    by (destruct (Z.eqb_spec h 1); lia).
  assert ((if c =? 1 then 0 else z) = z) as ->
    by (destruct (Z.eqb_spec c 1); lia).
  assert ((if b =? 1 then 0 else n) = n) as ->
    by (destruct (Z.eqb_spec b 1); lia).
  split; f_equal; nia.
Qed.

Lemma broadcast_weights (b c h w : Z) :
  Shapes.broadcast [b; c; h; w] [b; 1; 1; 1] = Ok [b; c; h; w].
Proof.
  unfold Shapes.broadcast. cbn -[Z.eqb]. rewrite !Z.eqb_refl. cbn -[Z.eqb].
  destruct (Z.eqb_spec c 1) as [->|?]; destruct (Z.eqb_spec h 1) as [->|?];
    destruct (Z.eqb_spec w 1) as [->|?];
    cbn -[Z.eqb]; rewrite ?Z.eqb_refl; try done.
Qed.

(** C8: [training_step] hands the [predicted] and [target] tensors of the
    objective's output, as they are, to the pseudo-Huber loss.  When that
    loss is un-reduced, a value for every element of a batch of [b]
    images of [c * h * w] elements each, and the objective gives one
    weight per entry of the batch, the step multiplies every loss value
    by the weight of its entry and takes the mean over all [b * c * h * w]
    products: the result is a tensor without axes, logged as [train_loss]
    and returned. *)
Theorem training_step_reduces_weighted_loss self (global_step max_steps : Z)
    (visible_images infrared_images : Tensor) (batch_idx : Z) (s : State)
    (output : ConsistencyOutput) (g : Gen) (losses : Tensor) (b c h w : Z) :
  consistency_training (reify s (model self)) (unet_training (model self))
                       infrared_images visible_images
                       global_step max_steps (gen s) = (Ok output, g) →
  pseudo_huber_loss (predicted output) (target output) = Ok losses →
  shape losses = [b; c; h; w] →
  shape (loss_weights output) = [b; 1; 1; 1] →
  0 < b → 0 < c → 0 < h → 0 < w →
  let per_entry := c * h * w in
  let products :=
    map (λ k, (nth (Z.to_nat k) (data losses) 0 *
               nth (Z.to_nat (k `div` per_entry))
                   (data (loss_weights output)) 0)%Q)
        (seqZ 0 (b * per_entry)) in
  let loss :=
    {| shape := [];
       data := [(Qsum products / inject_Z (b * per_entry))%Q] |} in
  tensor_mul losses (loss_weights output)
    = Ok {| shape := [b; c; h; w]; data := products |} ∧
  training_step self global_step max_steps
                (BList [visible_images; infrared_images]) batch_idx s =
    (Ok loss,
     mkState (cells s) (next_id s) g (files s)
             (trace s ++ [EvLogDict [("train_loss", loss);
                                     ("num_timesteps", num_timesteps output)]])).
Proof.
  intros Hout Hloss Hsh Hwsh Hb Hc Hh Hw per_entry products loss.
  assert (numel_of [b; c; h; w] = b * per_entry) as Hnumel
    by (unfold numel_of, per_entry; simpl; lia).
  assert (tensor_mul losses (loss_weights output)
          = Ok {| shape := [b; c; h; w]; data := products |}) as Hmul.
  { unfold tensor_mul, tensor_binop. rewrite Hsh, Hwsh, broadcast_weights.
    cbn [mbind result_bind rbind]. rewrite Hnumel. do 2 f_equal.
    unfold products.
    apply map_ext_in. intros k Hk%list_elem_of_In%elem_of_seqZ.
    destruct (broadcast_per_sample b c h w k Hb Hc Hh Hw) as [-> ->];
      [|done].
    unfold per_entry in Hk. nia. }
  split; [exact Hmul|].
  unfold training_step.
  cbv [mbind T_mbind T_bind liftT unpack2 get with_gen emit mret T_mret T_ret].
  rewrite Hout, Hloss, Hmul. unfold loss, tensor_mean. cbn [shape data].
  by rewrite Hnumel.
Qed.

Lemma sample_one_events self gs noise sigmas s0 s r s' :
  cells s = cells s0 →
  sample_one self gs noise sigmas s = (r, s') →
  extends_trace (monitoring_event self s0 noise gs) s s'.
Proof.
  intros Hc. unfold sample_one. rewrite T_bind_unfold. simpl.
  intros Hrun.
  apply T_bind_inv in Hrun as [(a & s1 & He & Hrun)|(e & He & ->)]; [|done].
  assert (extends_trace (monitoring_event self s0 noise gs) s s1) as H1.
  { eapply emit_extends; [|exact He]. left. exists sigmas.
    by rewrite (reify_cells s s0). }
  apply T_bind_inv in Hrun as [(samples & s2 & Hs & Hrun)|(e & Hs & ->)].
  - eapply extends_trace_trans; [exact H1|].
    eapply extends_trace_trans; [by eapply with_gen_extends|].
    eapply emit_extends; [|exact Hrun]. right. by eexists _, _.
  - eapply extends_trace_trans; [exact H1|]. by eapply with_gen_extends.
Qed.

Lemma sampling_loop_events self gs noise sigmas_list s r s' :
  for_each (sample_one self gs noise) sigmas_list s = (r, s') →
  extends_trace (monitoring_event self s noise gs) s s'.
Proof.
  intros Hrun.
  refine (for_each_rel (sample_one self gs noise)
            (λ s1 s2, cells s1 = cells s →
                      extends_trace (monitoring_event self s noise gs) s1 s2)
            sigmas_list _ _ _ s r s' Hrun eq_refl).
  - intros s1 _. apply extends_trace_refl.
  - intros s1 s2 s3 H12 H23 Hc. specialize (H12 Hc).
    eapply extends_trace_trans; [exact H12|]. apply H23.
    destruct H12 as (Hc2 & _). congruence.
  - intros sigmas s1 r1 s1' _ Hone Hc. by eapply sample_one_events.
Qed.

(** The head of the batch that is monitored. *)
Lemma slice_head (t : Tensor) (n b : Z) (rest : list Z) :
  shape t = b :: rest → 0 ≤ n ≤ b →
  ∃ head, tensor_slice_to t n = Ok head ∧ shape head = n :: rest.
Proof.
  intros Hsh Hn. unfold tensor_slice_to. rewrite Hsh.
  destruct (Z.ltb_spec n 0); [lia|].
  eexists. split; [done|]. simpl. f_equal. lia.
Qed.

Lemma monitoring_run self gs batch t (b : Z) rest s r s' :
  0 ≤ num_samples (config self) → 0 ≤ b →
  first_of_batch batch = Ok t → shape t = b :: rest →
  __sample_and_log_samples self gs batch s = (r, s') →
  ∃ head noise s1 new,
    tensor_slice_to t (Z.min (num_samples (config self)) b) = Ok head ∧
    shape head = Z.min (num_samples (config self)) b :: rest ∧
    shape noise = shape head ∧
    cells s1 = cells s ∧
    cells s' = cells s ∧
    trace s' =
      (trace s ++
       EvAddImage ground_truth (make_grid (clamp_unit head)) gs :: new)%list ∧
    Forall (monitoring_event self s noise gs) new.
Proof.
  intros Hns Hb Hfirst Hsh Hrun. unfold __sample_and_log_samples in Hrun.
  destruct (slice_head t (Z.min (num_samples (config self)) b) b rest Hsh)
    as (head & Hhead & Hhsh); [lia|].
  assert (shape0 t = Ok b) as Hb0 by (unfold shape0; by rewrite Hsh).
  apply T_bind_inv in Hrun as [(t0 & s0 & H0 & Hrun)|(e & H0 & ->)];
    apply liftT_inv in H0 as [H0 ->]; [|congruence].
  assert (t0 = t) as -> by congruence. clear H0.
  apply T_bind_inv in Hrun as [(b0 & s0 & H0 & Hrun)|(e & H0 & ->)];
    apply liftT_inv in H0 as [H0 ->]; [|congruence].
  assert (b0 = b) as -> by congruence. clear H0.
  apply T_bind_inv in Hrun as [(h0 & s0 & H0 & Hrun)|(e & H0 & ->)];
    apply liftT_inv in H0 as [H0 ->]; [|congruence].
  assert (h0 = head) as -> by congruence. clear H0.
  apply T_bind_inv in Hrun as [(noise & s1 & Hrn & Hrun)|(e & Hrn & ->)];
    [|apply randn_shape in Hrn as (? & ? & _); done].
  pose proof (randn_shape _ _ _ _ Hrn) as (noise' & [= <-] & Hnsh).
  assert (cells s1 = cells s ∧ trace s1 = trace s) as [Hc1 Ht1].
  { by injection Hrn as _ <-. }
  apply T_bind_inv in Hrun as [(h0 & s0 & H0 & Hrun)|(e & H0 & ->)];
    apply liftT_inv in H0 as [H0 ->]; [|congruence].
  assert (h0 = head) as -> by congruence. clear H0.
  apply T_bind_inv in Hrun as [(u & s2 & Hlog & Hrun)|(e & Hlog & ->)];
    [|done].
  injection Hlog as _ <-.
  apply sampling_loop_events in Hrun.
  destruct Hrun as (Hc2 & _ & _ & new & Ht2 & Hnew). simpl in *.
  exists head, noise, s1, new. split_and!; try done.
  - congruence.
  - rewrite Ht2, Ht1. by rewrite <- app_assoc.
  - eapply Forall_impl; [exact Hnew|]. intros e [[sig ->]|Hgrid].
    + left. exists sig. f_equal. f_equal. by apply reify_cells.
    + by right.
Qed.

(** C9: the monitored head of the batch has [min(num_samples, batch size)]
    samples: the ground truth that is logged and the noise handed to every
    sampler call have exactly that many, and the slice never fails. *)
Theorem monitoring_sample_count self gs batch t (b : Z) rest s r s' :
  0 ≤ num_samples (config self) → 0 ≤ b →
  first_of_batch batch = Ok t → shape t = b :: rest →
  __sample_and_log_samples self gs batch s = (r, s') →
  ∃ head noise new,
    shape0 head = Ok (Z.min (num_samples (config self)) b) ∧
    shape0 noise = Ok (Z.min (num_samples (config self)) b) ∧
    trace s' =
      (trace s ++
       EvAddImage ground_truth (make_grid (clamp_unit head)) gs :: new)%list ∧
    ∀ c, EvSampling c ∈ new → positional c !! 1%nat = Some (ATensor noise).
Proof.
  intros Hns Hb Hfirst Hsh Hrun.
  destruct (monitoring_run _ _ _ _ _ _ _ _ _ Hns Hb Hfirst Hsh Hrun)
    as (head & noise & s1 & new & Hhead & Hhsh & Hnsh & _ & _ & Htr & Hnew).
  exists head, noise, new. split_and!; try done.
  - unfold shape0. by rewrite Hhsh.
  - unfold shape0. by rewrite Hnsh, Hhsh.
  - intros c Hc. rewrite Forall_forall in Hnew.
    destruct (Hnew _ Hc) as [[sig Hev]|(sig & grid & Hev)]; [|done].
    by injection Hev as ->.
Qed.

(** C1: every sampler call of the monitoring loop has three positional
    arguments, the shadow network, the noise and the sigma sequence, and
    the two keywords [clip_denoised] and [verbose]: no condition image is
    among them, and the infrared half of the batch has no influence on the
    run. *)
Theorem monitoring_call_without_condition self gs
    (visible_images infrared_images : Tensor) (b : Z) rest s r s' :
  0 ≤ num_samples (config self) → 0 ≤ b →
  shape visible_images = b :: rest →
  __sample_and_log_samples self gs (BList [visible_images; infrared_images]) s
    = (r, s') →
  (∀ other, __sample_and_log_samples self gs
              (BList [visible_images; other]) s = (r, s')) ∧
  ∀ c, EvSampling c ∈ drop (length (trace s)) (trace s') →
    ∃ noise sigmas,
      shape noise = Z.min (num_samples (config self)) b :: rest ∧
      positional c = [ANetwork (reify s (ema_model self))
                               (unet_training (ema_model self));
                      ATensor noise; AFloats sigmas] ∧
      keywords c = [("clip_denoised", ABool true); ("verbose", ABool true)].
Proof.
  intros Hns Hb Hsh Hrun. split; [intros other; exact Hrun|].
  destruct (monitoring_run self gs (BList [visible_images; infrared_images])
              visible_images _ _ _ _ _ Hns Hb eq_refl Hsh Hrun)
    as (head & noise & s1 & new & Hhead & Hhsh & Hnsh & _ & _ & Htr & Hnew).
  intros c Hc. rewrite Htr, drop_app_length in Hc.
  apply elem_of_cons in Hc as [Hc|Hc]; [done|].
  rewrite Forall_forall in Hnew.
  destruct (Hnew _ Hc) as [[sig Hev]|(sig & grid & Hev)]; [|done].
  injection Hev as ->. exists noise, sig. split_and!; try done. congruence.
Qed.

(** ** The training loop: order of the updates *)

Lemma monitoring_trace self gs batch s r s' :
  __sample_and_log_samples self gs batch s = (r, s') →
  extends_trace (monitors self s gs) s s'.
Proof.
  intros Hrun. unfold __sample_and_log_samples in Hrun.
  apply T_bind_inv in Hrun as [(t0 & s0 & H0 & Hrun)|(e & H0 & ->)];
    apply liftT_inv in H0 as [H0 ->]; [|apply extends_trace_refl].
  apply T_bind_inv in Hrun as [(b0 & s0 & H1 & Hrun)|(e & H1 & ->)];
    apply liftT_inv in H1 as [H1 ->]; [|apply extends_trace_refl].
  apply T_bind_inv in Hrun as [(head & s0 & H2 & Hrun)|(e & H2 & ->)];
    apply liftT_inv in H2 as [H2 ->]; [|apply extends_trace_refl].
  apply T_bind_inv in Hrun as [(noise & s1 & Hrn & Hrun)|(e & Hrn & ->)];
    [|by eapply randn_extends].
  pose proof (randn_extends (monitors self s gs) _ _ _ _ Hrn) as Hs1.
  eapply extends_trace_trans; [exact Hs1|].
  apply T_bind_inv in Hrun as [(head' & s0 & H3 & Hrun)|(e & H3 & ->)];
    apply liftT_inv in H3 as [H3 ->]; [|apply extends_trace_refl].
  apply T_bind_inv in Hrun as [(u & s2 & Hlog & Hrun)|(e & Hlog & ->)];
    [|done].
  assert (extends_trace (monitors self s gs) s1 s2) as Hs2.
  { eapply emit_extends; [|exact Hlog]. right. by eexists _, _. }
  eapply extends_trace_trans; [exact Hs2|].
  apply sampling_loop_events in Hrun.
  eapply extends_trace_weaken; [|exact Hrun].
  intros e [[sig ->]|(sig & grid & ->)].
  - left. exists noise, sig. f_equal. f_equal. apply reify_cells.
    destruct Hs1 as (Hc1 & _). destruct Hs2 as (Hc2 & _). congruence.
  - right. by eexists _, _.
Qed.

Lemma training_step_quiet self gs ms batch idx s r s' :
  training_step self gs ms batch idx s = (r, s') →
  extends_trace quiet s s'.
Proof.
  intros Hrun. unfold training_step in Hrun.
  apply T_bind_inv in Hrun as [([vis ir] & s0 & H0 & Hrun)|(e & H0 & ->)];
    apply liftT_inv in H0 as [H0 ->]; [|apply extends_trace_refl].
  rewrite T_bind_unfold in Hrun. simpl in Hrun.
  apply T_bind_inv in Hrun as [(out & s1 & Hout & Hrun)|(e & Hout & ->)];
    [|by eapply with_gen_extends].
  eapply extends_trace_trans; [by eapply with_gen_extends|].
  apply T_bind_inv in Hrun as [(losses & s2 & Hloss & Hrun)|(e & Hloss & ->)];
    apply liftT_inv in Hloss as [Hloss ->]; [|apply extends_trace_refl].
  apply T_bind_inv in Hrun as [(wl & s2 & Hmul & Hrun)|(e & Hmul & ->)];
    apply liftT_inv in Hmul as [Hmul ->]; [|apply extends_trace_refl].
  apply T_bind_inv in Hrun as [(u & s2 & Hlog & Hrun)|(e & Hlog & ->)];
    [|done].
  injection Hrun as _ <-. eapply emit_extends; [|exact Hlog]. done.
Qed.

Lemma optimizer_step_run opt gs (s : State) :
  ∃ cs, optimizer_step opt gs s =
          (Ok tt, mkState cs (next_id s) (gen s) (files s)
                          (trace s ++ [EvOptimizerStep (opt_network opt)])) ∧
        ∀ key, option_Forall2 (writes_only (opt_network opt) key)
                              (cells s !! key) (cs !! key).
Proof.
  destruct (alter_loop_rel (step_parameter opt gs)
              (λ n, (opt_network opt, n)) (writes_only (opt_network opt))
              (opt_params opt)) with (s := s) as (s1 & Hrun & Hrel).
  - by intros key c.
  - intros key c1 c2 c3 H12 H23 Hk. rewrite (H23 Hk). by apply H12.
  - intros n s0 _. right. eexists. split; [reflexivity|].
    intros c Hk. done.
  - exists (cells s1). destruct Hrel as [(Hn & Hg & Hf & Ht) Hcells].
    split; [|done].
    unfold optimizer_step. rewrite T_bind_unfold, Hrun.
    unfold emit. by rewrite Hn, Hg, Hf, Ht.
Qed.

Lemma update_ema_run (online shadow : UNet) decay (s : State) :
  ∃ cs, update_ema_model_ online shadow decay s =
          (Ok tt, mkState cs (next_id s) (gen s) (files s)
                          (trace s ++ [EvEmaUpdate (unet_id online)
                                                   (unet_id shadow)])) ∧
        ∀ key, option_Forall2 (writes_values_of (unet_id shadow) key)
                              (cells s !! key) (cs !! key).
Proof.
  set (s0 := mkState (cells s) (next_id s) (gen s) (files s)
               (trace s ++ [EvEmaUpdate (unet_id online) (unet_id shadow)])).
  destruct (alter_loop_rel (ema_parameter online shadow decay)
              (λ np, (unet_id shadow, np.1))
              (writes_values_of (unet_id shadow))
              (named_parameters (unet_modules shadow))) with (s := s0)
    as (s1 & Hrun & Hrel).
  - apply writes_values_of_refl.
  - apply writes_values_of_trans.
  - intros np s2 _. unfold ema_parameter. rewrite T_bind_unfold. simpl.
    destruct (cells s2 !! (unet_id online, np.1)) as [c|]; [|by left].
    right. eexists. split; [reflexivity|]. intros c0. by split.
  - exists (cells s1). destruct Hrel as [(Hn & Hg & Hf & Ht) Hcells].
    split; [|done].
    unfold update_ema_model_. rewrite T_bind_unfold. unfold emit at 1.
    fold s0. rewrite Hrun. destruct s1; simpl in *. by subst.
Qed.

(** C3: in one training step the optimizer step is applied first, then
    [update_ema_model_] is invoked, and only then may the sampler be
    called; every sampler call of the step reads the shadow network as the
    EMA update of this step left it. *)
Theorem ema_after_optimizer_before_sampling self gs ms batch idx s r s' :
  fit_batch self (configure_optimizers self).1 gs ms batch idx s = (r, s') →
  ∃ pre post,
    trace s' = (trace s ++ pre ++ post)%list ∧
    Forall quiet pre ∧
    ((post = [] ∧ ∃ e, r = Raise e) ∨
     ∃ s_opt s_ema mon,
       update_ema_model_ (model self) (ema_model self)
                         (ema_decay_rate (config self)) s_opt = (Ok tt, s_ema) ∧
       post = EvOptimizerStep (unet_id (model self))
              :: EvEmaUpdate (unet_id (model self)) (unet_id (ema_model self))
              :: mon ∧
       cells s' = cells s_ema ∧
       Forall (monitors self s_ema (gs + 1)) mon).
Proof.
  intros Hrun. unfold fit_batch in Hrun.
  rewrite T_bind_unfold in Hrun. unfold emit at 1 in Hrun.
  set (s0 := mkState (cells s) (next_id s) (gen s) (files s)
               (trace s ++ [EvTrainingStep gs])) in Hrun.
  apply T_bind_inv in Hrun as [(loss & s1 & Hloss & Hrun)|(e & Hloss & ->)].
  2:{ apply training_step_quiet in Hloss as (_ & _ & _ & new & Ht & Hq).
      exists (EvTrainingStep gs :: new), []. split_and!.
      - rewrite Ht. simpl. by rewrite app_nil_r, <- app_assoc.
      - by constructor.
      - left. split; [done|]. by exists e. }
  apply training_step_quiet in Hloss as (_ & _ & _ & new & Ht1 & Hq).
  exists (EvTrainingStep gs :: new).
  assert (Forall quiet (EvTrainingStep gs :: new)) as Hpre by by constructor.
  destruct (optimizer_step_run (configure_optimizers self).1 gs s1)
    as (c_opt & Hopt & _).
  rewrite T_bind_unfold, Hopt in Hrun. simpl in Hrun.
  set (s_opt := mkState c_opt (next_id s1) (gen s1) (files s1)
                  (trace s1 ++ [EvOptimizerStep (unet_id (model self))]))
    in Hrun.
  unfold on_train_batch_end in Hrun.
  destruct (update_ema_run (model self) (ema_model self)
              (ema_decay_rate (config self)) s_opt) as (c_ema & Hema & _).
  rewrite T_bind_unfold, Hema in Hrun.
  set (s_ema := mkState c_ema (next_id s_opt) (gen s_opt) (files s_opt)
                  (trace s_opt ++ [EvEmaUpdate (unet_id (model self))
                                               (unet_id (ema_model self))]))
    in *.
  assert (trace s_ema =
          (trace s ++ (EvTrainingStep gs :: new) ++
           [EvOptimizerStep (unet_id (model self));
            EvEmaUpdate (unet_id (model self)) (unet_id (ema_model self))])%list)
    as Htr.
  { simpl. rewrite Ht1. simpl. by rewrite <- !app_assoc. }
  assert (∃ mon, extends_trace (monitors self s_ema (gs + 1)) s_ema s' ∧
                 trace s' = (trace s_ema ++ mon)%list ∧
                 Forall (monitors self s_ema (gs + 1)) mon)
    as (mon & Hext & Hmon & HF).
  { assert (extends_trace (monitors self s_ema (gs + 1)) s_ema s') as Hext.
    { destruct (sample_every_n_steps (config self) =? 0).
      - apply liftT_inv in Hrun as [_ ->]. apply extends_trace_refl.
      - destruct (_ || _).
        + by eapply monitoring_trace.
        + injection Hrun as _ <-. apply extends_trace_refl. }
    pose proof Hext as (Hc & Hn & Hf & mon & Hmon & HF).
    by exists mon. }
  exists (EvOptimizerStep (unet_id (model self))
          :: EvEmaUpdate (unet_id (model self)) (unet_id (ema_model self))
          :: mon).
  split_and!; try done.
  - rewrite Hmon, Htr. by rewrite <- !app_assoc.
  - right. exists s_opt, s_ema, mon. split_and!; try done.
    by destruct Hext as (Hc & _).
Qed.

(** ** The shadow network and its writers *)

Lemma frame_lookup (R : cell → cell → Prop) (a b : option cell) :
  option_Forall2 R a b → (∀ c c', R c c' → c' = c) → b = a.
Proof. intros Hab HR. destruct Hab; [|done]. f_equal. by apply HR. Qed.

Lemma freeze_loop (id : positive) (l : list (name * pspec)) (s : State) :
  ∃ s', for_each (freeze id) l s = (Ok tt, s') ∧
        cells_rel (freezes id) s s' ∧
        ∀ np c', np ∈ l → cells s' !! (id, np.1) = Some c' →
                 requires_grad c' = false.
Proof.
  destruct (alter_loop_rel (freeze id) (λ np, (id, np.1)) (freezes id) l)
    with (s := s) as (s' & Hrun & Hrel).
  - by intros key c.
  - intros key c1 c2 c3 [H12 V12] [H23 V23]. split; [|congruence].
    intros Hk. rewrite (H23 Hk). by apply H12.
  - intros np s0 _. right. eexists. split; [reflexivity|].
    intros c. by split.
  - exists s'. split_and!; try done. intros np c' Hnp Hc'.
    refine (alter_loop_post (freeze id) (λ np, (id, np.1))
              (λ _ c, mkCell (value c) false)
              (λ _ c, requires_grad c = false) l _ _ s s' Hrun
              (id, np.1) c' _ Hc'); try done.
    left. by apply (list_elem_of_fmap_2 (λ np, (id, np.1))).
Qed.

(** C4: the two networks are different objects; at construction the
    shadow holds the values of the online network and every shadow
    parameter is frozen; the training step, the optimizer step,
    monitoring and saving leave the shadow's cells as they are; the EMA
    update writes values of the shadow only. *)
Theorem shadow_written_only_by_ema ucfg lcfg (s0 s1 : State) lit :
  create_models ucfg lcfg s0 = (Ok lit, s1) →
  let m := unet_id (model lit) in
  let e := unet_id (ema_model lit) in
  m ≠ e ∧
  (∀ np, np ∈ named_parameters (unet_modules (ema_model lit)) →
     ∃ c, cells s1 !! (e, np.1) = Some c ∧ requires_grad c = false ∧
          value c = tensor_at s1 m np.1) ∧
  (∀ gs ms batch idx s r s',
     training_step lit gs ms batch idx s = (r, s') → cells s' = cells s) ∧
  (∀ gs s r s',
     optimizer_step (configure_optimizers lit).1 gs s = (r, s') →
     ∀ n, cells s' !! (e, n) = cells s !! (e, n)) ∧
  (∀ gs batch s r s',
     __sample_and_log_samples lit gs batch s = (r, s') → cells s' = cells s) ∧
  (∀ path s r s',
     save_pretrained (model lit) path s = (r, s') → cells s' = cells s) ∧
  (∀ s r s',
     update_ema_model_ (model lit) (ema_model lit)
                       (ema_decay_rate (config lit)) s = (r, s') →
     ∀ key, option_Forall2 (writes_values_of e key)
                           (cells s !! key) (cells s' !! key)).
Proof.
  intros Hcreate. unfold create_models in Hcreate.
  apply T_bind_inv in Hcreate as [(online & sA & HA & Hcreate)|(? & ? & ?)];
    [|done].
  apply T_bind_inv in Hcreate as [(shadow & sB & HB & Hcreate)|(? & ? & ?)];
    [|done].
  rewrite T_bind_unfold in Hcreate. simpl in Hcreate.
  apply T_bind_inv in Hcreate as [(u & sC & HC & Hcreate)|(? & ? & ?)];
    [|done].
  destruct u.
  pose proof (UNet_init_Ok _ _ _ _ HA)
    as (HmA & HidA & _ & _ & HnA & _ & _ & _ & _ & _).
  pose proof (UNet_init_Ok _ _ _ _ HB)
    as (HmB & HidB & _ & _ & _ & _ & _ & HframeB & _ & HpresB).
  assert (unet_modules shadow = unet_modules online) as Hmods by congruence.
  assert (unet_id online ≠ unet_id shadow) as Hids.
  { rewrite HidA, HidB, HnA. lia. }
  destruct (load_state_dict_inv _ _ _ _ _ HC) as ([_ HrelC] & _ & HvalsC).
  unfold LitImprovedConsistencyModel_init in Hcreate.
  destruct (freeze_loop (unet_id shadow)
              (named_parameters (unet_modules shadow)) sC)
    as (sD & HD & [_ HrelD] & HfrozenD).
  rewrite T_bind_unfold, HD in Hcreate. injection Hcreate as <- <-.
  cbv zeta. cbn [model ema_model config eval unet_id unet_modules].
  split_and!; try done.
  - intros np Hnp.
    destruct (HpresB np Hnp) as [cB HcB].
    pose proof (HrelC (unet_id shadow, np.1)) as HC1. rewrite HcB in HC1.
    inversion HC1 as [c0 cC _ Hc0 HcC|]; subst. symmetry in HcC.
    pose proof (HrelD (unet_id shadow, np.1)) as HD1. rewrite HcC in HD1.
    inversion HD1 as [c1 cD [_ HvD] Hc1 HcD|]; subst. symmetry in HcD.
    exists cD. split_and!; try done.
    + by eapply HfrozenD.
    + rewrite HvD.
      pose proof (HvalsC eq_refl np cC Hnp HcC) as Hv.
      rewrite state_dict_lookup in Hv by (by rewrite <- Hmods).
      injection Hv as <-.
      unfold tensor_at.
      rewrite (frame_lookup _ _ _ (HrelD (unet_id online, np.1)))
        by (intros c c' [Hf _]; by apply Hf).
      rewrite (frame_lookup _ _ _ (HrelC (unet_id online, np.1)))
        by (intros c c' [Hf _]; by apply Hf).
      done.
  - intros gs ms batch idx s r s' Hrun.
    by apply training_step_quiet in Hrun as (Hc & _).
  - intros gs s r s' Hrun n.
    destruct (optimizer_step_run (configure_optimizers
                {| model := online; ema_model := eval shadow; config := lcfg |}).1
                gs s) as (cs & Hopt & Hrel).
    rewrite Hopt in Hrun. injection Hrun as _ <-. simpl.
    apply (frame_lookup _ _ _ (Hrel (unet_id shadow, n))).
    intros c c' Hw. apply Hw. simpl. congruence.
  - intros gs batch s r s' Hrun.
    by apply monitoring_trace in Hrun as (Hc & _).
  - intros path s r s' Hrun. by injection Hrun as _ <-.
  - intros s r s' Hrun key.
    destruct (update_ema_run online (eval shadow) (ema_decay_rate lcfg) s)
      as (cs & Hema & Hrel).
    rewrite Hema in Hrun. injection Hrun as _ <-. apply Hrel.
Qed.

End LitFacts.

Lemma storedb_stored (s : State) (net : UNet) :
  Fixture.storedb s net = true → stored s net.
Proof.
  intros Hall np Hnp. pose proof (forallb_elem _ _ np Hall Hnp) as Hok.
  simpl in Hok. destruct (cells s !! (unet_id net, np.1)) as [c|]; [|done].
  exists c. split; [done|]. by apply bool_decide_eq_true_1 in Hok.
Qed.

(** * Concrete runs *)

Section Runs.
Import Fixture Cases.


Lemma mismatched_pair_aborts_batch_witness :
  mismatched toy_dataset 0 ∧ 0 ∈ [0] ∧
  PairedDataset_getitem toy_dataset 0 toy_world =
    (Ok None,
     {| stdout := ["Skipping image pair at index 0 due to mismatched sizes"];
        rng := 0%nat |}) ∧
  ∃ e w', DataLoader_fetch
            (train_dataloader ImageDataModuleConfig_default toy_dataset)
            [0] toy_world = (Raise e, w').
Proof.
  assert (mismatched toy_dataset 0) as Hmis.
  { exists "datasets/LLVIP/visible/train/190001.jpg",
           "datasets/LLVIP/infrared/train/190001.jpg",
           (1280, 1024), (640, 512).
    split_and!; [reflexivity|reflexivity|reflexivity|discriminate]. }
  assert (0 ∈ [0]) as Hin by (apply elem_of_cons; by left).
  destruct (mismatched_pair_aborts_batch ImageDataModuleConfig_default
              toy_dataset [0] 0 toy_world Hmis Hin) as (Hget & _ & Hfetch).
  split_and!; [exact Hmis|exact Hin|exact Hget|exact Hfetch].
Defined.

Lemma UNet_forward_concatenates_condition_witness :
  UNet_modules tiny = Ok tiny_modules ∧
  ∃ top0 ip op xv,
    child tiny_modules "input_projection" = Ok ip ∧
    mkind ip = KConv2d (2 * channels tiny) top0 3 ∧
    child tiny_modules "output_projection" = Ok op ∧
    mkind op = KConv2d top0 (channels tiny) 3 ∧
    shape xv = [2; 2 * channels tiny; 2; 2] ∧
    data (tensor_row xv 0) = [1; 2; 3; 4; 11; 12; 13; 14]%Q ∧
    data (tensor_row xv 1) = [5; 6; 7; 8; 15; 16; 17; 18]%Q ∧
    UNet_forward (H := Cases.zero_kernels) true tiny_modules
                 Cases.noisy_image (mkTensor [2] [1; 1]%Q)
                 Cases.condition_image =
      (h0 ← forward_layer true ip xv;
       UNet_trunk true tiny_modules h0 (mkTensor [2] [1; 1]%Q)) ∧
    forward_layer true ip [2; 2 * channels tiny; 8; 8] = Ok [2; top0; 8; 8] ∧
    [2; 1; 8; 8] !! 1%nat = Some (channels tiny).
Proof.
  assert (UNet_modules tiny = Ok tiny_modules) as Hm
    by (vm_compute; reflexivity).
  assert (UNet_forward_shape true tiny_modules
            [2; channels tiny; 8; 8] [2] [2; channels tiny; 8; 8]
          = Ok [2; 1; 8; 8]) as Hf by (vm_compute; reflexivity).
  split; [exact Hm|].
  destruct (UNet_forward_concatenates_condition tiny tiny_modules Hm)
    as (top0 & ip & op & Hip & Hipk & Hop & Hopk & Hflow & Hshapes).
  destruct (Hflow Cases.zero_kernels (λ _ _ _, eq_refl) true
              Cases.noisy_image (mkTensor [2] [1; 1]%Q) Cases.condition_image
              2 2 2 eq_refl eq_refl ltac:(lia) ltac:(simpl; lia)
              ltac:(lia) ltac:(lia) eq_refl eq_refl)
    as (xv & Hsh & Hrows & Hrun).
  destruct (Hshapes true 2 8 8 [2] [2; 1; 8; 8] Hf)
    as (Hproj & _ & _ & Hout).
  exists top0, ip, op, xv.
  exact (conj Hip (conj Hipk (conj Hop (conj Hopk (conj Hsh
          (conj (Hrows 0%nat ltac:(simpl; lia))
            (conj (Hrows 1%nat ltac:(simpl; lia))
              (conj Hrun (conj Hproj Hout))))))))).
Defined.

Lemma training_step_reduces_weighted_loss_witness :
  ∃ loss s',
    training_step (H := weighted_collaborators) no_lit 0 10
                  (BList [toy_visible; toy_infrared]) 0 initial_state
      = (Ok loss, s') ∧
    shape loss = [] ∧
    ∃ q, data loss = [q] ∧ (q == 3 # 2)%Q.
Proof.
  pose proof (training_step_reduces_weighted_loss
                (H := weighted_collaborators) no_lit 0 10
                toy_visible toy_infrared 0 initial_state
                _ _ _ 2 1 2 2 eq_refl eq_refl eq_refl eq_refl
                eq_refl eq_refl eq_refl eq_refl) as [_ Hstep].
  eexists _, _. split; [exact Hstep|]. split; [reflexivity|].
  eexists. split; [reflexivity|]. vm_compute. reflexivity.
Defined.

Lemma from_pretrained_checks_shapes_witness :
  files bad_checkpoint !! Py.path_join "ckpt" "config.json"
    = Some (JsonFile (config_to_json tiny)) ∧
  config_of_json (config_to_json tiny) = Ok (as_lists tiny) ∧
  UNet_modules (as_lists tiny) = Ok tiny_modules ∧
  files bad_checkpoint !! Py.path_join "ckpt" "model.pt"
    = Some (TorchFile [(["input_projection"; "weight"], mkTensor [1] [0%Q])]) ∧
  (from_pretrained "ckpt" bad_checkpoint).1 = Raise RuntimeError.
Proof.
  assert (files bad_checkpoint !! Py.path_join "ckpt" "config.json"
          = Some (JsonFile (config_to_json tiny))) as Hcfg
    by (vm_compute; reflexivity).
  assert (config_of_json (config_to_json tiny) = Ok (as_lists tiny)) as Hdoc
    by (vm_compute; reflexivity).
  assert (UNet_modules (as_lists tiny) = Ok tiny_modules) as Hm
    by (vm_compute; reflexivity).
  assert (files bad_checkpoint !! Py.path_join "ckpt" "model.pt"
          = Some (TorchFile [(["input_projection"; "weight"],
                              mkTensor [1] [0%Q])])) as Hpt
    by (vm_compute; reflexivity).
  split_and!; [exact Hcfg|exact Hdoc|exact Hm|exact Hpt|].
  destruct (from_pretrained "ckpt" bad_checkpoint) as [r s'] eqn:Hrun.
  destruct (from_pretrained_checks_shapes _ _ _ _ _ _ _ _
              Hcfg Hdoc Hm Hpt Hrun) as [Hbad _].
  apply Hbad.
  exists (["input_projection"; "weight"],
          {| p_shape := [4; 2; 3; 3]; p_requires_grad := true |}),
         (mkTensor [1] [0%Q]).
  split_and!.
  - apply (list_elem_of_lookup_2 _ 0%nat). vm_compute. reflexivity.
  - vm_compute. reflexivity.
  - discriminate.
Defined.

Lemma checkpoint_round_trip_witness :
  UNet_modules (unet_config (model tiny_lit))
    = Ok (unet_modules (model tiny_lit)) ∧
  stored tiny_state (model tiny_lit) ∧
  ∃ s1 net' s2,
    save_pretrained (model tiny_lit) "ckpt" tiny_state = (Ok tt, s1) ∧
    from_pretrained "ckpt" s1 = (Ok net', s2) ∧
    unet_config net' = as_lists (unet_config (model tiny_lit)) ∧
    UNet_modules (unet_config net') = Ok (unet_modules net') ∧
    unet_modules net' = unet_modules (model tiny_lit) ∧
    state_dict s2 net' = state_dict tiny_state (model tiny_lit) ∧
    ∀ (V : Type) (ops : TorchOps Tensor V) (training : bool)
      (x noise_level v : V),
      UNet_forward training (reify s2 net') x noise_level v =
      UNet_forward training (reify tiny_state (model tiny_lit)) x noise_level v.
Proof.
  assert (UNet_modules (unet_config (model tiny_lit))
          = Ok (unet_modules (model tiny_lit))) as Hbuilt
    by (vm_compute; reflexivity).
  assert (stored tiny_state (model tiny_lit)) as Hstored
    by (apply storedb_stored; vm_compute; reflexivity).
  exact (conj Hbuilt (conj Hstored
           (checkpoint_round_trip (model tiny_lit) "ckpt" tiny_state
              Hbuilt Hstored))).
Defined.

Lemma monitoring_sample_count_witness :
  0 ≤ num_samples (config tiny_lit) ∧ 0 ≤ 2 ∧
  first_of_batch toy_batch = Ok toy_visible ∧
  shape toy_visible = [2; 1; 2; 2] ∧
  ∃ head noise new,
    shape0 head = Ok (Z.min (num_samples (config tiny_lit)) 2) ∧
    shape0 noise = Ok (Z.min (num_samples (config tiny_lit)) 2) ∧
    trace (__sample_and_log_samples tiny_lit 0 toy_batch tiny_state).2 =
      (trace tiny_state ++
       EvAddImage ground_truth (make_grid (clamp_unit head)) 0 :: new)%list ∧
    ∀ c, EvSampling c ∈ new → positional c !! 1%nat = Some (ATensor noise).
Proof.
  assert (0 ≤ num_samples (config tiny_lit)) as Hns
    by (vm_compute; discriminate).
  assert (0 ≤ 2) as Hb by lia.
  assert (first_of_batch toy_batch = Ok toy_visible) as Hfirst by reflexivity.
  assert (shape toy_visible = [2; 1; 2; 2]) as Hsh by reflexivity.
  destruct (__sample_and_log_samples tiny_lit 0 toy_batch tiny_state)
    as [r s'] eqn:Hrun.
  exact (conj Hns (conj Hb (conj Hfirst (conj Hsh
           (monitoring_sample_count (H := toy_collaborators) tiny_lit 0
              toy_batch toy_visible 2 [1; 2; 2] tiny_state r s'
              Hns Hb Hfirst Hsh Hrun))))).
Defined.

Lemma monitoring_call_without_condition_witness :
  0 ≤ num_samples (config tiny_lit) ∧ 0 ≤ 2 ∧
  shape toy_visible = [2; 1; 2; 2] ∧
  (∀ other, __sample_and_log_samples tiny_lit 0
              (BList [toy_visible; other]) tiny_state =
            __sample_and_log_samples tiny_lit 0 toy_batch tiny_state) ∧
  ∀ c, EvSampling c ∈
         drop (length (trace tiny_state))
              (trace (__sample_and_log_samples tiny_lit 0 toy_batch
                                               tiny_state).2) →
    ∃ noise sigmas,
      shape noise = [Z.min (num_samples (config tiny_lit)) 2; 1; 2; 2] ∧
      positional c = [ANetwork (reify tiny_state (ema_model tiny_lit))
                               (unet_training (ema_model tiny_lit));
                      ATensor noise; AFloats sigmas] ∧
      keywords c = [("clip_denoised", ABool true); ("verbose", ABool true)].
Proof.
  assert (0 ≤ num_samples (config tiny_lit)) as Hns
    by (vm_compute; discriminate).
  assert (0 ≤ 2) as Hb by lia.
  assert (shape toy_visible = [2; 1; 2; 2]) as Hsh by reflexivity.
  unfold toy_batch.
  destruct (__sample_and_log_samples tiny_lit 0
              (BList [toy_visible; toy_infrared]) tiny_state)
    as [r s'] eqn:Hrun.
  exact (conj Hns (conj Hb (conj Hsh
           (monitoring_call_without_condition (H := toy_collaborators)
              tiny_lit 0 toy_visible toy_infrared 2 [1; 2; 2] tiny_state r s'
              Hns Hb Hsh Hrun)))).
Defined.

Lemma ema_after_optimizer_before_sampling_witness :
  (fit_batch tiny_lit (configure_optimizers tiny_lit).1 0 10
             toy_batch 0 tiny_state).1 = Ok tt ∧
  ∃ pre post,
    trace (fit_batch tiny_lit (configure_optimizers tiny_lit).1 0 10
                     toy_batch 0 tiny_state).2
      = (trace tiny_state ++ pre ++ post)%list ∧
    Forall quiet pre ∧
    ((post = [] ∧
      ∃ e, (fit_batch tiny_lit (configure_optimizers tiny_lit).1 0 10
                      toy_batch 0 tiny_state).1 = Raise e) ∨
     ∃ s_opt s_ema mon,
       update_ema_model_ (model tiny_lit) (ema_model tiny_lit)
                         (ema_decay_rate (config tiny_lit)) s_opt
         = (Ok tt, s_ema) ∧
       post = EvOptimizerStep (unet_id (model tiny_lit))
              :: EvEmaUpdate (unet_id (model tiny_lit))
                             (unet_id (ema_model tiny_lit))
              :: mon ∧
       cells (fit_batch tiny_lit (configure_optimizers tiny_lit).1 0 10
                        toy_batch 0 tiny_state).2 = cells s_ema ∧
       Forall (monitors tiny_lit s_ema (0 + 1)) mon).
Proof.
  assert ((fit_batch tiny_lit (configure_optimizers tiny_lit).1 0 10
                     toy_batch 0 tiny_state).1 = Ok tt) as Hok
    by (vm_compute; reflexivity).
  destruct (fit_batch tiny_lit (configure_optimizers tiny_lit).1 0 10
                      toy_batch 0 tiny_state) as [r s'] eqn:Hrun.
  exact (conj Hok
           (ema_after_optimizer_before_sampling (H := toy_collaborators)
              tiny_lit 0 10 toy_batch 0 tiny_state r s' Hrun)).
Defined.

Lemma shadow_written_only_by_ema_witness :
  create_models tiny tiny_lit_config initial_state = (Ok tiny_lit, tiny_state) ∧
  unet_id (model tiny_lit) ≠ unet_id (ema_model tiny_lit) ∧
  (∀ np, np ∈ named_parameters (unet_modules (ema_model tiny_lit)) →
     ∃ c, cells tiny_state !! (unet_id (ema_model tiny_lit), np.1) = Some c ∧
          requires_grad c = false ∧
          value c = tensor_at tiny_state (unet_id (model tiny_lit)) np.1) ∧
  (∀ gs s r s',
     optimizer_step (configure_optimizers tiny_lit).1 gs s = (r, s') →
     ∀ n, cells s' !! (unet_id (ema_model tiny_lit), n)
          = cells s !! (unet_id (ema_model tiny_lit), n)).
Proof.
  assert (create_models tiny tiny_lit_config initial_state
          = (Ok tiny_lit, tiny_state)) as Hcreate.
  { assert (is_ok (create_models tiny tiny_lit_config initial_state).1 = true)
      as Hok by (vm_compute; reflexivity).
    unfold tiny_lit, tiny_state.
    destruct (create_models tiny tiny_lit_config initial_state) as [[lit|e] s];
      [reflexivity|discriminate Hok]. }
  destruct (shadow_written_only_by_ema tiny tiny_lit_config initial_state
              tiny_state tiny_lit Hcreate)
    as (Hids & Hinit & _ & Hopt & _).
  exact (conj Hcreate (conj Hids (conj Hinit Hopt))).
Defined.

End Runs.

(** * Further properties of the script *)

(** ** Library layers: what construction accepts and what it builds *)

#[local] Arguments new_param : simpl never.

Lemma new_param_Ok i sh rg p :
  new_param i sh rg = Ok p →
  Forall (λ d, 0 ≤ d) sh ∧ p = mkPspec sh rg.
Proof.
  unfold new_param, architecture.
  destruct (forallb _ sh) eqn:Hall; [|done].
  intros [= <-]. split; [|done].
  apply Forall_forall. intros d Hd.
  pose proof (forallb_elem _ _ d Hall Hd) as Hle. simpl in Hle. lia.
Qed.

Lemma new_param_nonneg i sh rg :
  Forall (λ d, 0 ≤ d) sh → new_param i sh rg = Ok (mkPspec sh rg).
Proof.
  intros Hall. unfold new_param, architecture.
  assert (forallb (λ d, 0 <=? d) sh = true) as ->; [|done].
  apply forallb_forall. intros d Hd%list_elem_of_In.
  rewrite Forall_forall in Hall. specialize (Hall d Hd). lia.
Qed.

Lemma GroupNorm_Ok c m :
  GroupNorm c = Ok m →
  Z.min 32 (c `div` 4) ≠ 0 ∧ c `mod` Z.min 32 (c `div` 4) = 0 ∧ 0 ≤ c ∧
  m = Node (KGroupNorm (Z.min 32 (c `div` 4)) c)
           [("weight", mkPspec [c] true); ("bias", mkPspec [c] true)] [].
Proof.
  unfold GroupNorm, nn_GroupNorm. set (g := Z.min 32 (c `div` 4)).
  destruct (Z.eqb_spec g 0); [done|].
  destruct (Z.eqb_spec (c `mod` g) 0); [|done]. simpl.
  intros Hm. bind_inv Hm as w Hw. bind_inv Hm as b Hb.
  apply new_param_Ok in Hw as [Hc ->]. apply new_param_Ok in Hb as [_ ->].
  injection Hm as <-. apply Forall_cons in Hc as [Hc _]. done.
Qed.

Lemma Conv2d_form cin cout k bias m :
  Conv2d cin cout k bias = Ok m →
  m = Node (KConv2d cin cout k)
           (("weight", mkPspec [cout; cin; k; k] true) ::
            if bias then [("bias", mkPspec [cout] true)] else []) [].
Proof.
  unfold Conv2d. intros Hm. bind_inv Hm as w Hw.
  apply new_param_Ok in Hw as [_ ->]. destruct bias.
  - bind_inv Hm as b Hb. apply new_param_Ok in Hb as [_ ->].
    by injection Hm as <-.
  - by injection Hm as <-.
Qed.

Lemma Linear_form fin fout bias m :
  Linear fin fout bias = Ok m →
  m = Node (KLinear fin fout)
           (("weight", mkPspec [fout; fin] true) ::
            if bias then [("bias", mkPspec [fout] true)] else []) [].
Proof.
  unfold Linear. intros Hm. bind_inv Hm as w Hw.
  apply new_param_Ok in Hw as [_ ->]. destruct bias.
  - bind_inv Hm as b Hb. apply new_param_Ok in Hb as [_ ->].
    by injection Hm as <-.
  - by injection Hm as <-.
Qed.

Lemma Dropout1d_form p m :
  Dropout1d p = Ok m → valid_probability p = true ∧ m = Node (KDropout1d p) [] [].
Proof. unfold Dropout1d. destruct (valid_probability p); [|done]. by intros [= <-]. Qed.

Lemma Dropout2d_form p m :
  Dropout2d p = Ok m → valid_probability p = true ∧ m = Node (KDropout2d p) [] [].
Proof. unfold Dropout2d. destruct (valid_probability p); [|done]. by intros [= <-]. Qed.

(** ** Shapes through the layers *)

Section ShapeFacts.
Implicit Types (x : list Z) (m : Module pspec) (training : bool).

(** A width that [GroupNorm] accepts leaves at least four values to each
    group, so the batch-size check of [F.group_norm] lets every batch of
    that width pass. *)
Lemma group_of_four (c b N : Z) :
  Z.min 32 (c `div` 4) ≠ 0 → c `mod` Z.min 32 (c `div` 4) = 0 → 0 ≤ c →
  0 < Z.min 32 (c `div` 4) ∧
  ((b * c) `div` Z.min 32 (c `div` 4) * N =? 1) = false.
Proof.
  set (g := Z.min 32 (c `div` 4)). intros Hg Hmod Hc.
  assert (0 ≤ c `div` 4) by (apply Z.div_pos; lia).
  assert (0 < g) as Hpos by lia. split; [done|].
  assert (4 * g ≤ c) as Hwide.
  { pose proof (Z.mul_div_le c 4 ltac:(lia)). lia. }
  pose proof (Z.div_mod c g ltac:(lia)) as Hdiv. rewrite Hmod, Z.add_0_r in Hdiv.
  set (k := c `div` g) in *.
  assert (4 ≤ k) by nia.
  replace (b * c) with (b * k * g) by lia. rewrite Z.div_mul by lia.
  apply Z.eqb_neq. intros Hone.
  destruct (Z.mul_eq_1 (b * k) N Hone) as [H1|H1];
    [destruct (Z.mul_eq_1 k b) as [?|?]; lia
    |assert (k * (- b) = 1) as H2 by lia;
     destruct (Z.mul_eq_1 k (- b) H2) as [?|?]; lia].
Qed.

Lemma forward_GroupNorm training c m (b : Z) rest :
  GroupNorm c = Ok m →
  forward_layer training m (b :: c :: rest) = Ok (b :: c :: rest).
Proof.
  intros (Hg & Hmod & Hc & ->)%GroupNorm_Ok.
  destruct (group_of_four c b (numel_of rest) Hg Hmod Hc) as [Hpos Hfour].
  unfold forward_layer. simpl. unfold Shapes.group_norm.
  apply Z.eqb_neq in Hg. apply Z.eqb_eq in Hmod. apply Z.ltb_lt in Hpos.
  rewrite Hg, Hfour, Hpos, Hmod.
  by rewrite !bool_decide_true.
Qed.

(** A batch of another width: the batch-size check speaks first, the
    kernel's check of the width after it. *)
Lemma forward_GroupNorm_other training c m (b c' : Z) rest :
  GroupNorm c = Ok m → c' ≠ c →
  forward_layer training m (b :: c' :: rest) =
    Raise (if (b * c') `div` Z.min 32 (c `div` 4) * numel_of rest =? 1
           then ValueError else RuntimeError).
Proof.
  intros (Hg & Hmod & _ & ->)%GroupNorm_Ok Hne.
  unfold forward_layer. simpl. unfold Shapes.group_norm.
  apply Z.eqb_neq in Hg. rewrite Hg.
  destruct (_ =? 1); [done|].
  rewrite (bool_decide_false ([c] = [c'])) by congruence.
  by rewrite andb_false_r.
Qed.

Lemma forward_Conv2d training cin cout k bias m (b h w : Z) :
  Conv2d cin cout k bias = Ok m →
  forward_layer training m [b; cin; h; w] = Ok [b; cout; h; w].
Proof.
  intros ->%Conv2d_form. unfold forward_layer. simpl.
  unfold Shapes.conv2d, opt_param. rewrite !Z.eqb_refl.
  destruct bias; simpl; [by rewrite bool_decide_true|done].
Qed.

Lemma forward_Linear training fin fout bias m (lead : list Z) :
  Linear fin fout bias = Ok m →
  forward_layer training m (lead ++ [fin])%list = Ok (lead ++ [fout])%list.
Proof.
  intros ->%Linear_form. unfold forward_layer. simpl.
  unfold Shapes.linear, opt_param. rewrite reverse_snoc, Z.eqb_refl, reverse_involutive.
  destruct bias; simpl; [by rewrite bool_decide_true|done].
Qed.

Lemma forward_Linear_other training fin fout bias m (lead : list Z) f :
  Linear fin fout bias = Ok m → f ≠ fin →
  forward_layer training m (lead ++ [f])%list = Raise RuntimeError.
Proof.
  intros ->%Linear_form Hne. unfold forward_layer. simpl.
  unfold Shapes.linear. rewrite reverse_snoc.
  by destruct (Z.eqb_spec f fin).
Qed.

Lemma forward_Dropout2d training p m x :
  Dropout2d p = Ok m → forward_layer training m x = Ok x.
Proof. by intros [_ ->]%Dropout2d_form. Qed.

Lemma forward_Dropout1d training p m (b c l : Z) :
  Dropout1d p = Ok m → forward_layer training m [b; c; l] = Ok [b; c; l].
Proof. by intros [_ ->]%Dropout1d_form. Qed.

(** [nn.Sequential]: the layers one after the other. *)
Lemma forward_sequential_layers training (layers : list (Module pspec)) x :
  forward_sequential training (sequential layers) x =
  foldl (λ acc layer, h ← acc; forward_layer training layer h) (Ok x) layers.
Proof.
  unfold forward_sequential, sequential. simpl.
  generalize (Ok x : result (list Z)).
  change (λ (i : nat) (l : Module pspec), (pretty i, l))
    with (λ (i : nat) (l : Module pspec), ((λ i : nat, pretty i) i, l)).
  generalize (λ i : nat, pretty i).
  induction layers as [|l layers IH]; intros f acc; [done|].
  simpl. apply (IH (f ∘ S)).
Qed.

Lemma forward_SiLU training x : forward_layer training SiLU x = Ok x.
Proof. done. Qed.

Lemma forward_Rearrange training pattern axes x :
  forward_layer training (Rearrange pattern axes) x =
  Shapes.rearrange pattern axes x.
Proof. done. Qed.

Lemma forward_nn_Upsample training scale x :
  forward_layer training (nn_Upsample scale) x = Shapes.upsample scale x.
Proof. done. Qed.

End ShapeFacts.

#[local] Arguments forward_layer : simpl never.
#[local] Arguments Shapes.rearrange : simpl never.
#[local] Arguments Shapes.broadcast : simpl never.
#[local] Arguments Shapes.attention : simpl never.
#[local] Arguments Shapes.unbind : simpl never.
#[local] Arguments Shapes.upsample : simpl never.
#[local] Arguments Shapes.cat : simpl never.
#[local] Arguments Shapes.unsqueeze_at : simpl never.
#[local] Arguments Z.mul : simpl never.
#[local] Arguments Z.div : simpl never.
#[local] Arguments Z.modulo : simpl never.

(** One layer of a chain whose input is known. *)
Ltac layer_step :=
  match goal with
  | |- context [forward_sequential _ (sequential _) _] =>
      rewrite forward_sequential_layers
  | |- context [forward_layer _ SiLU _] => rewrite forward_SiLU
  | |- context [forward_layer _ (Rearrange _ _) _] => rewrite forward_Rearrange
  | |- context [forward_layer _ (nn_Upsample _) _] => rewrite forward_nn_Upsample
  | H : GroupNorm _ = Ok ?m |- context [forward_layer _ ?m (_ :: _ :: _)] =>
      rewrite (forward_GroupNorm _ _ _ _ _ H)
  | H : Conv2d _ _ _ _ = Ok ?m |- context [forward_layer _ ?m [_; _; _; _]] =>
      rewrite (forward_Conv2d _ _ _ _ _ _ _ _ _ H)
  | H : Dropout2d _ = Ok ?m |- context [forward_layer _ ?m _] =>
      rewrite (forward_Dropout2d _ _ _ _ H)
  | H : Dropout1d _ = Ok ?m |- context [forward_layer _ ?m [_; _; _]] =>
      rewrite (forward_Dropout1d _ _ _ _ _ _ H)
  end; simpl.

Ltac layers := repeat layer_step.

(** ** The blocks of the network *)

(** X1: [GroupNorm(channels)] asks for [min(32, channels // 4)] groups.
    A width below 4 gives no group at all and the constructor raises
    [ZeroDivisionError]; a width that the number of groups does not divide
    raises [ValueError]; every other width gives the normalisation layer
    with that many groups and two parameters of that width. *)
Theorem GroupNorm_widths (c : Z) :
  0 ≤ c →
  let g := Z.min 32 (c `div` 4) in
  (c < 4 → GroupNorm c = Raise ZeroDivisionError) ∧
  (4 ≤ c → c `mod` g ≠ 0 → GroupNorm c = Raise ValueError) ∧
  (4 ≤ c → c `mod` g = 0 →
     GroupNorm c =
       Ok (Node (KGroupNorm g c)
                [("weight", mkPspec [c] true); ("bias", mkPspec [c] true)] [])).
Proof.
  intros Hc g. unfold GroupNorm, nn_GroupNorm. fold g. architecture_steps.
  assert (c < 4 → g = 0) as Hsmall.
  { intros Hlt. unfold g. rewrite Z.div_small by lia. lia. }
  assert (4 ≤ c → 0 < g) as Hbig.
  { intros Hge. unfold g.
    assert (1 ≤ c `div` 4) by (apply Z.div_le_lower_bound; lia). lia. }
  split_and!.
  - intros Hlt. by rewrite (Hsmall Hlt).
  - intros Hge Hmod. specialize (Hbig Hge).
    destruct (Z.eqb_spec g 0); [lia|]. by destruct (Z.eqb_spec (c `mod` g) 0).
  - intros Hge Hmod. specialize (Hbig Hge).
    destruct (Z.eqb_spec g 0); [lia|]. rewrite Hmod. simpl.
    rewrite !new_param_nonneg by (by constructor). done.
Qed.

Lemma UNetBlock_Ok cin cout nlc d m :
  UNetBlock cin cout nlc d = Ok m →
  ∃ in_norm in_conv in_dropout nl_conv out_norm out_conv out_dropout res,
    GroupNorm cin = Ok in_norm ∧ Conv2d cin cout 3 true = Ok in_conv ∧
    Dropout2d d = Ok in_dropout ∧ Conv2d nlc cout 1 true = Ok nl_conv ∧
    GroupNorm cout = Ok out_norm ∧ Conv2d cout cout 3 true = Ok out_conv ∧
    Dropout2d d = Ok out_dropout ∧ Conv2d cin cout 1 true = Ok res ∧
    m = Node KUNetBlock []
          [("input_projection", sequential [in_norm; SiLU; in_conv; in_dropout]);
           ("noise_level_projection", sequential [SiLU; nl_conv]);
           ("output_projection",
            sequential [out_norm; SiLU; out_conv; out_dropout]);
           ("residual_projection", res)].
Proof.
  unfold UNetBlock. intros Hm.
  bind_inv Hm as in_norm H1. bind_inv Hm as in_conv H2.
  bind_inv Hm as in_dropout H3. bind_inv Hm as nl_conv H4.
  bind_inv Hm as out_norm H5. bind_inv Hm as out_conv H6.
  bind_inv Hm as out_dropout H7. bind_inv Hm as res H8.
  injection Hm as <-.
  by exists in_norm, in_conv, in_dropout, nl_conv, out_norm, out_conv,
            out_dropout, res.
Qed.

(** Broadcasting a per-channel offset over the pixels. *)
Lemma broadcast_noise_level (b c h w : Z) :
  Shapes.broadcast [b; c; h; w] [b; c; 1; 1] = Ok [b; c; h; w].
Proof.
  unfold Shapes.broadcast. cbn -[Z.eqb]. rewrite !Z.eqb_refl. cbn -[Z.eqb].
  destruct (Z.eqb_spec h 1) as [->|Hh]; destruct (Z.eqb_spec w 1) as [->|Hw];
    cbn -[Z.eqb]; rewrite ?Z.eqb_refl; try done.
Qed.

Lemma broadcast_same (x : list Z) : Shapes.broadcast x x = Ok x.
Proof.
  unfold Shapes.broadcast.
  assert (∀ l, Shapes.broadcast_rev l l = Ok l) as Hrev.
  { induction l as [|a l IH]; [done|]. simpl. rewrite IH. simpl.
    by rewrite Z.eqb_refl. }
  rewrite Hrev. simpl. by rewrite reverse_involutive.
Qed.

Ltac unet_block_children in_norm in_conv in_dropout nl_conv out_norm out_conv
                         out_dropout res :=
  unfold UNetBlock_forward;
  change (child _ "input_projection")
    with (Ok (sequential [in_norm; SiLU; in_conv; in_dropout]));
  change (child _ "noise_level_projection")
    with (Ok (sequential [SiLU; nl_conv]));
  change (child _ "output_projection")
    with (Ok (sequential [out_norm; SiLU; out_conv; out_dropout]));
  change (child _ "residual_projection") with (Ok res);
  simpl.

Lemma UNetBlock_forward_Ok cin cout nlc d m training (b h w : Z) :
  UNetBlock cin cout nlc d = Ok m →
  UNetBlock_forward training m [b; cin; h; w] [b; nlc; 1; 1]
    = Ok [b; cout; h; w].
Proof.
  intros (in_norm & in_conv & in_dropout & nl_conv & out_norm & out_conv &
          out_dropout & res & H1 & H2 & H3 & H4 & H5 & H6 & H7 & H8 & ->)%UNetBlock_Ok.
  unet_block_children in_norm in_conv in_dropout nl_conv out_norm out_conv
                      out_dropout res.
  layers. rewrite broadcast_noise_level. simpl. layers.
  apply broadcast_same.
Qed.

(** X2: a [UNetBlock] built for [in_channels], [out_channels] and
    [noise_level_channels] maps a non-empty batch of [in_channels] feature
    maps and a noise-level embedding of shape
    [b, noise_level_channels, 1, 1] to [out_channels] feature maps of the
    same height and width.  A batch with another number of channels is
    refused by the first normalisation: with [ValueError] by the
    batch-size check of [F.group_norm] when
    [(b * channels // groups) * h * w] is 1, the groups being those of
    [GroupNorm(in_channels)], and with [RuntimeError] by the kernel
    otherwise. *)
Theorem UNetBlock_forward_shape cin cout nlc d m training (b h w : Z) :
  UNetBlock cin cout nlc d = Ok m →
  0 < b → 0 < h → 0 < w →
  UNetBlock_forward training m [b; cin; h; w] [b; nlc; 1; 1]
    = Ok [b; cout; h; w] ∧
  ∀ c noise_level, c ≠ cin →
    UNetBlock_forward training m [b; c; h; w] noise_level =
      Raise (if (b * c) `div` Z.min 32 (cin `div` 4) * (h * w) =? 1
             then ValueError else RuntimeError).
Proof.
  intros Hm _ _ _. split; [by apply (UNetBlock_forward_Ok cin cout nlc d)|].
  apply UNetBlock_Ok in Hm
    as (in_norm & in_conv & in_dropout & nl_conv & out_norm & out_conv &
        out_dropout & res & H1 & H2 & H3 & H4 & H5 & H6 & H7 & H8 & ->).
  intros c noise_level Hc.
  unet_block_children in_norm in_conv in_dropout nl_conv out_norm out_conv
                      out_dropout res.
  rewrite !forward_sequential_layers. simpl.
  rewrite (forward_GroupNorm_other _ _ _ _ _ _ H1 Hc).
  replace (numel_of [h; w]) with (h * w) by (unfold numel_of; simpl; lia).
  done.
Qed.

Lemma SelfAttention_Ok cin cout heads d m :
  SelfAttention cin cout heads d = Ok m →
  ∃ qkv_norm qkv_conv out_linear out_norm out_dropout res,
    GroupNorm cin = Ok qkv_norm ∧ Conv2d cin (3 * cin) 1 false = Ok qkv_conv ∧
    Linear cin cout false = Ok out_linear ∧ GroupNorm cout = Ok out_norm ∧
    Dropout1d d = Ok out_dropout ∧ Conv2d cin cout 1 true = Ok res ∧
    m = Node (KSelfAttention d) []
          [("qkv_projection",
            sequential [qkv_norm; qkv_conv;
                        Rearrange "b (i h d) x y -> i b h (x y) d"
                                  [("i", 3); ("h", heads)]]);
           ("output_projection",
            sequential [Rearrange "b h l d -> b l (h d)" [];
                        out_linear;
                        Rearrange "b l d -> b d l" [];
                        out_norm;
                        out_dropout]);
           ("residual_projection", res)].
Proof.
  unfold SelfAttention. intros Hm.
  bind_inv Hm as qkv_norm H1. bind_inv Hm as qkv_conv H2.
  bind_inv Hm as out_linear H3. bind_inv Hm as out_norm H4.
  bind_inv Hm as out_dropout H5. bind_inv Hm as res H6.
  injection Hm as <-.
  by exists qkv_norm, qkv_conv, out_linear, out_norm, out_dropout, res.
Qed.

(** The split of the channels into queries, keys and values per head. *)
Lemma rearrange_qkv (heads b c sx sy : Z) :
  Shapes.rearrange "b (i h d) x y -> i b h (x y) d" [("i", 3); ("h", heads)]
                   [b; c; sx; sy] =
  if heads =? 0 then Raise ZeroDivisionError
  else if (0 <? heads) && (c `mod` (3 * heads) =? 0)
  then Ok [3; b; heads; sx * sy; c `div` (3 * heads)]
  else Raise RuntimeError.
Proof.
  unfold Shapes.rearrange.
  change (assoc "i" _) with (Some 3). change (assoc "h" _) with (Some heads).
  cbn -[Z.mul Z.eqb Z.ltb Z.modulo Z.div].
  destruct (Z.eqb_spec heads 0) as [->|Hne]; [done|].
  destruct (Z.eqb_spec (3 * heads) 0); [lia|].
  change (0 <? 3) with true.
  destruct (Z.eqb_spec (c `mod` (3 * heads)) 0); simpl;
    [by rewrite andb_true_r|by rewrite andb_false_r].
Qed.

Lemma rearrange_pixels (b c sx sy : Z) :
  Shapes.rearrange "b c (x y) -> b c x y" [("x", sx); ("y", sy)]
                   [b; c; sx * sy] = Ok [b; c; sx; sy].
Proof.
  unfold Shapes.rearrange.
  change (assoc "x" _) with (Some sx). change (assoc "y" _) with (Some sy).
  cbn -[Z.mul Z.eqb]. by rewrite Z.eqb_refl.
Qed.

Lemma heads_divide (heads cin : Z) :
  (0 <? heads) && ((3 * cin) `mod` (3 * heads) =? 0) = true ↔
  0 < heads ∧ cin `mod` heads = 0.
Proof.
  rewrite andb_true_iff, Z.ltb_lt, Z.eqb_eq. split.
  - intros [Hh Hmod]. split; [lia|].
    rewrite Z.mul_mod_distr_l in Hmod by lia. lia.
  - intros [Hh Hmod]. split; [lia|].
    rewrite Z.mul_mod_distr_l by lia. lia.
Qed.

Ltac self_attention_children heads qkv_norm qkv_conv out_linear out_norm
                             out_dropout res :=
  unfold SelfAttention_forward;
  change (child _ "qkv_projection")
    with (Ok (sequential [qkv_norm; qkv_conv;
                          Rearrange "b (i h d) x y -> i b h (x y) d"
                                    [("i", 3); ("h", heads)]]));
  change (child _ "output_projection")
    with (Ok (sequential [Rearrange "b h l d -> b l (h d)" [];
                          out_linear; Rearrange "b l d -> b d l" [];
                          out_norm; out_dropout]));
  change (child _ "residual_projection") with (Ok res);
  simpl.

Lemma SelfAttention_forward_Ok cin cout heads d m training (b h w : Z) :
  SelfAttention cin cout heads d = Ok m →
  0 < heads → cin `mod` heads = 0 →
  SelfAttention_forward training m [b; cin; h; w] = Ok [b; cout; h; w].
Proof.
  intros (qkv_norm & qkv_conv & out_linear & out_norm & out_dropout & res &
          H1 & H2 & H3 & H4 & H5 & H6 & ->)%SelfAttention_Ok Hpos Hmod.
  self_attention_children heads qkv_norm qkv_conv out_linear out_norm
                          out_dropout res.
  layers. rewrite rearrange_qkv.
  destruct (Z.eqb_spec heads 0); [lia|].
  rewrite (proj2 (heads_divide heads cin) (conj Hpos Hmod)). simpl.
  change (Shapes.unbind (3 :: ?x)) with (Ok [x; x; x]). simpl.
  unfold Shapes.attention. rewrite !Z.eqb_refl. simpl.
  layers. change (Shapes.rearrange "b h l d -> b l (h d)" [] [?b; ?h; ?l; ?d])
    with (Ok [b; l; h * d]). simpl.
  assert (heads * ((3 * cin) `div` (3 * heads)) = cin) as ->.
  { rewrite Z.div_mul_cancel_l by lia.
    rewrite (Z.div_mod cin heads) at 2 by lia. lia. }
  change [b; h * w; cin] with ([b; h * w] ++ [cin])%list.
  rewrite (forward_Linear training cin cout false out_linear [b; h * w] H3).
  simpl. layers.
  change (Shapes.rearrange "b l d -> b d l" [] [?b; ?l; ?d])
    with (Ok [b; d; l]). simpl. layers.
  change (Py.index [b; cin; h; w] (-2)) with (Ok h).
  change (Py.index [b; cin; h; w] (-1)) with (Ok w). simpl.
  rewrite rearrange_pixels. simpl. layers. apply broadcast_same.
Qed.

(** The split among the heads, for a number of heads that is not
    negative. *)
Lemma SelfAttention_forward_refused cin cout heads d m training (b h w : Z) :
  SelfAttention cin cout heads d = Ok m →
  0 ≤ heads → ¬ (0 < heads ∧ cin `mod` heads = 0) →
  SelfAttention_forward training m [b; cin; h; w] =
    Raise (if heads =? 0 then ZeroDivisionError else RuntimeError).
Proof.
  intros (qkv_norm & qkv_conv & out_linear & out_norm & out_dropout & res &
          H1 & H2 & H3 & H4 & H5 & H6 & ->)%SelfAttention_Ok Hnn Hheads.
  rewrite <- heads_divide in Hheads. apply not_true_is_false in Hheads.
  self_attention_children heads qkv_norm qkv_conv out_linear out_norm
                          out_dropout res.
  layers. rewrite rearrange_qkv.
  destruct (Z.eqb_spec heads 0); [done|]. by rewrite Hheads.
Qed.

(** X3: [SelfAttention] is built without a look at [n_heads]; its
    [forward] splits the channels among the heads.  On a non-empty batch
    of [in_channels] maps it returns [out_channels] maps of the size of
    the input when [n_heads] is positive and divides [in_channels]; with
    [n_heads = 0] the module builds and every call of it raises
    [ZeroDivisionError] (einops takes the channels modulo [3 * n_heads]);
    with a positive [n_heads] that does not divide [in_channels] every
    call raises [RuntimeError]. *)
Theorem SelfAttention_forward_heads cin cout heads d m training (b h w : Z) :
  SelfAttention cin cout heads d = Ok m →
  0 < b → 0 < h → 0 < w →
  (0 < heads → cin `mod` heads = 0 →
     SelfAttention_forward training m [b; cin; h; w] = Ok [b; cout; h; w]) ∧
  (heads = 0 →
     SelfAttention_forward training m [b; cin; h; w]
       = Raise ZeroDivisionError) ∧
  (0 < heads → cin `mod` heads ≠ 0 →
     SelfAttention_forward training m [b; cin; h; w] = Raise RuntimeError).
Proof.
  intros Hm _ _ _. split_and!.
  - intros Hpos Hmod. by apply (SelfAttention_forward_Ok cin cout heads d).
  - intros ->.
    by rewrite (SelfAttention_forward_refused _ _ _ _ _ training b h w Hm)
      by lia.
  - intros Hpos Hmod.
    rewrite (SelfAttention_forward_refused _ _ _ _ _ training b h w Hm)
      by lia.
    by destruct (Z.eqb_spec heads 0); [lia|].
Qed.

Lemma UNetBlockWithSelfAttention_Ok cin cout nlc heads d m :
  UNetBlockWithSelfAttention cin cout nlc heads d = Ok m →
  ∃ unet_block self_attention,
    UNetBlock cin cout nlc d = Ok unet_block ∧
    SelfAttention cout cout heads d = Ok self_attention ∧
    m = Node KUNetBlockWithSelfAttention []
          [("unet_block", unet_block); ("self_attention", self_attention)].
Proof.
  unfold UNetBlockWithSelfAttention. intros Hm.
  bind_inv Hm as unet_block Hblock. bind_inv Hm as self_attention Hatt.
  injection Hm as <-. by exists unet_block, self_attention.
Qed.

Lemma UNetBlockWithSelfAttention_forward_Ok cin cout nlc heads d m
    training (b h w : Z) :
  UNetBlockWithSelfAttention cin cout nlc heads d = Ok m →
  0 < heads → cout `mod` heads = 0 →
  UNetBlockWithSelfAttention_forward training m [b; cin; h; w] [b; nlc; 1; 1]
    = Ok [b; cout; h; w].
Proof.
  intros (unet_block & self_attention & Hblock & Hatt & ->)%UNetBlockWithSelfAttention_Ok
         Hpos Hmod.
  unfold UNetBlockWithSelfAttention_forward.
  change (child _ "unet_block") with (Ok unet_block).
  change (child _ "self_attention") with (Ok self_attention). simpl.
  rewrite (UNetBlock_forward_Ok _ _ _ _ _ training b h w Hblock). simpl.
  by apply (SelfAttention_forward_Ok cout cout heads d).
Qed.

(** X4: a mid block, [UNetBlockWithSelfAttention], is the residual block
    followed by attention over its [out_channels].  On a non-empty batch
    it maps [in_channels] feature maps to [out_channels] maps of the same
    height and width when [n_heads] is positive and divides
    [out_channels]; with [n_heads = 0] the block builds and its [forward]
    raises [ZeroDivisionError], after the residual block has run; with a
    positive [n_heads] that does not divide [out_channels] it raises
    [RuntimeError]. *)
Theorem UNetBlockWithSelfAttention_forward_shape cin cout nlc heads d m
    training (b h w : Z) :
  UNetBlockWithSelfAttention cin cout nlc heads d = Ok m →
  0 < b → 0 < h → 0 < w →
  (0 < heads → cout `mod` heads = 0 →
     UNetBlockWithSelfAttention_forward training m [b; cin; h; w]
                                        [b; nlc; 1; 1] = Ok [b; cout; h; w]) ∧
  (heads = 0 →
     UNetBlockWithSelfAttention_forward training m [b; cin; h; w]
                                        [b; nlc; 1; 1]
       = Raise ZeroDivisionError) ∧
  (0 < heads → cout `mod` heads ≠ 0 →
     UNetBlockWithSelfAttention_forward training m [b; cin; h; w]
                                        [b; nlc; 1; 1] = Raise RuntimeError).
Proof.
  intros Hm _ _ _.
  assert (0 ≤ heads → ¬ (0 < heads ∧ cout `mod` heads = 0) →
          UNetBlockWithSelfAttention_forward training m [b; cin; h; w]
                                             [b; nlc; 1; 1] =
            Raise (if heads =? 0 then ZeroDivisionError else RuntimeError))
    as Hrefused.
  { apply UNetBlockWithSelfAttention_Ok in Hm
      as (unet_block & self_attention & Hblock & Hatt & ->).
    intros Hnn Hheads. unfold UNetBlockWithSelfAttention_forward.
    change (child _ "unet_block") with (Ok unet_block).
    change (child _ "self_attention") with (Ok self_attention). simpl.
    rewrite (UNetBlock_forward_Ok _ _ _ _ _ training b h w Hblock). simpl.
    by apply (SelfAttention_forward_refused cout cout heads d). }
  split_and!.
  - intros Hpos Hmod.
    by apply (UNetBlockWithSelfAttention_forward_Ok cin cout nlc heads d).
  - intros ->. by rewrite Hrefused by lia.
  - intros Hpos Hmod. rewrite Hrefused by lia.
    by destruct (Z.eqb_spec heads 0); [lia|].
Qed.

(** ** Resampling *)

Lemma Downsample_Ok c m :
  Downsample c = Ok m →
  ∃ conv, Conv2d (4 * c) c 1 true = Ok conv ∧
    m = Node KDownsample []
          [("projection",
            sequential [Rearrange "b c (h ph) (w pw) -> b (c ph pw) h w"
                                  [("ph", 2); ("pw", 2)];
                        conv])].
Proof.
  unfold Downsample. intros Hm. bind_inv Hm as conv Hconv.
  injection Hm as <-. by exists conv.
Qed.

Lemma Upsample_Ok c m :
  Upsample c = Ok m →
  ∃ conv, Conv2d c c 3 true = Ok conv ∧
    m = Node KUpsample [] [("projection", sequential [nn_Upsample 2; conv])].
Proof.
  unfold Upsample. intros Hm. bind_inv Hm as conv Hconv.
  injection Hm as <-. by exists conv.
Qed.






(** ** The embedding of the noise level *)

Lemma NoiseLevelEmbedding_Ok c scale m :
  NoiseLevelEmbedding c scale = Ok m →
  ∃ lin1 lin2,
    Linear c (4 * c) true = Ok lin1 ∧ Linear (4 * c) c true = Ok lin2 ∧
    m = Node KNoiseLevelEmbedding [("W", mkPspec [c `div` 2] false)]
          [("projection",
            sequential [lin1; SiLU; lin2; Rearrange "b c -> b c () ()" []])].
Proof.
  unfold NoiseLevelEmbedding. intros Hm.
  bind_inv Hm as W HW. bind_inv Hm as lin1 H1. bind_inv Hm as lin2 H2.
  apply new_param_Ok in HW as [_ ->]. injection Hm as <-.
  by exists lin1, lin2.
Qed.

(** A column of noise levels times a row of frequencies. *)
Lemma broadcast_outer (b k : Z) :
  Shapes.broadcast [b; 1] [1; k] = Ok [b; k].
Proof.
  unfold Shapes.broadcast. cbn -[Z.eqb].
  destruct (Z.eqb_spec b 1) as [->|Hb]; cbn -[Z.eqb];
    destruct (Z.eqb_spec 1 k) as [<-|Hk]; by cbn -[Z.eqb].
Qed.

Lemma cat_features (b k : Z) :
  Shapes.cat (-1) [b; k] [b; k] = Ok [b; k + k].
Proof.
  unfold Shapes.cat. cbn. change (Shapes.norm_dim 2 (-1)) with (Ok 1%nat).
  cbn. by rewrite !bool_decide_true.
Qed.

(** The sines and cosines of the embedding, before the projection. *)
Lemma NoiseLevelEmbedding_features c lin1 lin2 training (b : Z) :
  NoiseLevelEmbedding_forward training
    (Node KNoiseLevelEmbedding [("W", mkPspec [c `div` 2] false)]
       [("projection",
         sequential [lin1; SiLU; lin2; Rearrange "b c -> b c () ()" []])])
    [b] =
  (h ← forward_layer training lin1 [b; c `div` 2 + c `div` 2];
   h ← forward_layer training lin2 h;
   Shapes.rearrange "b c -> b c () ()" [] h).
Proof.
  unfold NoiseLevelEmbedding_forward.
  change (param _ "W") with (Ok (mkPspec [c `div` 2] false)).
  change (child _ "projection")
    with (Ok (sequential [lin1; SiLU; lin2; Rearrange "b c -> b c () ()" []])).
  simpl.
  change (Shapes.unsqueeze_at 1 [b]) with (Ok [b; 1]).
  change (Shapes.unsqueeze_at 0 [c `div` 2]) with (Ok [1; c `div` 2]). simpl.
  rewrite broadcast_outer. simpl. rewrite cat_features. simpl.
  rewrite forward_sequential_layers. simpl.
  destruct (forward_layer training lin1 _) as [h|e]; [|done]. simpl.
  destruct (forward_layer training lin2 _) as [h2|e]; [|done]. simpl.
  by rewrite forward_Rearrange.
Qed.

Lemma NoiseLevelEmbedding_forward_Ok c scale m training (b : Z) :
  NoiseLevelEmbedding c scale = Ok m → c `mod` 2 = 0 →
  NoiseLevelEmbedding_forward training m [b] = Ok [b; c; 1; 1].
Proof.
  intros (lin1 & lin2 & H1 & H2 & ->)%NoiseLevelEmbedding_Ok Heven.
  rewrite NoiseLevelEmbedding_features.
  assert (c `div` 2 + c `div` 2 = c) as ->
    by (pose proof (Z.div_mod c 2 ltac:(lia)); lia).
  rewrite (forward_Linear training c (4 * c) true lin1 [b] H1 : 
             forward_layer training lin1 [b; c] = Ok [b; 4 * c]). simpl.
  by rewrite (forward_Linear training (4 * c) c true lin2 [b] H2 :
                forward_layer training lin2 [b; 4 * c] = Ok [b; c]).
Qed.

(** X7: [NoiseLevelEmbedding(channels)] keeps [channels // 2] random
    frequencies and concatenates their sines and cosines, which gives
    [2 * (channels // 2)] features for a projection that reads [channels]:
    with an even [channels] a batch of [b] noise levels becomes an
    embedding of shape [b, channels, 1, 1]; with an odd [channels] the
    module builds and its [forward] raises. *)
Theorem NoiseLevelEmbedding_forward_even c scale m training (b : Z) :
  NoiseLevelEmbedding c scale = Ok m →
  (c `mod` 2 = 0 →
     NoiseLevelEmbedding_forward training m [b] = Ok [b; c; 1; 1]) ∧
  (c `mod` 2 ≠ 0 →
     NoiseLevelEmbedding_forward training m [b] = Raise RuntimeError).
Proof.
  intros Hm. split; [by apply (NoiseLevelEmbedding_forward_Ok c scale)|].
  apply NoiseLevelEmbedding_Ok in Hm as (lin1 & lin2 & H1 & H2 & ->).
  intros Hodd. rewrite NoiseLevelEmbedding_features.
  assert (c `div` 2 + c `div` 2 ≠ c) as Hne
    by (pose proof (Z.div_mod c 2 ltac:(lia)); lia).
  by rewrite (forward_Linear_other training c (4 * c) true lin1 [b]
                (c `div` 2 + c `div` 2) H1 Hne :
                forward_layer training lin1 [b; c `div` 2 + c `div` 2] = _).
Qed.

(** ** The layout of the encoders and decoders *)

Section StructureFacts.
Context (make : block_fn result pspec).

Lemma encoder_inner_struct n d idx i o blocks :
  encoder_inner n make d idx i o = Ok blocks → enc_inner make n i o blocks.
Proof.
  revert i blocks. induction n as [|n IH]; intros i blocks Hrun; simpl in Hrun.
  - by injection Hrun as <-.
  - bind_inv Hrun as dv Hdv. bind_inv Hrun as blk Hblk.
    bind_inv Hrun as rest Hrest. injection Hrun as <-. simpl.
    split; [by exists dv|]. by apply IH.
Qed.

Lemma decoder_inner_struct n d idx i o blocks :
  decoder_inner n make d idx i o = Ok blocks → dec_inner make n i o blocks.
Proof.
  revert o blocks. induction n as [|n IH]; intros o blocks Hrun; simpl in Hrun.
  - by injection Hrun as <-.
  - bind_inv Hrun as dv Hdv. bind_inv Hrun as blk Hblk.
    bind_inv Hrun as rest Hrest. injection Hrun as <-. simpl.
    split; [by exists dv|]. by apply IH.
Qed.

Lemma index_drop {A} (l : list A) (j : nat) (x : A) :
  Py.index l (Z.of_nat j) = Ok x → drop j l = x :: drop (S j) l.
Proof.
  unfold Py.index. destruct (Z.ltb_spec (Z.of_nat j) 0); [lia|].
  destruct (_ && _); [|done]. rewrite Nat2Z.id.
  destruct (l !! j) as [y|] eqn:Hy; [|done]. intros [= <-].
  by apply drop_S.
Qed.

Lemma encoder_loop_struct pairs (j : nat) n r d blocks :
  encoder_loop pairs (Z.of_nat j) n r d make = Ok blocks →
  enc_struct make (mk_levels pairs (drop j (items n)) (drop j (items r))) blocks.
Proof.
  revert j blocks. induction pairs as [|[i o] pairs IH]; intros j blocks Hrun;
    simpl in Hrun.
  - by injection Hrun as <-.
  - bind_inv Hrun as k Hk. bind_inv Hrun as inner Hinner.
    bind_inv Hrun as flag Hflag. bind_inv Hrun as down Hdown.
    bind_inv Hrun as more Hmore. injection Hrun as <-.
    apply index_drop in Hk, Hflag. rewrite Hk, Hflag. simpl.
    exists inner, down, more. split_and!; [done| | |].
    + by eapply encoder_inner_struct.
    + destruct flag; simpl.
      * bind_inv Hdown as dn Hdn. injection Hdown as <-. by exists dn.
      * by injection Hdown as <-.
    + apply IH. by replace (Z.of_nat (S j)) with (Z.of_nat j + 1) by lia.
Qed.

Lemma decoder_loop_struct pairs (j : nat) n r d blocks :
  decoder_loop pairs (Z.of_nat j) n r d make = Ok blocks →
  dec_struct make (mk_levels pairs (drop j (reverse (items n)))
                             (drop j (reverse (items r)))) blocks.
Proof.
  revert j blocks. induction pairs as [|[o i] pairs IH]; intros j blocks Hrun;
    simpl in Hrun.
  - by injection Hrun as <-.
  - bind_inv Hrun as flag Hflag. bind_inv Hrun as up Hup.
    bind_inv Hrun as k Hk. bind_inv Hrun as inner Hinner.
    bind_inv Hrun as more Hmore. injection Hrun as <-.
    apply index_drop in Hk, Hflag. simpl in Hk, Hflag. rewrite Hk, Hflag. simpl.
    exists up, inner, more. split_and!; [done| | |].
    + destruct flag; simpl.
      * bind_inv Hup as u Hu. injection Hup as <-. by exists u.
      * by injection Hup as <-.
    + by eapply decoder_inner_struct.
    + apply IH. by replace (Z.of_nat (S j)) with (Z.of_nat j + 1) by lia.
Qed.




End StructureFacts.

(** ** The passes of [UNet.forward] over the resolutions *)


Section LevelsForward.
Context (training : bool) (b nlc : Z).
Context (make : block_fn result pspec) (is_block : Module pspec → bool).
Context (block_forward : bool → Module pspec → list Z → list Z → result (list Z)).
Context (good : Z → Prop).
Hypothesis Hmake : ∀ i o blk, made make i o blk →
  is_block blk = true ∧
  (good o → ∀ h w, block_forward training blk [b; i; h; w] [b; nlc; 1; 1]
                   = Ok [b; o; h; w]).
Hypothesis Hdown : ∀ c m, Downsample c = Ok m →
  is_block m = false ∧ mkind m = KDownsample.
Hypothesis Hup : ∀ c m, Upsample c = Ok m →
  is_block m = false ∧ mkind m = KUpsample.

Local Abbreviation enc := (encoder_pass training is_block block_forward).
Local Abbreviation dec := (decoder_pass training is_block block_forward).
Local Abbreviation nl := [b; nlc; 1; 1].









End LevelsForward.

(** ** The whole network *)














(** ** Which parameters take gradients *)

Lemma trainable_node k (ps : list (string * pspec)) cs :
  Forall (λ p, p_requires_grad p.2 = true) ps →
  Forall (λ c, trainable c.2) cs →
  trainable (Node k ps cs).
Proof.
  intros Hps Hcs prefix np Hnp. rewrite named_parameters_node in Hnp.
  apply elem_of_app in Hnp as [Hown|Hchild].
  - apply list_elem_of_fmap in Hown as (kp & -> & Hkp).
    rewrite Forall_forall in Hps. by apply Hps.
  - apply list_elem_of_In, in_concat in Hchild as (names & Hnames & Hin).
    apply in_map_iff in Hnames as (c & <- & Hc).
    apply list_elem_of_In in Hc, Hin.
    rewrite Forall_forall in Hcs. by apply (Hcs c Hc _ _ Hin).
Qed.

Lemma indexed_children_trainable (ms : list (Module pspec)) :
  Forall trainable ms →
  Forall (λ c, trainable c.2) (imap (λ (i : nat) l, (pretty i, l)) ms).
Proof.
  intros Hall. apply Forall_forall. intros c Hc.
  apply elem_of_lookup_imap_1 in Hc as (i & m & -> & Hm).
  rewrite Forall_forall in Hall. apply Hall.
  by eapply list_elem_of_lookup_2.
Qed.

Lemma sequential_trainable (layers : list (Module pspec)) :
  Forall trainable layers → trainable (sequential layers).
Proof.
  intros Hall. apply trainable_node; [constructor|].
  by apply indexed_children_trainable.
Qed.

Lemma module_list_trainable (blocks : list (Module pspec)) :
  Forall trainable blocks → trainable (module_list blocks).
Proof.
  intros Hall. apply trainable_node; [constructor|].
  by apply indexed_children_trainable.
Qed.

Lemma leaf_trainable k : trainable (Node k [] []).
Proof. apply trainable_node; constructor. Qed.

Lemma Conv2d_trainable cin cout k bias m :
  Conv2d cin cout k bias = Ok m → trainable m.
Proof.
  intros ->%Conv2d_form. apply trainable_node; [|constructor].
  destruct bias; by repeat constructor.
Qed.

Lemma Linear_trainable fin fout bias m :
  Linear fin fout bias = Ok m → trainable m.
Proof.
  intros ->%Linear_form. apply trainable_node; [|constructor].
  destruct bias; by repeat constructor.
Qed.

Lemma GroupNorm_trainable c m : GroupNorm c = Ok m → trainable m.
Proof.
  intros (_ & _ & _ & ->)%GroupNorm_Ok.
  apply trainable_node; by repeat constructor.
Qed.

Lemma Dropout1d_trainable p m : Dropout1d p = Ok m → trainable m.
Proof. intros [_ ->]%Dropout1d_form. apply leaf_trainable. Qed.

Lemma Dropout2d_trainable p m : Dropout2d p = Ok m → trainable m.
Proof. intros [_ ->]%Dropout2d_form. apply leaf_trainable. Qed.

Create HintDb trainable discriminated.
#[local] Hint Resolve Conv2d_trainable Linear_trainable GroupNorm_trainable
  Dropout1d_trainable Dropout2d_trainable leaf_trainable
  sequential_trainable : trainable.
#[local] Hint Constructors Forall : trainable.
#[local] Hint Extern 1 (trainable SiLU) => apply leaf_trainable : trainable.
#[local] Hint Extern 1 (trainable (Rearrange _ _)) =>
  apply leaf_trainable : trainable.
#[local] Hint Extern 1 (trainable (nn_Upsample _)) =>
  apply leaf_trainable : trainable.

Ltac block_trainable :=
  apply trainable_node; [constructor|];
  repeat (apply List.Forall_cons; [simpl; eauto 10 with trainable|]);
  apply List.Forall_nil.

Lemma UNetBlock_trainable cin cout nlc d m :
  UNetBlock cin cout nlc d = Ok m → trainable m.
Proof.
  intros (in_norm & in_conv & in_dropout & nl_conv & out_norm & out_conv &
          out_dropout & res & H1 & H2 & H3 & H4 & H5 & H6 & H7 & H8 & ->)%UNetBlock_Ok.
  block_trainable.
Qed.

Lemma SelfAttention_trainable cin cout heads d m :
  SelfAttention cin cout heads d = Ok m → trainable m.
Proof.
  intros (qkv_norm & qkv_conv & out_linear & out_norm & out_dropout & res &
          H1 & H2 & H3 & H4 & H5 & H6 & ->)%SelfAttention_Ok.
  block_trainable.
Qed.

#[local] Hint Resolve UNetBlock_trainable SelfAttention_trainable : trainable.

Lemma UNetBlockWithSelfAttention_trainable cin cout nlc heads d m :
  UNetBlockWithSelfAttention cin cout nlc heads d = Ok m → trainable m.
Proof.
  intros (unet_block & self_attention & Hblock & Hatt & ->)%UNetBlockWithSelfAttention_Ok.
  block_trainable.
Qed.

Lemma Downsample_trainable c m : Downsample c = Ok m → trainable m.
Proof. intros (conv & Hconv & ->)%Downsample_Ok. block_trainable. Qed.

Lemma Upsample_trainable c m : Upsample c = Ok m → trainable m.
Proof. intros (conv & Hconv & ->)%Upsample_Ok. block_trainable. Qed.

(** What holds of every block that is made holds of the blocks of an
    encoder and of a decoder. *)
Section Loops.
Context (P : Module pspec → Prop) (make : block_fn result pspec).
Hypothesis Hmake : ∀ i o d m, make i o d = Ok m → P m.
Hypothesis Hdown : ∀ c m, Downsample c = Ok m → P m.
Hypothesis Hup : ∀ c m, Upsample c = Ok m → P m.

Lemma enc_inner_Forall n i o ms : enc_inner make n i o ms → Forall P ms.
Proof.
  revert i ms. induction n as [|n IH]; intros i [|m ms] Hms; try done.
  destruct Hms as [[dv Hm] Hms]. constructor; [by eapply Hmake|by eapply IH].
Qed.

Lemma dec_inner_Forall n i o ms : dec_inner make n i o ms → Forall P ms.
Proof.
  revert o ms. induction n as [|n IH]; intros o [|m ms] Hms; try done.
  destruct Hms as [[dv Hm] Hms]. constructor; [by eapply Hmake|by eapply IH].
Qed.

Lemma enc_struct_Forall L ms : enc_struct make L ms → Forall P ms.
Proof.
  revert ms. induction L as [|lv L IH]; intros ms Hms.
  - simpl in Hms. subst. constructor.
  - destruct Hms as (inner & down & more & -> & Hinner & Hdn & Hmore).
    rewrite !Forall_app. split_and!.
    + by eapply enc_inner_Forall.
    + unfold resampler in Hdn. destruct (l_resampling lv).
      * destruct Hdn as (dn & Hdn & ->). constructor; [by eapply Hdown|constructor].
      * subst. constructor.
    + by apply IH.
Qed.

Lemma dec_struct_Forall L ms : dec_struct make L ms → Forall P ms.
Proof.
  revert ms. induction L as [|lv L IH]; intros ms Hms.
  - simpl in Hms. subst. constructor.
  - destruct Hms as (up & inner & more & -> & Hu & Hinner & Hmore).
    rewrite !Forall_app. split_and!.
    + unfold resampler in Hu. destruct (l_resampling lv).
      * destruct Hu as (u & Hu & ->). constructor; [by eapply Hup|constructor].
      * subst. constructor.
    + apply Forall_reverse. by eapply dec_inner_Forall.
    + by apply IH.
Qed.

Lemma make_encoder_blocks_Forall ch n r d enc :
  _make_encoder_blocks ch n r d make = Ok enc →
  ∃ blocks, enc = module_list blocks ∧ Forall P blocks.
Proof.
  unfold _make_encoder_blocks. intros Henc.
  bind_inv Henc as eb Heb. injection Henc as <-. exists eb. split; [done|].
  apply (encoder_loop_struct _ _ 0%nat) in Heb. by eapply enc_struct_Forall.
Qed.

Lemma make_decoder_blocks_Forall ch n r d dec :
  _make_decoder_blocks ch n r d make = Ok dec →
  ∃ blocks, dec = module_list blocks ∧ Forall P blocks.
Proof.
  unfold _make_decoder_blocks. intros Hdec.
  bind_inv Hdec as db Hdb. injection Hdec as <-. exists db. split; [done|].
  apply (decoder_loop_struct _ _ 0%nat) in Hdb. by eapply dec_struct_Forall.
Qed.

End Loops.

Lemma fst_unique {K V} (l : list (K * V)) (k : K) (v1 v2 : V) :
  NoDup l.*1 → (k, v1) ∈ l → (k, v2) ∈ l → v1 = v2.
Proof.
  intros Hnd H1 H2.
  apply list_elem_of_lookup in H1 as [i Hi]. apply list_elem_of_lookup in H2 as [j Hj].
  assert (l.*1 !! i = Some k) as Hi' by (by rewrite list_lookup_fmap, Hi).
  assert (l.*1 !! j = Some k) as Hj' by (by rewrite list_lookup_fmap, Hj).
  pose proof (NoDup_lookup _ _ _ _ Hnd Hi' Hj') as ->. congruence.
Qed.

(** The parameters of the network, module by module: the frequencies
    of the embedding of the noise level, and modules all of whose
    parameters take gradients. *)
Lemma UNet_parameters_split cfg m :
  UNet_modules cfg = Ok m →
  ∃ ip proj te me md td op,
    trainable ip ∧ trainable proj ∧ trainable te ∧ trainable me ∧
    trainable md ∧ trainable td ∧ trainable op ∧
    named_parameters m =
      (named_parameters_from ["input_projection"] ip ++
       ((["noise_level_embedding"; "W"],
         mkPspec [noise_level_channels cfg `div` 2] false) ::
        named_parameters_from ["noise_level_embedding"; "projection"] proj) ++
       named_parameters_from ["top_encoder_blocks"] te ++
       named_parameters_from ["mid_encoder_blocks"] me ++
       named_parameters_from ["mid_decoder_blocks"] md ++
       named_parameters_from ["top_decoder_blocks"] td ++
       named_parameters_from ["output_projection"] op)%list.
Proof.
  intros Hm. unfold UNet_modules in Hm.
  bind_inv Hm as top0 Htop. bind_inv Hm as ip Hip.
  bind_inv Hm as nle Hnle. bind_inv Hm as tch Htch.
  bind_inv Hm as te Hte. bind_inv Hm as mch Hmch.
  bind_inv Hm as me Hme. bind_inv Hm as md Hmd.
  bind_inv Hm as td Htd. bind_inv Hm as op Hop.
  injection Hm as <-.
  assert (∀ make ch n r d enc,
            (∀ i o dv blk, make i o dv = Ok blk → trainable blk) →
            _make_encoder_blocks ch n r d make = Ok enc → trainable enc)
    as Henc.
  { intros make ch n r d enc Hmake Hrun.
    destruct (make_encoder_blocks_Forall trainable make Hmake
                Downsample_trainable _ _ _ _ _ Hrun) as (blocks & -> & Hall).
    by apply module_list_trainable. }
  assert (∀ make ch n r d dec,
            (∀ i o dv blk, make i o dv = Ok blk → trainable blk) →
            _make_decoder_blocks ch n r d make = Ok dec → trainable dec)
    as Hdec.
  { intros make ch n r d dec Hmake Hrun.
    destruct (make_decoder_blocks_Forall trainable make Hmake
                Upsample_trainable _ _ _ _ _ Hrun) as (blocks & -> & Hall).
    by apply module_list_trainable. }
  assert (∀ i o dv blk, _make_top_block cfg i o dv = Ok blk → trainable blk)
    as Htopb by (intros i o dv blk; apply UNetBlock_trainable).
  assert (∀ i o dv blk, _make_mid_block cfg i o dv = Ok blk → trainable blk)
    as Hmidb by (intros i o dv blk; apply UNetBlockWithSelfAttention_trainable).
  apply Conv2d_trainable in Hip, Hop.
  apply (Henc _ _ _ _ _ _ Htopb) in Hte. apply (Henc _ _ _ _ _ _ Hmidb) in Hme.
  apply (Hdec _ _ _ _ _ _ Hmidb) in Hmd. apply (Hdec _ _ _ _ _ _ Htopb) in Htd.
  apply NoiseLevelEmbedding_Ok in Hnle as (lin1 & lin2 & Hl1 & Hl2 & ->).
  assert (trainable (sequential [lin1; SiLU; lin2;
                                 Rearrange "b c -> b c () ()" []])) as Hproj
    by eauto 10 with trainable.
  exists ip, (sequential [lin1; SiLU; lin2; Rearrange "b c -> b c () ()" []]),
         te, me, md, td, op.
  split_and!; try done.
  unfold named_parameters. rewrite named_parameters_node. simpl.
  rewrite !app_nil_r. reflexivity.
Qed.

(** X9: of all the parameters of the network that [UNet.__init__] builds,
    exactly one is created with [requires_grad=False]: the random
    frequencies [noise_level_embedding.W], of [noise_level_channels // 2]
    entries.  Every other parameter takes gradients. *)
Theorem only_noise_frequencies_frozen cfg m :
  UNet_modules cfg = Ok m →
  (["noise_level_embedding"; "W"],
   mkPspec [noise_level_channels cfg `div` 2] false) ∈ named_parameters m ∧
  ∀ np, np ∈ named_parameters m →
    (p_requires_grad np.2 = false ↔ np.1 = ["noise_level_embedding"; "W"]).
Proof.
  intros Hm. pose proof (UNet_names_NoDup _ _ Hm) as Hnd.
  destruct (UNet_parameters_split _ _ Hm)
    as (ip & proj & te & me & md & td & op &
        Hip & Hproj & Hte & Hme & Hmd & Htd & Hop & Hnames).
  set (W := (["noise_level_embedding"; "W"],
             mkPspec [noise_level_channels cfg `div` 2] false)) in *.
  assert (W ∈ named_parameters m) as HW.
  { rewrite Hnames. apply elem_of_app. right. apply elem_of_cons. by left. }
  split; [exact HW|]. intros [n p] Hnp. simpl. split.
  - intros Hfrozen. rewrite Hnames in Hnp.
    repeat (apply elem_of_app in Hnp as [Hnp|Hnp]);
      try (apply elem_of_cons in Hnp as [Hnp|Hnp]; [by injection Hnp as -> _|]);
      match goal with
      | Ht : trainable ?c, Hin : (n, p) ∈ named_parameters_from _ ?c |- _ =>
          specialize (Ht _ _ Hin); simpl in Ht; congruence
      end.
  - intros ->. by rewrite (fst_unique _ _ _ _ Hnd Hnp HW).
Qed.

(** ** The loop of the trainer *)

Section FitFacts.
Context `{Collaborators}.

(** What holds of every step and of every write of the trainer holds of
    the loop, whether it ends or raises.  [J] is what is known of the
    step counter. *)
Lemma fit_loop_rel self opt ms (Rel : State → State → Prop) (J : Z → Prop) :
  (∀ s, Rel s s) →
  (∀ s1 s2 s3, Rel s1 s2 → Rel s2 s3 → Rel s1 s3) →
  (∀ s, Rel s (trainer_write s).2) →
  (∀ gs, J gs → _is_max_limit_reached gs ms = false → J (gs + 1)) →
  (∀ gs batch idx s r s',
     J gs → _is_max_limit_reached gs ms = false →
     fit_batch self opt gs ms batch idx s = (r, s') → Rel s s') →
  ∀ batches gs idx s r s',
    J gs → fit_loop self opt gs ms idx batches s = (r, s') → Rel s s'.
Proof.
  intros Hrefl Htrans Hwrite Hnext Hstep.
  induction batches as [|batch rest IH]; intros gs idx s r s' HJ Hrun;
    simpl in Hrun.
  - injection Hrun as _ <-. apply Hrefl.
  - destruct (_is_max_limit_reached gs ms) eqn:Hstop.
    + injection Hrun as _ <-. apply Hrefl.
    + apply T_bind_inv in Hrun as [(u & s1 & Hone & Hrun)|(e & Hone & ->)];
        [|by eapply Hstep].
      apply (Htrans _ s1); [by eapply Hstep|].
      rewrite T_bind_unfold in Hrun.
      change (trainer_write s1) with (Ok tt, (trainer_write s1).2) in Hrun.
      apply (Htrans _ (trainer_write s1).2); [apply Hwrite|].
      apply (IH (gs + 1) (idx + 1) _ r s'); [by apply Hnext|done].
Qed.

Lemma fit_rel self opt ms (Rel : State → State → Prop) (J : Z → Prop) :
  (∀ s, Rel s s) →
  (∀ s1 s2 s3, Rel s1 s2 → Rel s2 s3 → Rel s1 s3) →
  (∀ s, Rel s (trainer_write s).2) →
  (∀ gs, J gs → _is_max_limit_reached gs ms = false → J (gs + 1)) →
  (∀ gs batch idx s r s',
     J gs → _is_max_limit_reached gs ms = false →
     fit_batch self opt gs ms batch idx s = (r, s') → Rel s s') →
  ∀ batches gs idx s r s',
    J gs → fit self opt gs ms idx batches s = (r, s') → Rel s s'.
Proof.
  intros Hrefl Htrans Hwrite Hnext Hstep batches gs idx s r s' HJ Hrun.
  unfold fit in Hrun.
  destruct (fit_loop self opt gs ms idx batches s) as [r1 s1] eqn:Hloop.
  injection Hrun as _ <-.
  apply (Htrans _ s1); [|apply Hwrite].
  by eapply (fit_loop_rel self opt ms Rel J).
Qed.

End FitFacts.

(** ** Training leaves the frozen parameters alone *)

Section FrozenFacts.
Context `{Collaborators}.

Lemma keeps_frozen_refl id s : keeps_frozen id s s.
Proof. by intros n c Hc _. Qed.

Lemma keeps_frozen_trans id s1 s2 s3 :
  keeps_frozen id s1 s2 → keeps_frozen id s2 s3 → keeps_frozen id s1 s3.
Proof. intros H12 H23 n c Hc Hrg. apply H23; [|done]. by apply H12. Qed.

Lemma keeps_frozen_cells id s s' : cells s' = cells s → keeps_frozen id s s'.
Proof. intros Hc n c Hn _. by rewrite Hc. Qed.

Lemma optimizer_step_keeps_frozen opt gs s r s' id :
  optimizer_step opt gs s = (r, s') → r = Ok tt ∧ keeps_frozen id s s'.
Proof.
  intros Hrun.
  destruct (alter_loop_rel (step_parameter opt gs)
              (λ n, (opt_network opt, n))
              (λ _ c c', requires_grad c = false → c' = c)
              (opt_params opt)) with (s := s) as (s1 & Hloop & [_ Hrel]).
  - done.
  - intros key c1 c2 c3 H12 H23 Hrg. rewrite H23; [by apply H12|].
    by rewrite (H12 Hrg).
  - intros n s0 _. right. eexists. split; [reflexivity|].
    intros c Hrg. simpl. by rewrite Hrg.
  - unfold optimizer_step in Hrun. rewrite T_bind_unfold, Hloop in Hrun.
    injection Hrun as <- <-. split; [done|]. intros n c Hc Hrg. simpl.
    specialize (Hrel (id, n)). rewrite Hc in Hrel.
    inversion Hrel as [c0 c' Hsame Hc0 Hc'|]; subst. by rewrite (Hsame Hrg).
Qed.

Lemma update_ema_keeps_frozen (online shadow : UNet) decay s r s' id :
  id ≠ unet_id shadow →
  update_ema_model_ online shadow decay s = (r, s') →
  r = Ok tt ∧ keeps_frozen id s s'.
Proof.
  intros Hid Hrun.
  destruct (update_ema_run online shadow decay s) as (cs & Hema & Hrel).
  rewrite Hema in Hrun. injection Hrun as <- <-. split; [done|].
  intros n c Hc _. simpl. specialize (Hrel (id, n)). rewrite Hc in Hrel.
  inversion Hrel as [c0 c' [Hsame _] Hc0 Hc'|]; subst.
  by rewrite (Hsame Hid).
Qed.

Lemma fit_batch_keeps_frozen self gs ms batch idx s r s' :
  unet_id (model self) ≠ unet_id (ema_model self) →
  fit_batch self (configure_optimizers self).1 gs ms batch idx s = (r, s') →
  keeps_frozen (unet_id (model self)) s s'.
Proof.
  intros Hid Hrun. unfold fit_batch in Hrun.
  rewrite T_bind_unfold in Hrun. simpl in Hrun.
  set (s0 := mkState _ _ _ _ _) in Hrun.
  assert (keeps_frozen (unet_id (model self)) s s0) as H0
    by (by apply keeps_frozen_cells).
  eapply keeps_frozen_trans; [exact H0|]. clear H0.
  apply T_bind_inv in Hrun as [(loss & s1 & Hstep & Hrun)|(e & Hstep & ->)].
  2: { apply training_step_quiet in Hstep as (Hc & _).
       by apply keeps_frozen_cells. }
  apply training_step_quiet in Hstep as (Hc1 & _).
  eapply keeps_frozen_trans; [by apply keeps_frozen_cells|].
  apply T_bind_inv in Hrun as [(u & s2 & Hopt & Hrun)|(e & Hopt & ->)].
  2: { by apply (optimizer_step_keeps_frozen _ _ _ _ _ (unet_id (model self)))
         in Hopt as [? _]. }
  apply (optimizer_step_keeps_frozen _ _ _ _ _ (unet_id (model self)))
    in Hopt as [_ Hopt].
  eapply keeps_frozen_trans; [exact Hopt|].
  unfold on_train_batch_end in Hrun.
  apply T_bind_inv in Hrun as [(u' & s3 & Hema & Hrun)|(e & Hema & ->)].
  2: { by apply (update_ema_keeps_frozen _ _ _ _ _ _ _ Hid) in Hema as [? _]. }
  apply (update_ema_keeps_frozen _ _ _ _ _ _ _ Hid) in Hema as [_ Hema].
  eapply keeps_frozen_trans; [exact Hema|].
  destruct (_ =? 0).
  - apply liftT_inv in Hrun as [_ ->]. apply keeps_frozen_refl.
  - destruct (_ || _).
    + apply monitoring_trace in Hrun as (Hc & _). by apply keeps_frozen_cells.
    + injection Hrun as _ <-. apply keeps_frozen_refl.
Qed.

Lemma fit_keeps_frozen self batches gs ms idx s r s' :
  unet_id (model self) ≠ unet_id (ema_model self) →
  fit self (configure_optimizers self).1 gs ms idx batches s = (r, s') →
  keeps_frozen (unet_id (model self)) s s'.
Proof.
  intros Hid Hrun.
  apply (fit_rel self (configure_optimizers self).1 ms
           (keeps_frozen (unet_id (model self))) (λ _, True))
    with (batches := batches) (gs := gs) (idx := idx) (r := r); try done.
  - apply keeps_frozen_refl.
  - apply keeps_frozen_trans.
  - intros s0. by apply keeps_frozen_cells.
  - intros gs0 batch idx0 s0 r0 s0' _ _ Hone.
    by eapply fit_batch_keeps_frozen.
Qed.

End FrozenFacts.

Section RunFacts.
Context `{Collaborators}.

(** The online network as [create_models] leaves it: every parameter is
    in the store with the shape and the [requires_grad] of its
    architecture. *)
Lemma create_models_online ucfg lcfg (s0 s1 : State) lit :
  create_models ucfg lcfg s0 = (Ok lit, s1) →
  UNet_modules ucfg = Ok (unet_modules (model lit)) ∧
  unet_modules (ema_model lit) = unet_modules (model lit) ∧
  unet_config (model lit) = ucfg ∧ config lit = lcfg ∧
  unet_id (model lit) ≠ unet_id (ema_model lit) ∧
  files s1 = files s0 ∧ trace s1 = trace s0 ∧
  ∀ np, np ∈ named_parameters (unet_modules (model lit)) →
    ∃ c, cells s1 !! (unet_id (model lit), np.1) = Some c ∧
         shape (value c) = p_shape np.2 ∧
         requires_grad c = p_requires_grad np.2.
Proof.
  intros Hcreate. unfold create_models in Hcreate.
  apply T_bind_inv in Hcreate as [(online & sA & HA & Hcreate)|(? & ? & ?)];
    [|done].
  apply T_bind_inv in Hcreate as [(shadow & sB & HB & Hcreate)|(? & ? & ?)];
    [|done].
  rewrite T_bind_unfold in Hcreate. simpl in Hcreate.
  apply T_bind_inv in Hcreate as [(u & sC & HC & Hcreate)|(? & ? & ?)];
    [|done].
  pose proof (UNet_init_Ok _ _ _ _ HA)
    as (HmA & HidA & HcfgA & _ & HnA & HfA & HtA & _ & _ & _).
  pose proof (UNet_init_stored _ _ _ _ HA) as [HstA HrgA].
  pose proof (UNet_init_Ok _ _ _ _ HB)
    as (HmB & HidB & _ & _ & _ & HfB & HtB & HframeB & _ & _).
  assert (unet_id online ≠ unet_id shadow) as Hids.
  { rewrite HidA, HidB, HnA. lia. }
  destruct (load_state_dict_inv _ _ _ _ _ HC) as ([(_ & _ & HfC & HtC) HrelC] & _ & _).
  unfold LitImprovedConsistencyModel_init in Hcreate.
  destruct (freeze_loop (unet_id shadow)
              (named_parameters (unet_modules shadow)) sC)
    as (sD & HD & [(_ & _ & HfD & HtD) HrelD] & _).
  rewrite T_bind_unfold, HD in Hcreate. injection Hcreate as <- <-.
  cbn [model ema_model config eval unet_id unet_modules unet_config].
  split_and!; try done; try congruence.
  intros np Hnp.
  destruct (HstA np Hnp) as (c & Hc & Hsh).
  specialize (HrgA np Hnp). rewrite Hc in HrgA. injection HrgA as HrgA.
  exists c. split_and!; try done.
  rewrite (frame_lookup _ _ _ (HrelD (unet_id online, np.1)))
    by (intros c1 c2 [Hf _]; by apply Hf).
  rewrite (frame_lookup _ _ _ (HrelC (unet_id online, np.1)))
    by (intros c1 c2 [Hf _]; by apply Hf).
  rewrite HframeB by done. done.
Qed.

(** X10: the frequencies [noise_level_embedding.W] of the online network
    are never trained.  They are created without gradients, the optimizer
    of [configure_optimizers] passes over them and nothing else in the
    training loop writes to the online network, so after any number of
    batches of [trainer.fit] they are the tensor they were when the
    network was created. *)
Theorem noise_frequencies_never_trained ucfg lcfg (s0 s1 s2 : State) lit
    gs ms idx batches r :
  create_models ucfg lcfg s0 = (Ok lit, s1) →
  fit lit (configure_optimizers lit).1 gs ms idx batches s1 = (r, s2) →
  ∃ c, cells s1 !! (unet_id (model lit), ["noise_level_embedding"; "W"])
         = Some c ∧
       shape (value c) = [noise_level_channels ucfg `div` 2] ∧
       requires_grad c = false ∧
       cells s2 !! (unet_id (model lit), ["noise_level_embedding"; "W"])
         = Some c.
Proof.
  intros Hcreate Hfit.
  destruct (create_models_online _ _ _ _ _ Hcreate)
    as (Hmods & _ & _ & _ & Hids & _ & _ & Hcells).
  destruct (UNet_parameters_split _ _ Hmods)
    as (ip & proj & te & me & md & td & op & _ & _ & _ & _ & _ & _ & _ & Hnames).
  assert ((["noise_level_embedding"; "W"],
           mkPspec [noise_level_channels ucfg `div` 2] false)
          ∈ named_parameters (unet_modules (model lit))) as HW.
  { rewrite Hnames. apply elem_of_app. right. apply elem_of_cons. by left. }
  destruct (Hcells _ HW) as (c & Hc & Hsh & Hrg). simpl in Hc, Hsh, Hrg.
  exists c. split_and!; try done.
  by apply (fit_keeps_frozen _ _ _ _ _ _ _ _ Hids Hfit).
Qed.

End RunFacts.

(** ** When the training loop monitors *)

Section ScheduleFacts.
Context `{Collaborators}.

Lemma trace_grows_refl P s : trace_grows P s s.
Proof. exists []. by rewrite app_nil_r. Qed.

Lemma trace_grows_trans P s1 s2 s3 :
  trace_grows P s1 s2 → trace_grows P s2 s3 → trace_grows P s1 s3.
Proof.
  intros (new1 & Ht1 & HP1) (new2 & Ht2 & HP2).
  exists (new1 ++ new2)%list. split.
  - by rewrite Ht2, Ht1, app_assoc.
  - by apply Forall_app.
Qed.

Lemma extends_trace_grows (P Q : event → Prop) s s' :
  (∀ e, P e → Q e) → extends_trace P s s' → trace_grows Q s s'.
Proof.
  intros HPQ (_ & _ & _ & new & Ht & HP). exists new. split; [done|].
  eapply Forall_impl; eauto.
Qed.

Lemma quiet_step_event e : quiet e → step_event e.
Proof. by destruct e. Qed.

(** A step whose hook does not monitor. *)
Lemma fit_batch_without_monitoring self opt gs ms batch idx s r s' :
  0 ≤ gs → gs + 2 < sample_every_n_steps (config self) →
  fit_batch self opt gs ms batch idx s = (r, s') →
  trace_grows step_event s s'.
Proof.
  intros Hgs Hn Hrun. unfold fit_batch in Hrun.
  apply T_bind_inv in Hrun as [(u0 & s0 & H0 & Hrun)|(e & H0 & ->)]; [|done].
  eapply trace_grows_trans.
  { apply (extends_trace_grows step_event); [done|].
    by apply (emit_extends step_event (EvTrainingStep gs) _ _ _ I H0). }
  apply T_bind_inv in Hrun as [(loss & s1 & Hstep & Hrun)|(e & Hstep & ->)].
  2: { apply training_step_quiet in Hstep.
       by eapply extends_trace_grows; [apply quiet_step_event|]. }
  apply training_step_quiet in Hstep.
  eapply trace_grows_trans;
    [by eapply extends_trace_grows; [apply quiet_step_event|]|].
  destruct (optimizer_step_run opt gs s1) as (cs & Hopt & _).
  rewrite T_bind_unfold, Hopt in Hrun.
  set (s2 := mkState cs _ _ _ _) in *.
  apply (trace_grows_trans _ _ s2).
  { exists [EvOptimizerStep (opt_network opt)]. split; [reflexivity|].
    by constructor. }
  unfold on_train_batch_end in Hrun.
  destruct (update_ema_run (model self) (ema_model self)
              (ema_decay_rate (config self)) s2) as (cs' & Hema & _).
  rewrite T_bind_unfold, Hema in Hrun.
  set (s3 := mkState cs' _ _ _ _) in *.
  apply (trace_grows_trans _ _ s3).
  { exists [EvEmaUpdate (unet_id (model self)) (unet_id (ema_model self))].
    split; [reflexivity|]. by constructor. }
  destruct (Z.eqb_spec (sample_every_n_steps (config self)) 0); [lia|].
  rewrite Z.mod_small in Hrun by lia.
  destruct (Z.eqb_spec (gs + 1 + 1) 0); [lia|].
  destruct (Z.eqb_spec (gs + 1) 0); [lia|].
  simpl in Hrun. injection Hrun as _ <-. apply trace_grows_refl.
Qed.

(** X11: the hook [on_train_batch_end] runs after the optimizer step, so
    it never sees [global_step == 0], and it samples only when
    [global_step + 1] is a multiple of [sample_every_n_steps].  With a
    limit of [max_steps] steps (not [-1], which sets none) and a period
    above [max_steps + 1], a run of [trainer.fit] from a non-negative
    step therefore never calls the sampler and never logs an image: its
    trace holds training steps, logged metrics, optimizer steps and EMA
    updates only.  The configuration of [main] (a period of 2100000 for
    200000 steps) is such a run. *)
Theorem fit_without_monitoring self opt batches gs ms idx s r s' :
  0 ≤ gs → 0 ≤ ms → ms + 1 < sample_every_n_steps (config self) →
  fit self opt gs ms idx batches s = (r, s') →
  ∃ new, trace s' = (trace s ++ new)%list ∧ Forall step_event new.
Proof.
  intros Hgs Hms Hn Hrun.
  apply (fit_rel self opt ms (trace_grows step_event) (λ gs, 0 ≤ gs))
    with (batches := batches) (gs := gs) (idx := idx) (r := r); try done.
  - apply trace_grows_refl.
  - apply trace_grows_trans.
  - intros s0. exists []. split; [by rewrite app_nil_r|constructor].
  - intros gs0 Hgs0 _. lia.
  - intros gs0 batch idx0 s0 r0 s0' Hgs0 Hstop Hone.
    unfold _is_max_limit_reached in Hstop.
    destruct (Z.eqb_spec ms (-1)); [lia|].
    destruct (Z.leb_spec ms gs0); [done|].
    eapply fit_batch_without_monitoring; [| |exact Hone]; lia.
Qed.

(** X12: [sample_every_n_steps = 0] does not switch monitoring off: the
    hook computes [(global_step + 1) % 0] and raises [ZeroDivisionError],
    at every step and after the EMA update of the step has been applied. *)
Theorem zero_period_raises self gs outputs batch idx s :
  sample_every_n_steps (config self) = 0 →
  ∃ s', update_ema_model_ (model self) (ema_model self)
                          (ema_decay_rate (config self)) s = (Ok tt, s') ∧
        on_train_batch_end self gs outputs batch idx s
          = (Raise ZeroDivisionError, s').
Proof.
  intros Hzero.
  destruct (update_ema_run (model self) (ema_model self)
              (ema_decay_rate (config self)) s) as (cs & Hema & _).
  eexists. split; [exact Hema|].
  unfold on_train_batch_end. by rewrite T_bind_unfold, Hema, Hzero.
Qed.

(** Clamping twice is clamping once. *)
Lemma clamp_unit_idempotent (t : Tensor) :
  clamp_unit (clamp_unit t) = clamp_unit t.
Proof.
  unfold clamp_unit, tensor_map. simpl. f_equal.
  rewrite map_map. apply map_ext. intros q.
  unfold Qmax, Qmin, GenericMinMax.gmax, GenericMinMax.gmin.
  destruct (q ?= 1)%Q eqn:H1.
  - destruct (-1 ?= q)%Q eqn:H2; rewrite ?H1, ?H2; try done.
  - destruct (-1 ?= q)%Q eqn:H2; rewrite ?H1, ?H2; try done.
  - done.
Qed.

(** The passes of the monitoring loop that all succeed. *)
Lemma sampling_loop_layout self gs noise sigmas_list s0 s s' :
  cells s = cells s0 →
  for_each (sample_one self gs noise) sigmas_list s = (Ok tt, s') →
  cells s' = cells s0 ∧
  ∃ samples,
    sampler_returns (reify s0 (ema_model self))
                    (unet_training (ema_model self)) noise
                    sigmas_list (gen s) samples (gen s') ∧
    trace s' =
      (trace s ++
       concat (zip_with
                 (λ sigmas t,
                    sampling_events (reify s0 (ema_model self))
                      (unet_training (ema_model self)) noise gs sigmas
                      (make_grid (clamp_unit t)))
                 sigmas_list samples))%list.
Proof.
  revert s. induction sigmas_list as [|sigmas rest IH]; intros s Hc Hrun.
  - injection Hrun as <-. split; [done|]. exists [].
    split; [done|]. by rewrite app_nil_r.
  - simpl in Hrun.
    apply T_bind_inv in Hrun as [(u & s1 & Hone & Hrun)|(e & Hone & ?)];
      [|done].
    unfold sample_one in Hone. rewrite T_bind_unfold in Hone. simpl in Hone.
    rewrite T_bind_unfold in Hone. simpl in Hone.
    rewrite T_bind_unfold in Hone. unfold with_gen at 1 in Hone. simpl in Hone.
    destruct (consistency_sampling _ _) as [[t|e] g] eqn:Hsample;
      [|done].
    unfold __log_images, emit in Hone. injection Hone as _ Hs1. subst s1.
    apply IH in Hrun as (Hc' & samples & Hret & Htr); [|exact Hc].
    split; [done|].
    exists (t :: samples). split.
    + simpl. exists g. split; [|exact Hret].
      by rewrite <- (reify_cells s s0).
    + rewrite Htr. simpl. rewrite <- !app_assoc. simpl.
      by rewrite (reify_cells s s0), clamp_unit_idempotent.
Qed.

(** X13: a monitoring pass that succeeds logs the head of the first
    tensor of the batch (the visible images of a batch of the loader) as
    ground truth, draws one noise tensor of the shape of that head, and
    then, for every schedule of [sampling_sigmas] in order, calls the
    sampler once on the shadow network with that same noise and logs the
    grid of what that call returned, clamped to [-1, 1]: one call and one
    grid per schedule, nothing else. *)
Theorem monitoring_trace_layout self gs batch s s' :
  __sample_and_log_samples self gs batch s = (Ok tt, s') →
  ∃ t b head noise s1 samples,
    first_of_batch batch = Ok t ∧ shape0 t = Ok b ∧
    tensor_slice_to t (Z.min (num_samples (config self)) b) = Ok head ∧
    randn_like head s = (Ok noise, s1) ∧
    shape noise = shape head ∧
    sampler_returns (reify s (ema_model self))
                    (unet_training (ema_model self)) noise
                    (sampling_sigmas (config self)) (gen s1)
                    samples (gen s') ∧
    trace s' =
      (trace s ++
       EvAddImage ground_truth (make_grid (clamp_unit head)) gs ::
       concat (zip_with
                 (λ sigmas t,
                    sampling_events (reify s (ema_model self))
                      (unet_training (ema_model self)) noise gs sigmas
                      (make_grid (clamp_unit t)))
                 (sampling_sigmas (config self)) samples))%list.
Proof.
  intros Hrun. unfold __sample_and_log_samples in Hrun.
  apply T_bind_inv in Hrun as [(t & s0 & H0 & Hrun)|(e & H0 & ?)]; [|done].
  apply liftT_inv in H0 as [H0 ->].
  apply T_bind_inv in Hrun as [(b & s0 & H1 & Hrun)|(e & H1 & ?)]; [|done].
  apply liftT_inv in H1 as [H1 ->].
  apply T_bind_inv in Hrun as [(head & s0 & H2 & Hrun)|(e & H2 & ?)]; [|done].
  apply liftT_inv in H2 as [H2 ->].
  apply T_bind_inv in Hrun as [(noise & s1 & Hrn & Hrun)|(e & Hrn & ?)];
    [|done].
  pose proof (randn_shape _ _ _ _ Hrn) as (noise' & [= <-] & Hnsh).
  assert (cells s1 = cells s ∧ trace s1 = trace s) as [Hc1 Ht1]
    by (by injection Hrn as _ <-).
  apply T_bind_inv in Hrun as [(head' & s0 & H3 & Hrun)|(e & H3 & ?)];
    [|done].
  apply liftT_inv in H3 as [H3 ->].
  assert (head' = head) as -> by congruence.
  apply T_bind_inv in Hrun as [(u & s2 & Hlog & Hrun)|(e & Hlog & ?)];
    [|done].
  injection Hlog as _ <-.
  apply (sampling_loop_layout _ _ _ _ s) in Hrun
    as (_ & samples & Hret & Htr); [|done].
  exists t, b, head, noise, s1, samples. split_and!; try done.
  rewrite Htr. simpl. rewrite Ht1. by rewrite <- app_assoc.
Qed.

End ScheduleFacts.

(** ** What a run leaves on disk *)

Lemma UNet_init_files config (s s' : State) r :
  UNet_init config s = (r, s') → files s' = files s.
Proof.
  destruct r as [net|e].
  - intros Hrun. by apply UNet_init_Ok in Hrun as (_ & _ & _ & _ & _ & ? & _).
  - intros Hrun. by apply UNet_init_refused in Hrun as (g & _ & ->).
Qed.

Section CheckpointFacts.
Context `{Collaborators}.

Lemma create_models_files ucfg lcfg (s0 s1 : State) r :
  create_models ucfg lcfg s0 = (r, s1) → files s1 = files s0.
Proof.
  intros Hcreate. unfold create_models in Hcreate.
  apply T_bind_inv in Hcreate as [(online & sA & HA & Hcreate)|(e & HA & _)];
    [|by eapply UNet_init_files].
  apply UNet_init_files in HA.
  apply T_bind_inv in Hcreate as [(shadow & sB & HB & Hcreate)|(e & HB & _)];
    [|apply UNet_init_files in HB; congruence].
  apply UNet_init_files in HB.
  rewrite T_bind_unfold in Hcreate. simpl in Hcreate.
  apply T_bind_inv in Hcreate as [(u & sC & HC & Hcreate)|(e & HC & _)].
  - destruct (load_state_dict_inv _ _ _ _ _ HC) as ([(_ & _ & HfC & _) _] & _).
    unfold LitImprovedConsistencyModel_init in Hcreate.
    destruct (freeze_loop (unet_id shadow)
                (named_parameters (unet_modules shadow)) sC)
      as (sD & HD & [(_ & _ & HfD & _) _] & _).
    rewrite T_bind_unfold, HD in Hcreate. injection Hcreate as _ <-.
    congruence.
  - destruct (load_state_dict_inv _ _ _ _ _ HC) as ([(_ & _ & HfC & _) _] & _).
    congruence.
Qed.

Lemma fit_batch_files self opt gs ms batch idx s r s' :
  fit_batch self opt gs ms batch idx s = (r, s') → files s' = files s.
Proof.
  intros Hrun. unfold fit_batch in Hrun.
  rewrite T_bind_unfold in Hrun. simpl in Hrun.
  apply T_bind_inv in Hrun as [(loss & s1 & Hstep & Hrun)|(e & Hstep & ->)];
    [|by apply training_step_quiet in Hstep as (_ & _ & ? & _)].
  apply training_step_quiet in Hstep as (_ & _ & Hf1 & _). simpl in Hf1.
  destruct (optimizer_step_run opt gs s1) as (cs & Hopt & _).
  rewrite T_bind_unfold, Hopt in Hrun.
  unfold on_train_batch_end in Hrun.
  set (s2 := mkState cs _ _ _ _) in *.
  destruct (update_ema_run (model self) (ema_model self)
              (ema_decay_rate (config self)) s2) as (cs' & Hema & _).
  rewrite T_bind_unfold, Hema in Hrun.
  destruct (_ =? 0).
  - apply liftT_inv in Hrun as [_ ->]. done.
  - destruct (_ || _).
    + apply monitoring_trace in Hrun as (_ & _ & Hf & _). simpl in Hf.
      congruence.
    + by injection Hrun as _ <-.
Qed.

(** A path the trainer does not write to keeps its file through
    [trainer.fit]. *)
Lemma fit_loop_keeps_path self opt batches gs ms idx s r s' p :
  (∀ st, trainer_files st !! p = files st !! p) →
  fit_loop self opt gs ms idx batches s = (r, s') → keeps_path p s s'.
Proof.
  intros Hp Hrun.
  apply (fit_loop_rel self opt ms (keeps_path p) (λ _, True))
    with (batches := batches) (gs := gs) (idx := idx) (r := r).
  - done.
  - intros s1 s2 s3 H12 H23. unfold keeps_path in *. congruence.
  - intros s0. unfold keeps_path. simpl. apply Hp.
  - done.
  - intros gs0 batch idx0 s0 r0 s0' _ _ Hone.
    apply fit_batch_files in Hone. unfold keeps_path. by rewrite Hone.
  - done.
  - done.
Qed.

End CheckpointFacts.

Section RunTrainingFacts.
Context `{Imaging} `{Collaborators}.

Lemma R_bind_unfold {A B} (m : R A) (k : A → R B) (w : World) (s : State) :
  (m ≫= k) w s = match m w s with
                 | (Ok a, w', s') => k a w' s'
                 | (Raise e, w', s') => (Raise e, w', s')
                 end.
Proof. reflexivity. Qed.

Lemma R_bind_inv {A B} (m : R A) (k : A → R B) w s r w' s' :
  (m ≫= k) w s = (r, w', s') →
  (∃ a w1 s1, m w s = (Ok a, w1, s1) ∧ k a w1 s1 = (r, w', s')) ∨
  (∃ e, m w s = (Raise e, w', s') ∧ r = Raise e).
Proof.
  rewrite R_bind_unfold. destruct (m w s) as [[[a|e] w1] s1].
  - intros Hk. left. by exists a, w1, s1.
  - intros [= <- <- <-]. right. by exists e.
Qed.

Lemma in_world_inv {A} (m : M A) w s r w' s' :
  in_world m w s = (r, w', s') → m w = (r, w') ∧ s' = s.
Proof. unfold in_world. destruct (m w) as [r0 w0]. by intros [= <- <- <-]. Qed.

Lemma in_state_inv {A} (m : T A) w s r w' s' :
  in_state m w s = (r, w', s') → m s = (r, s') ∧ w' = w.
Proof. unfold in_state. destruct (m s) as [r0 s0]. by intros [= <- <- <-]. Qed.

Lemma fit_datamodule_loop_keeps_path self opt dl sampled gs ms idx
    w s r w' s' p :
  (∀ st, trainer_files st !! p = files st !! p) →
  fit_datamodule_loop self opt dl gs ms idx sampled w s = (r, w', s') →
  keeps_path p s s'.
Proof.
  intros Hp. revert gs idx w s.
  induction sampled as [|indices rest IH]; intros gs idx w s Hrun;
    cbn [fit_datamodule_loop] in Hrun.
  - by injection Hrun as _ _ <-.
  - destruct (_is_max_limit_reached gs ms); [by injection Hrun as _ _ <-|].
    apply R_bind_inv in Hrun
      as [(batch & w1 & s1 & Hfetch & Hrun)|(e & Hfetch & _)].
    2: { apply in_world_inv in Hfetch as [_ ->]. done. }
    apply in_world_inv in Hfetch as [_ ->].
    apply R_bind_inv in Hrun as [(u & w2 & s2 & Hone & Hrun)|(e & Hone & _)].
    2: { apply in_state_inv in Hone as [Hone _].
         exact (fit_loop_keeps_path _ _ _ _ _ _ _ _ _ p Hp Hone). }
    apply in_state_inv in Hone as [Hone _].
    apply (fit_loop_keeps_path _ _ _ _ _ _ _ _ _ p Hp) in Hone.
    apply IH in Hrun. unfold keeps_path in *. congruence.
Qed.

Lemma fit_datamodule_keeps_path self dcfg ms sampled w s r w' s' p :
  (∀ st, trainer_files st !! p = files st !! p) →
  fit_datamodule self dcfg ms sampled w s = (r, w', s') → keeps_path p s s'.
Proof.
  intros Hp Hrun. unfold fit_datamodule in Hrun.
  match type of Hrun with
  | context [mbind ?k ?m w s] =>
      destruct (mbind k m w s) as [[r1 w1] s1] eqn:Hloop
  end.
  injection Hrun as _ _ <-.
  assert (keeps_path p s s1) as H1.
  { apply R_bind_inv in Hloop
      as [(ds & w2 & s2 & Hsetup & Hloop)|(e & Hsetup & _)].
    - apply in_world_inv in Hsetup as [_ ->].
      by eapply fit_datamodule_loop_keeps_path.
    - apply in_world_inv in Hsetup as [_ ->]. done. }
  unfold keeps_path in *. simpl. by rewrite Hp.
Qed.

(** X14: [run_training] saves the checkpoint only when training has run
    to its end, and what it saves is the online network: after a run
    that returns, [config.json] under [model_ckpt_path] holds the
    [UNetConfig] the run was given and [model.pt] the parameters of
    [lit_icm.model] as training left them (the EMA network is not
    saved), and the last line printed is [Model saved.].  A run that
    raises, in the set-up of the data, in construction or in training,
    has not touched these two files, provided the logger and the
    callbacks of the trainer write to other paths. *)
Theorem run_training_checkpoint dcfg ucfg lcfg ms path seed sampled
    (w w' : World) (s s' : State) r :
  run_training dcfg ucfg lcfg ms path seed sampled w s = (r, w', s') →
  (r = Ok tt →
     ∃ lit s1,
       create_models ucfg lcfg (seed_everything seed s).2 = (Ok lit, s1) ∧
       files s' !! Py.path_join path "config.json"
         = Some (JsonFile (config_to_json ucfg)) ∧
       files s' !! Py.path_join path "model.pt"
         = Some (TorchFile (state_dict s' (model lit))) ∧
       last (stdout w') = Some "Model saved.") ∧
  (∀ e, r = Raise e →
     ∀ p, p = Py.path_join path "config.json" ∨
          p = Py.path_join path "model.pt" →
       (∀ st, trainer_files st !! p = files st !! p) →
       files s' !! p = files s !! p).
Proof.
  intros Hrun. unfold run_training in Hrun.
  rewrite R_bind_unfold in Hrun.
  change (in_state (seed_everything seed) w s)
    with (Ok tt, w, (seed_everything seed s).2) in Hrun.
  set (s0 := (seed_everything seed s).2) in *.
  assert (files s0 = files s) as Hf0 by done.
  apply R_bind_inv in Hrun as [(ds & w1 & s1 & Hsetup & Hrun)|(e & Hsetup & ->)].
  2: { apply in_world_inv in Hsetup as [_ ->].
       split; [done|]. intros e' _ p _ _. by rewrite Hf0. }
  apply in_world_inv in Hsetup as [_ ->].
  rewrite R_bind_unfold in Hrun. simpl in Hrun.
  apply R_bind_inv in Hrun
    as [(lit & w2 & s2 & Hcreate & Hrun)|(e & Hcreate & ->)].
  2: { apply in_state_inv in Hcreate as [Hcreate _].
       apply create_models_files in Hcreate.
       split; [done|]. intros e' _ p _ _. congruence. }
  apply in_state_inv in Hcreate as [Hcreate ->].
  pose proof (create_models_online _ _ _ _ _ Hcreate)
    as (_ & _ & Hcfg & _ & _ & Hf1 & _).
  rewrite R_bind_unfold in Hrun. simpl in Hrun.
  rewrite R_bind_unfold in Hrun. simpl in Hrun.
  apply R_bind_inv in Hrun as [(u & w3 & s3 & Hfit & Hrun)|(e & Hfit & ->)].
  2: { split; [done|]. intros e' _ p _ Hp.
       apply (fit_datamodule_keeps_path _ _ _ _ _ _ _ _ _ p Hp) in Hfit.
       unfold keeps_path in Hfit. congruence. }
  rewrite R_bind_unfold in Hrun. simpl in Hrun.
  unfold save_pretrained in Hrun.
  rewrite R_bind_unfold in Hrun. simpl in Hrun.
  injection Hrun as <- <- <-.
  split; [|done]. intros _. exists lit, s2. split_and!; try done.
  - simpl. rewrite lookup_insert_ne, lookup_insert_eq; [by rewrite Hcfg|].
    intros Heq. by apply (checkpoint_paths_differ path).
  - simpl. by rewrite lookup_insert_eq.
  - simpl. by rewrite last_snoc.
Qed.

End RunTrainingFacts.

(** ** Loading: keys and partial configurations *)

(** X15: [from_pretrained] loads with the strictness of
    [load_state_dict]: a checkpoint that lacks a parameter of the rebuilt
    architecture, or holds a key the architecture has no parameter for,
    is refused with [RuntimeError] and no network is returned. *)
Theorem from_pretrained_strict_keys path doc cfg m sd (s s' : State) r :
  files s !! Py.path_join path "config.json" = Some (JsonFile doc) →
  config_of_json doc = Ok cfg →
  UNet_modules cfg = Ok m →
  files s !! Py.path_join path "model.pt" = Some (TorchFile sd) →
  from_pretrained path s = (r, s') →
  ((∃ np, np ∈ named_parameters m ∧ assoc np.1 sd = None) →
   r = Raise RuntimeError) ∧
  ((∃ kv, kv ∈ sd ∧ kv.1 ∉ (named_parameters m).*1) →
   r = Raise RuntimeError).
Proof.
  intros Hcfg Hdoc Hm Hpt Hrun.
  destruct (from_pretrained_run _ _ _ _ _ _ Hcfg Hdoc Hm Hpt)
    as (net & s1 & r1 & s2 & Hinit & Hmod & Hload & Hfrom).
  rewrite Hfrom in Hrun. injection Hrun as <- <-.
  destruct (load_state_dict_inv _ _ _ _ _ Hload) as (_ & Hr & _).
  rewrite Hmod in Hr. split.
  - intros (np & Hnp & Hnone).
    assert (forallb (entry_ok sd) (named_parameters m) = false) as Hbad.
    { apply not_true_is_false. intros Hall.
      pose proof (forallb_elem _ _ np Hall Hnp) as Hok.
      unfold entry_ok in Hok. by rewrite Hnone in Hok. }
    rewrite Hbad in Hr. by rewrite Hr.
  - intros (kv & Hkv & Hextra).
    assert (forallb (λ kv : name * Tensor,
                       bool_decide (kv.1 ∈ (named_parameters m).*1)) sd
            = false) as Hbad.
    { apply not_true_is_false. intros Hall.
      pose proof (forallb_elem _ _ kv Hall Hkv) as Hok. simpl in Hok.
      by apply bool_decide_eq_true_1 in Hok. }
    rewrite Hbad, andb_false_r in Hr. by rewrite Hr.
Qed.

(** [tuple + list] is refused, so the two channel sequences of a
    configuration that can be built are of one kind. *)
Lemma UNet_modules_kinds cfg m :
  UNet_modules cfg = Ok m →
  skind (top_blocks_channels cfg) = skind (mid_blocks_channels cfg).
Proof.
  unfold UNet_modules. intros Hm.
  bind_inv Hm as top0 Htop. bind_inv Hm as ip Hip.
  bind_inv Hm as nle Hnle. bind_inv Hm as tch Htch.
  unfold seq_add in Htch. by case_decide.
Qed.

Lemma field_kind {A} fields key (dec : json → result A) (default s : pyseq A) :
  field fields key (as_list dec) default = Ok s →
  skind s = match assoc key fields with
            | Some _ => List
            | None => skind default
            end.
Proof.
  unfold field. destruct (assoc key fields) as [j|]; [|by intros [= <-]].
  unfold as_list. destruct j; try done. intros Hs.
  bind_inv Hs as l' Hl'. by injection Hs as <-.
Qed.

Lemma partial_config_kinds fields cfg :
  config_of_json (JObj fields) = Ok cfg →
  (is_Some (assoc "top_blocks_channels" fields) ↔
   assoc "mid_blocks_channels" fields = None) →
  skind (top_blocks_channels cfg) ≠ skind (mid_blocks_channels cfg).
Proof.
  intros Hcfg Hone Hm.
  simpl in Hcfg. destruct (forallb _ fields); [|done].
  bind_inv Hcfg as c Hc. bind_inv Hcfg as nlc Hnlc.
  bind_inv Hcfg as nls Hnls. bind_inv Hcfg as nh Hnh.
  bind_inv Hcfg as tc Htc. bind_inv Hcfg as tn Htn.
  bind_inv Hcfg as tr Htr. bind_inv Hcfg as td Htd.
  bind_inv Hcfg as mc Hmc. bind_inv Hcfg as mn Hmn.
  bind_inv Hcfg as mr Hmr. bind_inv Hcfg as md Hmd.
  injection Hcfg as <-. simpl in Hm.
  apply field_kind in Htc, Hmc. rewrite Htc, Hmc in Hm. simpl in Hm.
  destruct (assoc "top_blocks_channels" fields) as [jt|];
    destruct (assoc "mid_blocks_channels" fields) as [jm|]; try done.
  + assert (Some jm = None) by (apply Hone; by eexists). done.
  + by destruct (proj2 Hone eq_refl) as [? ?].
Qed.

Lemma G_bind_unfold {A B} (m : G A) (k : A → G B) (g : Gen) :
  (m ≫= k) g = match m g with
               | (Ok a, g') => k a g'
               | (Raise e, g') => (Raise e, g')
               end.
Proof. reflexivity. Qed.

(** X16: every field of [UNetConfig] has a default, but a [config.json]
    that gives one of [top_blocks_channels] and [mid_blocks_channels] and
    leaves the other to its default cannot be loaded: the value read from
    the file is a list, the default is a tuple, and [UNet.__init__] adds
    the two.  [from_pretrained] raises before a network object exists:
    the parameters in the store, the identities, the files and the trace
    are as they were.  The generator is not: when the document is a
    configuration and the first two layers of [UNet.__init__] can be
    built, the exception is the [TypeError] of the sum and the generator
    is where the construction of [input_projection] and
    [noise_level_embedding] has left it. *)
Theorem partial_config_is_refused path fields (s : State) :
  files s !! Py.path_join path "config.json" = Some (JsonFile (JObj fields)) →
  (is_Some (assoc "top_blocks_channels" fields) ↔
   assoc "mid_blocks_channels" fields = None) →
  ∃ e s',
    from_pretrained path s = (Raise e, s') ∧
    cells s' = cells s ∧ next_id s' = next_id s ∧
    files s' = files s ∧ trace s' = trace s ∧
    ∀ cfg top0 ip g1 nle g2,
      config_of_json (JObj fields) = Ok cfg →
      seq_index (top_blocks_channels cfg) 0 = Ok top0 →
      Conv2d (F := G) (channels cfg * 2) top0 3 true (gen s) = (Ok ip, g1) →
      NoiseLevelEmbedding (F := G) (noise_level_channels cfg)
                          (noise_level_scale cfg) g1 = (Ok nle, g2) →
      e = TypeError ∧ gen s' = g2.
Proof.
  intros Hfile Hone. unfold from_pretrained.
  rewrite T_bind_unfold. unfold read_file at 1. rewrite Hfile.
  rewrite T_bind_unfold. unfold liftT at 1.
  rewrite T_bind_unfold. unfold liftT at 1.
  destruct (config_of_json (JObj fields)) as [cfg|e] eqn:Hcfg.
  2: { exists e, s. by split_and!. }
  pose proof (partial_config_kinds _ _ Hcfg Hone) as Hkinds.
  rewrite T_bind_unfold.
  destruct (UNet_init cfg s) as [[net|e] s1] eqn:Hinit.
  - exfalso. apply UNet_init_Ok in Hinit as (Hm & _).
    by apply UNet_modules_kinds in Hm.
  - apply UNet_init_refused in Hinit as (g & Hbuilt & ->).
    exists e, (mkState (cells s) (next_id s) g (files s) (trace s)).
    split_and!; try done.
    intros cfg' top0 ip g1 nle g2 [= <-] Htop Hip Hnle.
    unfold UNet_modules in Hbuilt.
    rewrite G_bind_unfold in Hbuilt. cbn [of_result drawing] in Hbuilt.
    rewrite Htop in Hbuilt.
    rewrite G_bind_unfold, Hip in Hbuilt.
    rewrite G_bind_unfold, Hnle in Hbuilt.
    rewrite G_bind_unfold in Hbuilt. cbn [of_result drawing] in Hbuilt.
    unfold seq_add in Hbuilt. cbn [seq_slice_to skind] in Hbuilt.
    destruct (decide _) as [Heq|_]; [done|].
    by injection Hbuilt as <- <-.
Qed.

(** ** The dataset and its loader *)

Lemma str_le_antisym (x y : string) : str_le x y → str_le y x → x = y.
Proof. apply String.leb_antisym. Qed.

Lemma sorted_unique (l1 l2 : list string) :
  l1 ≡ₚ l2 → StronglySorted str_le l1 → StronglySorted str_le l2 → l1 = l2.
Proof.
  revert l2. induction l1 as [|x l1 IH]; intros l2 Hperm H1 H2.
  - by apply Permutation_nil_l in Hperm.
  - destruct l2 as [|y l2]; [by apply Permutation_nil_r in Hperm|].
    apply StronglySorted_inv in H1 as [H1 Hx].
    apply StronglySorted_inv in H2 as [H2 Hy].
    assert (x = y) as ->.
    { assert (x ∈ y :: l2) as Hin1
        by (rewrite <- Hperm; apply elem_of_cons; by left).
      assert (y ∈ x :: l1) as Hin2
        by (rewrite Hperm; apply elem_of_cons; by left).
      apply elem_of_cons in Hin1 as [?|Hin1]; [done|].
      apply elem_of_cons in Hin2 as [?|Hin2]; [done|].
      rewrite List.Forall_forall in Hx, Hy.
      apply str_le_antisym.
      - by apply Hx, list_elem_of_In.
      - by apply Hy, list_elem_of_In. }
    f_equal. apply IH; [|done|done]. by apply Permutation_cons_inv in Hperm.
Qed.

Lemma sorted_of_permutation (l l' : list string) :
  l ≡ₚ l' → Py.sorted l = Py.sorted l'.
Proof.
  intros Hperm. apply sorted_unique; [|apply sorted_ordered..].
  by rewrite !sorted_perm.
Qed.

Lemma unit_to_symmetric (q : Q) :
  (0 <= q)%Q ∧ (q <= 1)%Q → (-1 <= q * 2 - 1)%Q ∧ (q * 2 - 1 <= 1)%Q.
Proof.
  destruct q as [a d]. unfold Qle. simpl. intros [H0 H1]. split; lia.
Qed.

Section LoaderFacts.
Context `{Imaging}.

(** X17: [LLVIPDataModule.setup] reads the two directories
    [datasets/LLVIP/visible/train] and [datasets/LLVIP/infrared/train],
    whatever [data_dir] and the other fields of the configuration say:
    only the crop and the resize size are taken from it.  The file lists
    of the dataset are the sorted listings, so they do not depend on the
    order in which [os.listdir] returns the names. *)
Theorem setup_reads_fixed_directories cfg ds :
  LLVIPDataModule_setup cfg = Ok ds →
  visible_dir ds = "datasets/LLVIP/visible/train" ∧
  infrared_dir ds = "datasets/LLVIP/infrared/train" ∧
  crop_size ds = image_size_crop cfg ∧
  resize_size ds = image_size_resize cfg ∧
  (∀ cfg', image_size_crop cfg' = image_size_crop cfg →
           image_size_resize cfg' = image_size_resize cfg →
           LLVIPDataModule_setup cfg' = Ok ds) ∧
  ∃ vis ir,
    listdir "datasets/LLVIP/visible/train" = Ok vis ∧
    listdir "datasets/LLVIP/infrared/train" = Ok ir ∧
    ∀ vis' ir', vis' ≡ₚ vis → ir' ≡ₚ ir →
      visible_images ds = Py.sorted vis' ∧
      infrared_images ds = Py.sorted ir'.
Proof.
  intros Hsetup. pose proof Hsetup as Hinit.
  unfold LLVIPDataModule_setup in Hinit.
  destruct (init_listings _ _ _ _ _ _ Hinit)
    as (vis & ir & Hv & Hr & Hvd & Hrd & Hvi & Hri).
  unfold PairedDataset_init in Hinit. rewrite Hv, Hr in Hinit.
  simpl in Hinit. injection Hinit as <-. simpl.
  split_and!; try done.
  - intros cfg' Hc Hs. unfold LLVIPDataModule_setup, PairedDataset_init.
    rewrite Hv, Hr. simpl. by rewrite Hc, Hs.
  - exists vis, ir. split_and!; try done. intros vis' ir' Hpv Hpr.
    by rewrite (sorted_of_permutation _ _ Hpv), (sorted_of_permutation _ _ Hpr).
Qed.

(** X18: on a pair of images of one size [__getitem__] draws one flip
    and one crop box and applies both to the visible and to the infrared
    image alike; the box has the crop size and lies inside the image, and
    nothing is printed.  If the crop size exceeds the image in height or
    in width, the pair is not skipped: [__getitem__] raises
    [ValueError]. *)
Theorem getitem_augments_in_step ds (i : Z) (w : World) vp ip v r
    (width height : Z) :
  (∀ img, image_size (hflip img) = image_size img) →
  (∀ low high g, low < high →
     low ≤ (torch_randint low high g).1 < high) →
  item_paths ds i = Ok (vp, ip) →
  image_open vp = Ok v → image_open ip = Ok r →
  image_size v = (width, height) → image_size r = (width, height) →
  ((crop_size ds).1 ≤ height ∧ (crop_size ds).2 ≤ width →
     ∃ flip top left w',
       PairedDataset_getitem ds i w =
         (Ok (Some (augmented ds flip top left v,
                    augmented ds flip top left r)), w') ∧
       0 ≤ top ∧ top + (crop_size ds).1 ≤ height ∧
       0 ≤ left ∧ left + (crop_size ds).2 ≤ width ∧
       stdout w' = stdout w) ∧
  (¬ ((crop_size ds).1 ≤ height ∧ (crop_size ds).2 ≤ width) →
     ∃ w', PairedDataset_getitem ds i w = (Raise ValueError, w') ∧
           stdout w' = stdout w).
Proof.
  intros Hflip Hrand Hpaths Hv Hr Hsv Hsr.
  remember (PairedDataset_getitem ds i w) as run eqn:Hrun.
  unfold PairedDataset_getitem in Hrun. rewrite Hpaths in Hrun. simpl in Hrun.
  unfold mbind, M_bind, bind, lift in Hrun. rewrite Hv, Hr in Hrun.
  rewrite bool_decide_false in Hrun by (rewrite Hsv, Hsr; by intros []).
  unfold draw at 1 in Hrun. destruct (torch_rand (rng w)) as [q g1] eqn:Hq.
  set (flip := negb (Qle_bool q (1 # 2))) in *.
  set (v' := if flip then hflip v else v) in *.
  set (r' := if flip then hflip r else r) in *.
  assert (image_size v' = (width, height)) as Hsv'
    by (unfold v'; destruct flip; by rewrite ?Hflip).
  unfold get_params in Hrun. rewrite Hsv' in Hrun.
  unfold lift, mbind, M_bind, bind, draw, ret in Hrun.
  destruct (crop_size ds) as [th tw] eqn:Hcs. simpl in Hrun |- *.
  assert (∀ top left,
    augmented ds flip top left v =
      match transform ds with
      | Some t => t (resize (crop v' top left th tw) (resize_size ds))
      | None => PImage (resize (crop v' top left th tw) (resize_size ds))
      end ∧
    augmented ds flip top left r =
      match transform ds with
      | Some t => t (resize (crop r' top left th tw) (resize_size ds))
      | None => PImage (resize (crop r' top left th tw) (resize_size ds))
      end) as Haug.
  { intros top left. unfold augmented. by rewrite Hcs. }
  split.
  - intros [Hth Htw].
    destruct (Z.ltb_spec height th); [lia|].
    destruct (Z.ltb_spec width tw); [lia|]. simpl in Hrun.
    destruct ((width =? tw) && (height =? th)) eqn:Hsame.
    + apply andb_true_iff in Hsame as [Hw%Z.eqb_eq Hh%Z.eqb_eq].
      exists flip, 0, 0, {| stdout := stdout w; rng := g1 |}.
      split_and!; try lia; [|done].
      destruct (Haug 0 0) as [-> ->]. rewrite Hrun, Hw, Hh.
      by destruct (transform ds).
    + pose proof (Hrand 0 (height - th + 1) g1 ltac:(lia)) as Htop.
      cbn [rng stdout] in Hrun.
      destruct (torch_randint 0 (height - th + 1) g1) as [top g2] eqn:Hdraw1.
      rewrite ?Hdraw1 in Hrun. cbn [rng stdout] in Hrun.
      pose proof (Hrand 0 (width - tw + 1) g2 ltac:(lia)) as Hleft.
      destruct (torch_randint 0 (width - tw + 1) g2) as [left g3] eqn:Hdraw2.
      rewrite ?Hdraw2 in Hrun.
      simpl in *. exists flip, top, left, {| stdout := stdout w; rng := g3 |}.
      split_and!; try lia; [|done].
      destruct (Haug top left) as [-> ->]. rewrite Hrun.
      by destruct (transform ds).
  - intros Hsmall. exists {| stdout := stdout w; rng := g1 |}.
    split; [|done]. rewrite Hrun.
    destruct (Z.ltb_spec height th); [done|].
    destruct (Z.ltb_spec width tw); [done|]. lia.
Qed.

(** X19: the dataset that [LLVIPDataModule.setup] builds hands out
    tensors normalised to [-1, 1]: if [ToTensor] gives values in [0, 1],
    as it does for the 8-bit images of the dataset, then both tensors of
    every pair that [__getitem__] returns have all their values in
    [-1, 1]. *)
Theorem setup_items_are_normalised cfg ds (i : Z) (w w' : World) a b :
  (∀ img, within 0 1 (to_tensor img)) →
  LLVIPDataModule_setup cfg = Ok ds →
  PairedDataset_getitem ds i w = (Ok (Some (a, b)), w') →
  ∃ ta tb, a = PTensor ta ∧ b = PTensor tb ∧
           within (-1) 1 ta ∧ within (-1) 1 tb.
Proof.
  intros Hunit Hsetup Hget.
  assert (transform ds = Some setup_transform) as Htr.
  { unfold LLVIPDataModule_setup in Hsetup.
    destruct (init_listings _ _ _ _ _ _ Hsetup) as (vis & ir & Hv & Hr & _).
    unfold PairedDataset_init in Hsetup. rewrite Hv, Hr in Hsetup.
    simpl in Hsetup. by injection Hsetup as <-. }
  assert (∀ img, ∃ t, setup_transform img = PTensor t ∧ within (-1) 1 t)
    as Hnorm.
  { intros img. eexists. split; [reflexivity|].
    unfold within, tensor_map. simpl. apply Forall_map.
    eapply Forall_impl; [apply (Hunit img)|].
    intros q Hq. by apply unit_to_symmetric. }
  unfold PairedDataset_getitem in Hget.
  unfold mbind, M_bind, bind, lift in Hget.
  destruct (item_paths ds i) as [[vp ip]|]; [|done].
  destruct (image_open vp) as [v|]; [|done].
  destruct (image_open ip) as [r|]; [|done].
  case_bool_decide; [done|].
  unfold draw at 1 in Hget. destruct (torch_rand (rng w)) as [q g1].
  destruct (get_params _ _ _) as [[[[[top left] h] wd]|] w1]; [|done].
  rewrite Htr in Hget. unfold ret in Hget. injection Hget as <- <- _.
  destruct (Hnorm (resize (crop (if negb (Qle_bool q (1 # 2)) then hflip v else v)
                                top left h wd) (resize_size ds)))
    as (ta & Hta & Hwa).
  destruct (Hnorm (resize (crop (if negb (Qle_bool q (1 # 2)) then hflip r else r)
                                top left h wd) (resize_size ds)))
    as (tb & Htb & Hwb).
  by exists ta, tb.
Qed.

Lemma mapM_world_length {A B} (f : A → M B) (l : list A) (w w' : World) ys :
  mapM f l w = (Ok ys, w') → length ys = length l.
Proof.
  revert w ys. induction l as [|x l IH]; intros w ys Hm.
  - by injection Hm as <- _.
  - simpl in Hm. unfold mbind, M_bind, bind in Hm.
    destruct (f x w) as [[y|e] w1]; [|done].
    destruct (mapM f l w1) as [[ys'|e] w2] eqn:Hrest; [|done].
    unfold mret, M_ret, ret in Hm. injection Hm as <- <-.
    simpl. f_equal. by eapply IH.
Qed.

Lemma mapM_result_length {A B} (f : A → result B) (l : list A) ys :
  mapM f l = Ok ys → length ys = length l.
Proof.
  revert ys. induction l as [|x l IH]; intros ys Hm.
  - by injection Hm as <-.
  - simpl in Hm. bind_inv Hm as y Hy. bind_inv Hm as ys' Hys.
    injection Hm as <-. simpl. f_equal. by apply IH.
Qed.

Lemma stack_rows (ts : list Tensor) t :
  stack ts = Ok t → shape0 t = Ok (Z.of_nat (length ts)) ∧ ts ≠ [].
Proof.
  unfold stack. destruct ts as [|t0 rest]; [done|].
  destruct (forallb _ rest); [|done]. by intros [= <-].
Qed.

Lemma mapM_tensor_pairs (items : list item) pairs :
  mapM as_tensor_pair items = Ok pairs →
  items = (λ p : Tensor * Tensor, Some (PTensor p.1, PTensor p.2)) <$> pairs.
Proof.
  revert pairs. induction items as [|it items IH]; intros pairs Hm.
  - by injection Hm as <-.
  - simpl in Hm. bind_inv Hm as p Hp. bind_inv Hm as ps Hps.
    injection Hm as <-. rewrite fmap_cons. f_equal; [|by apply IH].
    unfold as_tensor_pair in Hp.
    destruct it as [[[|a] [|b]]|]; try done. by injection Hp as <-.
Qed.

(** X20: a batch that the loader of [train_dataloader] delivers is the
    list of exactly two tensors: the stack of the first components of the
    pairs that [__getitem__] returned for the sampled indices, in their
    order, and then the stack of their second components, so the visible
    images first and the infrared images second, one row per index.  It
    is what [training_step] unpacks into its two halves, and its first
    tensor, the visible images, is what monitoring takes as the batch. *)
Theorem fetched_batch_is_a_pair cfg ds indices (w w' : World) batch :
  DataLoader_fetch (train_dataloader cfg ds) indices w = (Ok batch, w') →
  ∃ (pairs : list (Tensor * Tensor)) visible infrared,
    mapM (PairedDataset_getitem ds) indices w =
      (Ok ((λ p : Tensor * Tensor, Some (PTensor p.1, PTensor p.2)) <$> pairs),
       w') ∧
    length pairs = length indices ∧
    indices ≠ [] ∧
    stack (pairs.*1) = Ok visible ∧
    stack (pairs.*2) = Ok infrared ∧
    batch = [visible; infrared] ∧
    shape0 visible = Ok (Z.of_nat (length indices)) ∧
    shape0 infrared = Ok (Z.of_nat (length indices)) ∧
    unpack2 (BList batch) = Ok (visible, infrared) ∧
    first_of_batch (BList batch) = Ok visible.
Proof.
  unfold DataLoader_fetch. simpl. unfold mbind, M_bind, bind, lift.
  destruct (mapM (PairedDataset_getitem ds) indices w)
    as [[items|e] w1] eqn:Hitems; [|done].
  intros [= Hcollate <-].
  pose proof (mapM_world_length _ _ _ _ _ Hitems) as Hlen_items.
  unfold default_collate in Hcollate.
  destruct items as [|it items]; [done|].
  bind_inv Hcollate as pairs Hpairs. bind_inv Hcollate as a Ha.
  bind_inv Hcollate as b Hb. injection Hcollate as <-.
  pose proof (mapM_result_length _ _ _ Hpairs) as Hlen_pairs.
  apply mapM_tensor_pairs in Hpairs.
  pose proof (stack_rows _ _ Ha) as [Ha0 _].
  pose proof (stack_rows _ _ Hb) as [Hb0 _].
  rewrite length_fmap in Ha0, Hb0.
  assert (length pairs = length indices) as Hlen
    by (etrans; [exact Hlen_pairs|exact Hlen_items]).
  rewrite Hlen in Ha0, Hb0.
  exists pairs, a, b. split_and!; try done.
  - by rewrite <- Hpairs.
  - intros ->. done.
Qed.

End LoaderFacts.

(** * Further concrete runs *)

Section BlockRuns.

Lemma GroupNorm_widths_witness :
  0 ≤ 128 ∧
  GroupNorm 128 =
    Ok (Node (KGroupNorm 32 128)
             [("weight", mkPspec [128] true); ("bias", mkPspec [128] true)] []).
Proof.
  assert (0 ≤ 128) as Hc by lia.
  destruct (GroupNorm_widths 128 Hc) as (_ & _ & Hok).
  exact (conj Hc (Hok ltac:(lia) eq_refl)).
Defined.

Lemma UNetBlock_forward_shape_witness :
  ∃ m, UNetBlock 4 8 4 0 = Ok m ∧
       UNetBlock_forward true m [2; 4; 6; 6] [2; 4; 1; 1] = Ok [2; 8; 6; 6] ∧
       UNetBlock_forward true m [2; 3; 6; 6] [2; 4; 1; 1]
         = Raise RuntimeError ∧
       UNetBlock_forward true m [1; 1; 1; 1] [1; 4; 1; 1] = Raise ValueError.
Proof.
  destruct (UNetBlock 4 8 4 0) as [m|e] eqn:Hm; [|by vm_compute in Hm].
  exists m.
  pose proof (UNetBlock_forward_shape 4 8 4 0 m true 2 6 6 Hm
                eq_refl eq_refl eq_refl) as [Hok Hwide].
  pose proof (UNetBlock_forward_shape 4 8 4 0 m true 1 1 1 Hm
                eq_refl eq_refl eq_refl) as [_ Hone].
  exact (conj eq_refl
          (conj Hok
            (conj (Hwide 3 [2; 4; 1; 1] ltac:(discriminate))
                  (Hone 1 [1; 4; 1; 1] ltac:(discriminate))))).
Defined.

Lemma SelfAttention_forward_heads_witness :
  (∃ m, SelfAttention 8 8 2 0 = Ok m ∧
        SelfAttention_forward true m [1; 8; 4; 4] = Ok [1; 8; 4; 4]) ∧
  (∃ m, SelfAttention 8 8 0 0 = Ok m ∧
        SelfAttention_forward true m [1; 8; 4; 4] = Raise ZeroDivisionError) ∧
  (∃ m, SelfAttention 8 8 3 0 = Ok m ∧
        SelfAttention_forward true m [1; 8; 4; 4] = Raise RuntimeError).
Proof.
  split_and!.
  - destruct (SelfAttention 8 8 2 0) as [m|e] eqn:Hm; [|by vm_compute in Hm].
    exists m. split; [reflexivity|].
    by apply (SelfAttention_forward_heads 8 8 2 0 m true 1 4 4 Hm).
  - destruct (SelfAttention 8 8 0 0) as [m|e] eqn:Hm; [|by vm_compute in Hm].
    exists m. split; [reflexivity|].
    by apply (SelfAttention_forward_heads 8 8 0 0 m true 1 4 4 Hm).
  - destruct (SelfAttention 8 8 3 0) as [m|e] eqn:Hm; [|by vm_compute in Hm].
    exists m. split; [reflexivity|].
    by apply (SelfAttention_forward_heads 8 8 3 0 m true 1 4 4 Hm).
Defined.

Lemma UNetBlockWithSelfAttention_forward_shape_witness :
  (∃ m, UNetBlockWithSelfAttention 4 8 4 2 0 = Ok m ∧
        UNetBlockWithSelfAttention_forward true m [2; 4; 6; 6] [2; 4; 1; 1]
          = Ok [2; 8; 6; 6]) ∧
  (∃ m, UNetBlockWithSelfAttention 4 8 4 0 0 = Ok m ∧
        UNetBlockWithSelfAttention_forward true m [2; 4; 6; 6] [2; 4; 1; 1]
          = Raise ZeroDivisionError).
Proof.
  split.
  - destruct (UNetBlockWithSelfAttention 4 8 4 2 0) as [m|e] eqn:Hm;
      [|by vm_compute in Hm].
    exists m. split; [reflexivity|].
    by apply (UNetBlockWithSelfAttention_forward_shape 4 8 4 2 0 m true 2 6 6 Hm).
  - destruct (UNetBlockWithSelfAttention 4 8 4 0 0) as [m|e] eqn:Hm;
      [|by vm_compute in Hm].
    exists m. split; [reflexivity|].
    by apply (UNetBlockWithSelfAttention_forward_shape 4 8 4 0 0 m true 2 6 6 Hm).
Defined.



Lemma NoiseLevelEmbedding_forward_even_witness :
  (∃ m, NoiseLevelEmbedding 4 (2 # 100) = Ok m ∧
        NoiseLevelEmbedding_forward true m [2] = Ok [2; 4; 1; 1]) ∧
  (∃ m, NoiseLevelEmbedding 5 (2 # 100) = Ok m ∧
        NoiseLevelEmbedding_forward true m [2] = Raise RuntimeError).
Proof.
  split.
  - destruct (NoiseLevelEmbedding 4 (2 # 100)) as [m|e] eqn:Hm;
      [|by vm_compute in Hm].
    exists m. split; [reflexivity|].
    by apply (NoiseLevelEmbedding_forward_even 4 (2 # 100) m true 2 Hm).
  - destruct (NoiseLevelEmbedding 5 (2 # 100)) as [m|e] eqn:Hm;
      [|by vm_compute in Hm].
    exists m. split; [reflexivity|].
    by apply (NoiseLevelEmbedding_forward_even 5 (2 # 100) m true 2 Hm).
Defined.


End BlockRuns.

Section TrainingRuns.
Import Fixture Cases.

Lemma only_noise_frequencies_frozen_witness :
  UNet_modules tiny = Ok tiny_modules ∧
  (["noise_level_embedding"; "W"],
   mkPspec [noise_level_channels tiny `div` 2] false)
    ∈ named_parameters tiny_modules ∧
  ∀ np, np ∈ named_parameters tiny_modules →
    (p_requires_grad np.2 = false ↔ np.1 = ["noise_level_embedding"; "W"]).
Proof.
  assert (UNet_modules tiny = Ok tiny_modules) as Hm
    by (vm_compute; reflexivity).
  exact (conj Hm (only_noise_frequencies_frozen tiny tiny_modules Hm)).
Defined.

Lemma tiny_created :
  create_models tiny tiny_lit_config initial_state = (Ok tiny_lit, tiny_state).
Proof.
  assert (is_ok (create_models tiny tiny_lit_config initial_state).1 = true)
    as Hok by (vm_compute; reflexivity).
  unfold tiny_lit, tiny_state.
  destruct (create_models tiny tiny_lit_config initial_state) as [[lit|e] s];
    [reflexivity|discriminate Hok].
Defined.

Lemma noise_frequencies_never_trained_witness :
  create_models tiny tiny_lit_config initial_state = (Ok tiny_lit, tiny_state) ∧
  ∃ c, cells tiny_state
         !! (unet_id (model tiny_lit), ["noise_level_embedding"; "W"])
         = Some c ∧
       shape (value c) = [noise_level_channels tiny `div` 2] ∧
       requires_grad c = false ∧
       cells (fit tiny_lit (configure_optimizers tiny_lit).1 0 2 0
                  [toy_batch; toy_batch] tiny_state).2
         !! (unet_id (model tiny_lit), ["noise_level_embedding"; "W"])
         = Some c.
Proof.
  pose proof tiny_created as Hcreate.
  destruct (fit tiny_lit (configure_optimizers tiny_lit).1 0 2 0
                [toy_batch; toy_batch] tiny_state) as [r s2] eqn:Hfit.
  exact (conj Hcreate
           (noise_frequencies_never_trained (H := toy_collaborators)
              tiny tiny_lit_config initial_state tiny_state s2 tiny_lit
              0 2 0 [toy_batch; toy_batch] r Hcreate Hfit)).
Defined.

Lemma fit_without_monitoring_witness :
  0 ≤ 0 ∧ 0 ≤ main_max_steps ∧
  main_max_steps + 1 < sample_every_n_steps (config main_lit) ∧
  ∃ new,
    trace (fit main_lit (configure_optimizers main_lit).1 0 main_max_steps 0
               [toy_batch; toy_batch] tiny_state).2
      = (trace tiny_state ++ new)%list ∧
    Forall step_event new.
Proof.
  assert (0 ≤ 0) as Hgs by lia.
  assert (0 ≤ main_max_steps) as Hms by discriminate.
  assert (main_max_steps + 1 < sample_every_n_steps (config main_lit)) as Hn
    by reflexivity.
  destruct (fit main_lit (configure_optimizers main_lit).1 0 main_max_steps 0
                [toy_batch; toy_batch] tiny_state) as [r s'] eqn:Hfit.
  exact (conj Hgs (conj Hms (conj Hn
           (fit_without_monitoring (H := toy_collaborators) main_lit
              (configure_optimizers main_lit).1 [toy_batch; toy_batch]
              0 main_max_steps 0 tiny_state r s' Hgs Hms Hn Hfit)))).
Defined.

Lemma zero_period_raises_witness :
  sample_every_n_steps (config zero_period_lit) = 0 ∧
  ∃ s', update_ema_model_ (model zero_period_lit) (ema_model zero_period_lit)
                          (ema_decay_rate (config zero_period_lit)) tiny_state
          = (Ok tt, s') ∧
        on_train_batch_end zero_period_lit 1 toy_visible toy_batch 0 tiny_state
          = (Raise ZeroDivisionError, s').
Proof.
  assert (sample_every_n_steps (config zero_period_lit) = 0) as Hzero
    by reflexivity.
  exact (conj Hzero
           (zero_period_raises (H := toy_collaborators) zero_period_lit 1
              toy_visible toy_batch 0 tiny_state Hzero)).
Defined.

Lemma monitoring_trace_layout_witness :
  (__sample_and_log_samples tiny_lit 0 toy_batch tiny_state).1 = Ok tt ∧
  ∃ t b head noise s1 samples,
    first_of_batch toy_batch = Ok t ∧ shape0 t = Ok b ∧
    tensor_slice_to t (Z.min (num_samples (config tiny_lit)) b) = Ok head ∧
    randn_like head tiny_state = (Ok noise, s1) ∧
    shape noise = shape head ∧
    sampler_returns (reify tiny_state (ema_model tiny_lit))
                    (unet_training (ema_model tiny_lit)) noise
                    (sampling_sigmas (config tiny_lit)) (gen s1) samples
                    (gen (__sample_and_log_samples tiny_lit 0 toy_batch
                                                   tiny_state).2) ∧
    trace (__sample_and_log_samples tiny_lit 0 toy_batch tiny_state).2 =
      (trace tiny_state ++
       EvAddImage ground_truth (make_grid (clamp_unit head)) 0 ::
       concat (zip_with
                 (λ sigmas t,
                    sampling_events (reify tiny_state (ema_model tiny_lit))
                      (unet_training (ema_model tiny_lit)) noise 0 sigmas
                      (make_grid (clamp_unit t)))
                 (sampling_sigmas (config tiny_lit)) samples))%list.
Proof.
  assert (is_ok (__sample_and_log_samples tiny_lit 0 toy_batch tiny_state).1
          = true) as Hok by (vm_compute; reflexivity).
  destruct (__sample_and_log_samples tiny_lit 0 toy_batch tiny_state)
    as [[[]|e] s'] eqn:Hrun; [|discriminate Hok].
  exact (conj eq_refl
           (monitoring_trace_layout (H := toy_collaborators) tiny_lit 0
              toy_batch tiny_state s' Hrun)).
Defined.

Lemma toy_trainer_keeps (p : string) :
  p ≠ "logs/icm/version_0/metrics" →
  ∀ st, trainer_files (Collaborators := toy_collaborators) st !! p
        = files st !! p.
Proof. intros Hp st. simpl. by rewrite lookup_insert_ne. Defined.

Lemma run_training_checkpoint_witness :
  (∃ w' s' lit s1,
     run_training (H := Paired.pair_imaging) Paired.pair_config tiny
                  tiny_lit_config 2 "ckpt" 42 [[0; 1]; [1; 0]]
                  Paired.pair_world initial_state = (Ok tt, w', s') ∧
     create_models tiny tiny_lit_config (seed_everything 42 initial_state).2
       = (Ok lit, s1) ∧
     files s' !! Py.path_join "ckpt" "config.json"
       = Some (JsonFile (config_to_json tiny)) ∧
     files s' !! Py.path_join "ckpt" "model.pt"
       = Some (TorchFile (state_dict s' (model lit))) ∧
     last (stdout w') = Some "Model saved.") ∧
  (∃ w' s',
     run_training (H := Paired.pair_imaging) Paired.pair_config tiny
                  tiny_lit_config 2 "ckpt" 42 [[0; 1]; [1; 2]]
                  Paired.pair_world initial_state
       = (Raise IndexError, w', s') ∧
     files s' !! Py.path_join "ckpt" "config.json" = None ∧
     files s' !! Py.path_join "ckpt" "model.pt" = None).
Proof.
  split.
  - assert (is_ok (run_training (H := Paired.pair_imaging) Paired.pair_config
                     tiny tiny_lit_config 2 "ckpt" 42 [[0; 1]; [1; 0]]
                     Paired.pair_world initial_state).1.1 = true)
      as Hok by (vm_compute; reflexivity).
    destruct (run_training (H := Paired.pair_imaging) Paired.pair_config
                tiny tiny_lit_config 2 "ckpt" 42 [[0; 1]; [1; 0]]
                Paired.pair_world initial_state)
      as [[[[]|e] w'] s'] eqn:Hrun; [|discriminate Hok].
    destruct (proj1 (run_training_checkpoint (H := Paired.pair_imaging)
                       (H0 := toy_collaborators) Paired.pair_config tiny
                       tiny_lit_config 2 "ckpt" 42 [[0; 1]; [1; 0]]
                       Paired.pair_world w' initial_state s' (Ok tt) Hrun)
                eq_refl) as (lit & s1 & Hrest).
    exists w', s', lit, s1. exact (conj eq_refl Hrest).
  - assert ((run_training (H := Paired.pair_imaging) Paired.pair_config
               tiny tiny_lit_config 2 "ckpt" 42 [[0; 1]; [1; 2]]
               Paired.pair_world initial_state).1.1 = Raise IndexError)
      as Hraise by (vm_compute; reflexivity).
    destruct (run_training (H := Paired.pair_imaging) Paired.pair_config
                tiny tiny_lit_config 2 "ckpt" 42 [[0; 1]; [1; 2]]
                Paired.pair_world initial_state)
      as [[r w'] s'] eqn:Hrun.
    simpl in Hraise. subst r.
    pose proof (proj2 (run_training_checkpoint (H := Paired.pair_imaging)
                         (H0 := toy_collaborators) Paired.pair_config tiny
                         tiny_lit_config 2 "ckpt" 42 [[0; 1]; [1; 2]]
                         Paired.pair_world w' initial_state s'
                         (Raise IndexError) Hrun) IndexError eq_refl)
      as Hkeep.
    exists w', s'. split; [reflexivity|]. split.
    + apply (Hkeep _ (or_introl eq_refl)). by apply toy_trainer_keeps.
    + apply (Hkeep _ (or_intror eq_refl)). by apply toy_trainer_keeps.
Defined.

Lemma from_pretrained_strict_keys_witness :
  files stray_key_checkpoint !! Py.path_join "ckpt" "config.json"
    = Some (JsonFile (config_to_json tiny)) ∧
  config_of_json (config_to_json tiny) = Ok (as_lists tiny) ∧
  UNet_modules (as_lists tiny) = Ok tiny_modules ∧
  files stray_key_checkpoint !! Py.path_join "ckpt" "model.pt"
    = Some (TorchFile [(["not_a_parameter"], mkTensor [1] [0%Q])]) ∧
  (from_pretrained "ckpt" stray_key_checkpoint).1 = Raise RuntimeError.
Proof.
  assert (files stray_key_checkpoint !! Py.path_join "ckpt" "config.json"
          = Some (JsonFile (config_to_json tiny))) as Hcfg
    by (vm_compute; reflexivity).
  assert (config_of_json (config_to_json tiny) = Ok (as_lists tiny)) as Hdoc
    by (vm_compute; reflexivity).
  assert (UNet_modules (as_lists tiny) = Ok tiny_modules) as Hm
    by (vm_compute; reflexivity).
  assert (files stray_key_checkpoint !! Py.path_join "ckpt" "model.pt"
          = Some (TorchFile [(["not_a_parameter"], mkTensor [1] [0%Q])]))
    as Hpt by (vm_compute; reflexivity).
  split_and!; [exact Hcfg|exact Hdoc|exact Hm|exact Hpt|].
  destruct (from_pretrained "ckpt" stray_key_checkpoint) as [r s'] eqn:Hrun.
  destruct (from_pretrained_strict_keys _ _ _ _ _ _ _ _
              Hcfg Hdoc Hm Hpt Hrun) as [_ Hstray].
  apply Hstray.
  exists (["not_a_parameter"], mkTensor [1] [0%Q]). split.
  - apply elem_of_cons. by left.
  - apply (bool_decide_unpack _). vm_compute. reflexivity.
Defined.

Lemma partial_config_is_refused_witness :
  files partial_checkpoint !! Py.path_join "ckpt" "config.json"
    = Some (JsonFile (JObj partial_fields)) ∧
  (from_pretrained "ckpt" partial_checkpoint).1 = Raise TypeError ∧
  cursor (gen partial_checkpoint) = 0%nat ∧
  cursor (gen (from_pretrained "ckpt" partial_checkpoint).2) = 226%nat ∧
  ∃ e s',
    from_pretrained "ckpt" partial_checkpoint = (Raise e, s') ∧
    cells s' = cells partial_checkpoint ∧
    next_id s' = next_id partial_checkpoint ∧
    files s' = files partial_checkpoint ∧
    trace s' = trace partial_checkpoint.
Proof.
  assert (files partial_checkpoint !! Py.path_join "ckpt" "config.json"
          = Some (JsonFile (JObj partial_fields))) as Hfile
    by (vm_compute; reflexivity).
  assert (is_Some (assoc "top_blocks_channels" partial_fields) ↔
          assoc "mid_blocks_channels" partial_fields = None) as Hone.
  { split; [reflexivity|]. intros _. eexists. reflexivity. }
  assert ((from_pretrained "ckpt" partial_checkpoint).1 = Raise TypeError)
    as Hraise by (vm_compute; reflexivity).
  assert (cursor (gen (from_pretrained "ckpt" partial_checkpoint).2)
          = 226%nat) as Hcursor by (vm_compute; reflexivity).
  destruct (partial_config_is_refused "ckpt" partial_fields partial_checkpoint
              Hfile Hone) as (e & s' & Hrun & Hc & Hn & Hf & Ht & _).
  exact (conj Hfile (conj Hraise (conj eq_refl (conj Hcursor
           (ex_intro _ e (ex_intro _ s'
              (conj Hrun (conj Hc (conj Hn (conj Hf Ht)))))))))).
Defined.

End TrainingRuns.

Section LoaderRuns.
Import Paired.

Lemma pair_setup : LLVIPDataModule_setup pair_config = Ok pair_dataset.
Proof. reflexivity. Defined.

Lemma setup_reads_fixed_directories_witness :
  LLVIPDataModule_setup pair_config = Ok pair_dataset ∧
  visible_dir pair_dataset = "datasets/LLVIP/visible/train" ∧
  infrared_dir pair_dataset = "datasets/LLVIP/infrared/train" ∧
  crop_size pair_dataset = image_size_crop pair_config ∧
  resize_size pair_dataset = image_size_resize pair_config ∧
  (∀ cfg', image_size_crop cfg' = image_size_crop pair_config →
           image_size_resize cfg' = image_size_resize pair_config →
           LLVIPDataModule_setup cfg' = Ok pair_dataset) ∧
  ∃ vis ir,
    listdir "datasets/LLVIP/visible/train" = Ok vis ∧
    listdir "datasets/LLVIP/infrared/train" = Ok ir ∧
    ∀ vis' ir', vis' ≡ₚ vis → ir' ≡ₚ ir →
      visible_images pair_dataset = Py.sorted vis' ∧
      infrared_images pair_dataset = Py.sorted ir'.
Proof.
  exact (conj pair_setup
           (setup_reads_fixed_directories (H := pair_imaging) pair_config
              pair_dataset pair_setup)).
Defined.

Lemma pair_flip_keeps_size :
  ∀ img : Image, image_size (hflip img) = image_size img.
Proof. intros img. reflexivity. Defined.

Lemma pair_randint_in_range :
  ∀ (low high : Z) (g : Rng),
    low < high → low ≤ (torch_randint low high g).1 < high.
Proof. intros low high g Hlt. simpl. lia. Defined.

Lemma getitem_augments_in_step_witness :
  item_paths pair_dataset 0 =
    Ok ("datasets/LLVIP/visible/train/010001.jpg",
        "datasets/LLVIP/infrared/train/010001.jpg") ∧
  (∃ flip top left w',
     PairedDataset_getitem pair_dataset 0 pair_world =
       (Ok (Some (augmented pair_dataset flip top left (1280, 1024),
                  augmented pair_dataset flip top left (1280, 1024))), w') ∧
     0 ≤ top ∧ top + 512 ≤ 1024 ∧ 0 ≤ left ∧ left + 512 ≤ 1280 ∧
     stdout w' = stdout pair_world) ∧
  (∃ w', PairedDataset_getitem wide_crop_dataset 0 pair_world
           = (Raise ValueError, w') ∧
         stdout w' = stdout pair_world).
Proof.
  assert (item_paths pair_dataset 0 =
            Ok ("datasets/LLVIP/visible/train/010001.jpg",
                "datasets/LLVIP/infrared/train/010001.jpg")) as Hpaths
    by reflexivity.
  assert (item_paths wide_crop_dataset 0 =
            Ok ("datasets/LLVIP/visible/train/010001.jpg",
                "datasets/LLVIP/infrared/train/010001.jpg")) as Hpaths'
    by reflexivity.
  split; [exact Hpaths|]. split.
  - apply (getitem_augments_in_step (H := pair_imaging) pair_dataset 0
             pair_world _ _ (1280, 1024) (1280, 1024) 1280 1024
             pair_flip_keeps_size pair_randint_in_range Hpaths
             eq_refl eq_refl eq_refl eq_refl).
    simpl. lia.
  - apply (getitem_augments_in_step (H := pair_imaging) wide_crop_dataset 0
             pair_world _ _ (1280, 1024) (1280, 1024) 1280 1024
             pair_flip_keeps_size pair_randint_in_range Hpaths'
             eq_refl eq_refl eq_refl eq_refl).
    simpl. lia.
Defined.

Lemma pair_to_tensor_unit : ∀ img : Image, within 0 1 (to_tensor img).
Proof.
  intros img. unfold within. simpl. apply Forall_replicate.
  split; discriminate.
Defined.

Lemma setup_items_are_normalised_witness :
  LLVIPDataModule_setup pair_config = Ok pair_dataset ∧
  ∃ a b w',
    PairedDataset_getitem pair_dataset 0 pair_world = (Ok (Some (a, b)), w') ∧
    ∃ ta tb, a = PTensor ta ∧ b = PTensor tb ∧
             within (-1) 1 ta ∧ within (-1) 1 tb.
Proof.
  split; [exact pair_setup|].
  destruct (PairedDataset_getitem pair_dataset 0 pair_world)
    as [[[[a b]|]|e] w'] eqn:Hget;
    [|by vm_compute in Hget..].
  exists a, b, w'. split; [reflexivity|].
  exact (setup_items_are_normalised (H := pair_imaging) pair_config
           pair_dataset 0 pair_world w' a b pair_to_tensor_unit pair_setup
           Hget).
Defined.

Lemma fetched_batch_is_a_pair_witness :
  ∃ batch w',
    DataLoader_fetch (train_dataloader pair_config pair_dataset) [0; 1]
                     pair_world = (Ok batch, w') ∧
    ∃ (pairs : list (Tensor * Tensor)) visible infrared,
      mapM (PairedDataset_getitem pair_dataset) [0; 1] pair_world =
        (Ok ((λ p : Tensor * Tensor, Some (PTensor p.1, PTensor p.2))
               <$> pairs), w') ∧
      length pairs = length [0; 1] ∧
      [0; 1] ≠ [] ∧
      stack (pairs.*1) = Ok visible ∧
      stack (pairs.*2) = Ok infrared ∧
      batch = [visible; infrared] ∧
      shape0 visible = Ok (Z.of_nat (length [0; 1])) ∧
      shape0 infrared = Ok (Z.of_nat (length [0; 1])) ∧
      unpack2 (BList batch) = Ok (visible, infrared) ∧
      first_of_batch (BList batch) = Ok visible.
Proof.
  destruct (DataLoader_fetch (train_dataloader pair_config pair_dataset)
              [0; 1] pair_world) as [[batch|e] w'] eqn:Hfetch;
    [|by vm_compute in Hfetch].
  exists batch, w'. split; [reflexivity|].
  exact (fetched_batch_is_a_pair (H := pair_imaging) pair_config pair_dataset
           [0; 1] pair_world w' batch Hfetch).
Defined.

End LoaderRuns.
